(** * The invite-balance bot: ledger store, command router, onboarding channel name

    A shallow embedding of [src/bot.js] (the Postgres-backed bot) and of the
    earlier SQLite-backed variant ([src/unnamed/part_000]), with the
    properties of the ledger and of the command handlers proved about it.

    Layout:
    - [Number]: JavaScript numbers / SQL DOUBLE PRECISION as IEEE-754 binary64,
      with [parseFloat] and [toFixed(2)];
    - [Balances]: the [balances] table and the three SQL statements;
    - [Async]: promises as a state-and-exception monad;
    - [Pg], [Sqlite]: the helper functions of the two source files;
    - [Router]: the [interactionCreate] handler of [bot.js];
    - [Provisioner]: the channel name built on [guildMemberAdd];
    - [Schema]: the command schema registered at startup;
    - [SqliteRouter]: the [interactionCreate] handler of the SQLite variant;
    - [Onboarding]: the [guildMemberAdd] handler;
    - [Startup]: the pool and the database set-up of [bot.js];
    - [EventLoop]: the handlers of [bot.js] cut at their awaits, and the
      interleavings of handlers in flight together;
    - [Postgres], [Sqlite3]: the two storage engines, each on its own, with
      the helper functions run on their own engine;
    - [Ledgers]: when a PostgreSQL table and a SQLite table hold the same
      records;
    - the theorems. *)

From Stdlib Require Import ZArith NArith QArith Qabs Lia Lqa Bool List String Ascii.
From Stdlib Require Import DecimalString Sorting.Sorted Sorting.Permutation.
From Stdlib Require Import Relations.Relation_Operators.
From Stdlib Require Import Floats.SpecFloat.
Import ListNotations.

Close Scope Q_scope.

Set Implicit Arguments.

(* ================================================================== *)
(** * Numbers *)
(* ================================================================== *)

Module Number.

Local Open Scope Z_scope.

(** A JavaScript number, and a value of a [DOUBLE PRECISION] (Postgres) or
    [REAL] (SQLite) column: an IEEE-754 binary64 datum. *)
Definition number : Type := spec_float.

Definition prec : Z := 53.
Definition emax : Z := 1024.

(** [balances.balance + EXCLUDED.balance], [balance + ?]: binary64 addition,
    round to nearest, ties to even.  (Where the sum of two finite terms
    overflows Postgres raises an error instead: [Postgres.float8pl] below.) *)
Definition add (x y : number) : number := SFadd prec emax x y.

(** Unary minus, as in the literal [-0.2]. *)
Definition neg (x : number) : number := SFopp x.

(** The literal [0]. *)
Definition zero : number := S754_zero false.

(** The literal [0.2]: the double nearest to 1/5, 0x3FC999999999999A. *)
Definition two_tenths : number := S754_finite false 7205759403792794 (-55).

Definition is_nan (x : number) : bool :=
  match x with S754_nan => true | _ => false end.



Definition is_finite (x : number) : bool :=
  match x with S754_zero _ | S754_finite _ _ _ => true | _ => false end.

(** A stored double: canonical mantissa and exponent. *)
Definition well_formed (x : number) : bool := valid_binary prec emax x.

(** The real value of a finite number, as a rational. *)
Definition to_Q (x : number) : Q :=
  match x with
  | S754_finite s m e =>
      let sm := cond_Zopp s (Zpos m) in
      if 0 <=? e then inject_Z (sm * 2 ^ e)
      else Qmake sm (Z.to_pos (2 ^ (- e)))
  | _ => 0%Q
  end.

(** [ORDER BY balance]: the comparison of float8 values.  Finite values and
    infinities compare numerically; NaN is placed above every other value and
    equal to itself, as Postgres does (a SQLite REAL column holds no NaN). *)
Definition compare (x y : number) : comparison :=
  match SFcompare x y with
  | Some c => c
  | None =>
      match is_nan x, is_nan y with
      | true, true => Eq
      | true, false => Gt
      | _, _ => Lt
      end
  end.

Definition geb (x y : number) : bool :=
  match compare x y with Lt => false | _ => true end.

(** [parseFloat(v)] applied to a number [v]: the argument is first converted
    with ToString and the text is parsed back.  ToString prints the shortest
    text that reads back as the same double, "NaN", "Infinity" and
    "-Infinity" are all read back, and both zeros print as "0": the result is
    [v], except that a negative zero comes back positive. *)
Definition parseFloat (v : number) : number :=
  match v with
  | S754_zero _ => S754_zero false
  | _ => v
  end.

(** ** [Number.prototype.toFixed(2)] *)

Definition decimal (n : Z) : string := NilZero.string_of_uint (N.to_uint (Z.to_N n)).

(** Is [m * 2^e >= 10^21] ? *)
Definition at_least_1e21 (m : positive) (e : Z) : bool :=
  if 0 <=? e then 10 ^ 21 <=? Zpos m * 2 ^ e
  else 10 ^ 21 * 2 ^ (- e) <=? Zpos m.

(** The integer [n] for which [n / 100 - m * 2^e] is as close to zero as
    possible; of two such [n], the larger. *)
Definition hundredths (m : positive) (e : Z) : Z :=
  if 0 <=? e then 100 * Zpos m * 2 ^ e
  else (2 * (100 * Zpos m) + 2 ^ (- e)) / (2 * 2 ^ (- e)).

(** The digits of [n], at least three of them, with a point before the last
    two. *)
Definition with_two_decimals (n : Z) : string :=
  (decimal (n / 100) ++ "." ++ decimal ((n / 10) mod 10) ++ decimal (n mod 10))%string.

(** Finite, and of magnitude below 10^21: the numbers [toFixed] prints in
    fixed notation. *)
Definition below_1e21 (x : number) : bool :=
  match x with
  | S754_zero _ => true
  | S754_finite _ m e => negb (at_least_1e21 m e)
  | _ => false
  end.

Section ToFixed.

(** ToString of a double that is at least 10^21 (exponent notation, with the
    shortest digits that read back): part of the JavaScript runtime, not
    of the bot, and kept abstract. *)
Variable Number_toString : number -> string.

Definition toFixed2 (x : number) : string :=
  match x with
  | S754_nan => "NaN"
  | S754_infinity false => "Infinity"
  | S754_infinity true => "-Infinity"
  | S754_zero _ => "0.00"
  | S754_finite s m e =>
      ((if s then "-" else "") ++
       (if at_least_1e21 m e then Number_toString (SFabs x)
        else with_two_decimals (hundredths m e)))%string
  end.

End ToFixed.

End Number.

Import Number.

Open Scope string_scope.
Open Scope list_scope.

(* ================================================================== *)
(** * The [balances] table *)
(* ================================================================== *)

Module Balances.

(** [CREATE TABLE balances (user_id TEXT PRIMARY KEY, balance DOUBLE PRECISION)]:
    one row per user, kept in the order in which the rows were first
    inserted. *)
Record row : Type := { user_id : string; balance : number }.

Definition table : Type := list row.

Definition keys (t : table) : list string := map user_id t.

(** [WHERE user_id = $1] *)
Definition where_user_id (u : string) (t : table) : list row :=
  filter (fun r => String.eqb (user_id r) u) t.

(** [INSERT INTO balances (user_id, balance) VALUES (u, d)
     ON CONFLICT (user_id) DO UPDATE SET balance = balances.balance + EXCLUDED.balance]
    (and its SQLite spelling [SET balance = balance + ?]): one statement, which
    the engine runs atomically.  This is the statement on the values that
    the two engines treat alike; an overflowing sum, a NaN, a negative zero
    and the place of the updated row among the others are followed engine by
    engine in [Postgres] and [Sqlite3] below. *)
Fixpoint upsert (t : table) (u : string) (d : number) : table :=
  match t with
  | [] => [ {| user_id := u; balance := d |} ]
  | r :: t' =>
      if String.eqb (user_id r) u
      then {| user_id := u; balance := add (balance r) d |} :: t'
      else r :: upsert t' u d
  end.

(** The stored balance of [u], if a row exists. *)
Definition stored (t : table) (u : string) : option number :=
  option_map balance (hd_error (where_user_id u t)).

(** What [ORDER BY balance DESC] promises of its result. *)
Definition balance_desc (r1 r2 : row) : Prop := geb (balance r1) (balance r2) = true.

Record lawful_order (order : table -> list row) : Prop := {
  order_perm : forall t, Permutation (order t) t;
  order_desc : forall t, StronglySorted balance_desc (order t)
}.

(** The three statements the bot sends. *)
Inductive sql : Type :=
| SelectBalance (userId : string)
  (* SELECT balance FROM balances WHERE user_id = $1 *)
| UpsertBalance (userId : string) (amount : number)
  (* INSERT ... ON CONFLICT (user_id) DO UPDATE SET balance = balance + amount *)
| SelectTop (limit : nat).
  (* SELECT user_id, balance FROM balances ORDER BY balance DESC LIMIT $1 *)

Section Engine.

(** The storage engine's [ORDER BY balance DESC]: the statement names no
    second sort key, so the order among rows of equal balance is the
    engine's. *)
Variable order_by_balance_desc : table -> list row.

(** The rows a statement returns and the table it leaves. *)
Definition run (q : sql) (t : table) : list row * table :=
  match q with
  | SelectBalance u => (where_user_id u t, t)
  | UpsertBalance u d => ([], upsert t u d)
  | SelectTop n => (firstn n (order_by_balance_desc t), t)
  end.

End Engine.

(** An engine that keeps rows of equal balance in insertion order
    (insertion sort, stable). *)
Fixpoint insert_desc (r : row) (l : list row) : list row :=
  match l with
  | [] => [r]
  | x :: l' => if geb (balance r) (balance x) then r :: l else x :: insert_desc r l'
  end.

Definition stable_order (t : table) : list row :=
  fold_right insert_desc [] t.

(** The table after a list of upserts, in order. *)
Definition upsert_all (calls : list (string * number)) (t : table) : table :=
  fold_left (fun t c => upsert t (fst c) (snd c)) calls t.

End Balances.

Import Balances.

(* ================================================================== *)
(** * Promises *)
(* ================================================================== *)

Module Async.

(** How an awaited promise settles. *)
Inductive outcome (A : Type) : Type :=
| Fulfilled (a : A)
| Rejected.

Arguments Rejected {A}.

(** An [async] function over a state [S]: it runs from a state and settles,
    leaving a state. *)
Definition async (S A : Type) : Type := S -> outcome A * S.

Definition ret {S A} (a : A) : async S A := fun s => (Fulfilled a, s).

Definition bind {S A B} (m : async S A) (k : A -> async S B) : async S B :=
  fun s =>
    match m s with
    | (Fulfilled a, s') => k a s'
    | (Rejected, s') => (Rejected, s')
    end.

Definition throw {S A} : async S A := fun s => (Rejected, s).

(** [try { body } catch (err) { handler }] *)
Definition try_catch {S A} (body handler : async S A) : async S A :=
  fun s =>
    match body s with
    | (Fulfilled a, s') => (Fulfilled a, s')
    | (Rejected, s') => handler s'
    end.

Definition gets {S A} (f : S -> A) : async S A := fun s => (Fulfilled (f s), s).

Definition modify {S} (f : S -> S) : async S unit := fun s => (Fulfilled tt, f s).

(** Reading a property of a value that may be [null]: a TypeError on [null]. *)
Definition deref {S A} (o : option A) : async S A :=
  match o with
  | Some a => ret a
  | None => throw
  end.

Module Notations.
  Notation "x <- m ;; k" := (bind m (fun x => k))
    (at level 61, m at next level, right associativity).
  Notation "m ;; k" := (bind m (fun _ => k))
    (at level 61, right associativity).
End Notations.

End Async.

Import Async Async.Notations.

(* ================================================================== *)
(** * What the bot process acts on *)
(* ================================================================== *)

(** What a handler does to the outside: statements sent through the pool,
    replies sent through the gateway, lines written to the console. *)
Inductive event : Type :=
| PoolQuery (q : sql)
| DeferReply (ephemeral : bool)
| Reply (content : string) (ephemeral : bool)
| EditReply (content : string)
| ConsoleError (label : string).

(** [pool] is [None] when [DATABASE_URL] is absent ([const pool = null]);
    otherwise it leads to the table.  [online] tells whether the database
    answers; [events] is what has been done so far, oldest first. *)
Record world : Type := {
  pool : option table;
  online : bool;
  events : list event
}.

(** The world after one more event. *)
Definition logged (e : event) (w : world) : world :=
  {| pool := pool w; online := online w; events := events w ++ [e] |}.

Definition emit (e : event) : async world unit := modify (logged e).

Definition is_query (e : event) : bool :=
  match e with PoolQuery _ => true | _ => false end.

(* ================================================================== *)
(** * [bot.js]: the Postgres-backed helpers *)
(* ================================================================== *)

Module Pg.

Section Helpers.

Variable order_by_balance_desc : table -> list row.

(** [await pool.query(text, params)]: rejects when the database does not
    answer; [res.rows] otherwise. *)
Definition pool_query (q : sql) : async world (list row) :=
  fun w =>
    match pool w with
    | None => (Rejected, w)
    | Some t =>
        if online w then
          let (rows, t') := run order_by_balance_desc q t in
          (Fulfilled rows,
           {| pool := Some t'; online := online w;
              events := events w ++ [PoolQuery q] |})
        else (Rejected, logged (PoolQuery q) w)
    end.

Definition getBalance (userId : string) : async world number :=
  p <- gets pool ;;
  match p with
  | None => ret zero
  | Some _ =>
      res <- pool_query (SelectBalance userId) ;;
      ret (match hd_error res with
           | Some r => parseFloat (balance r)
           | None => zero
           end)
  end.

Definition addBalance (userId : string) (amount : number) : async world unit :=
  p <- gets pool ;;
  match p with
  | None => ret tt
  | Some _ => pool_query (UpsertBalance userId amount) ;; ret tt
  end.

(** [limit = 15] when the argument is left out. *)
Definition getLeaderboard (limit : option nat) : async world (list row) :=
  let limit := match limit with Some n => n | None => 15 end in
  p <- gets pool ;;
  match p with
  | None => ret []
  | Some _ => res <- pool_query (SelectTop limit) ;; ret res
  end.

End Helpers.

End Pg.

(* ================================================================== *)
(** * [part_000]: the SQLite-backed helpers *)
(* ================================================================== *)

Module Sqlite.

(** The database file behind [db]; [healthy] tells whether statements
    succeed. *)
Record database : Type := { contents : table; healthy : bool }.

(** The arguments a node-style callback receives: [callback(err)] or
    [callback(null, value)]. *)
Inductive callback (A : Type) : Type :=
| Err
| Ok (value : A).

Arguments Err {A}.

Section Helpers.

Variable order_by_balance_desc : table -> list row.

(** [db.get(sql, params, cb)]: the first row, or [undefined]. *)
Definition db_get (db : database) (q : sql) : callback (option row) :=
  if healthy db
  then Ok (hd_error (fst (run order_by_balance_desc q (contents db))))
  else Err.

(** [db.all(sql, params, cb)] *)
Definition db_all (db : database) (q : sql) : callback (list row) :=
  if healthy db
  then Ok (fst (run order_by_balance_desc q (contents db)))
  else Err.

(** [db.run(sql, params)], with no callback.  A statement that fails makes
    the driver emit an ['error'] event; nothing listens for it, so Node
    raises it as an uncaught exception and the process exits: [None]. *)
Definition db_run (db : database) (q : sql) : option database :=
  if healthy db
  then Some {| contents := snd (run order_by_balance_desc q (contents db));
               healthy := healthy db |}
  else None.

Definition getBalance (db : database) (userId : string) : callback number :=
  match db_get db (SelectBalance userId) with
  | Err => Err
  | Ok row => Ok (match row with Some r => balance r | None => zero end)
  end.

Definition addBalance (db : database) (userId : string) (amount : number)
    : option database :=
  db_run db (UpsertBalance userId amount).

Definition getLeaderboard (db : database) (limit : nat) : callback (list row) :=
  match db_all db (SelectTop limit) with
  | Err => Err
  | Ok rows => Ok rows
  end.

End Helpers.

End Sqlite.

(* ================================================================== *)
(** * [bot.js]: the slash-command handler *)
(* ================================================================== *)

Module Router.

Record User : Type := { id : string; username : string }.

Record interaction : Type := {
  isCommand : bool;
  isChatInputCommand : bool;
  commandName : string;
  user : User;
  options : list (string * User)
}.

(** [interaction.options.getUser(name)]: [null] when the option is absent. *)
Definition getUser (i : interaction) (name : string) : option User :=
  option_map snd (find (fun o => String.eqb (fst o) name) (options i)).

Definition deferReply (ephemeral : bool) : async world unit := emit (DeferReply ephemeral).

Definition reply (content : string) (ephemeral : bool) : async world unit :=
  emit (Reply content ephemeral).

Definition editReply (content : string) : async world unit := emit (EditReply content).

Definition console_error (label : string) : async world unit := emit (ConsoleError label).

Definition newline : string := String (ascii_of_nat 10) EmptyString.

(** [rows.map((row, i) => f(row, i))] *)
Fixpoint map_indexed {A B} (f : A -> nat -> B) (i : nat) (l : list A) : list B :=
  match l with
  | [] => []
  | a :: l' => f a i :: map_indexed f (S i) l'
  end.

(** [`${i + 1}`] *)
Definition rank (i : nat) : string := decimal (Z.of_nat (i + 1)).

Section Handler.

(** [process.env.OWNER_ID]: a string, or [undefined]. *)
Variable OWNER_ID : option string.
Variable order_by_balance_desc : table -> list row.
Variable Number_toString : number -> string.

Definition getBalance := Pg.getBalance order_by_balance_desc.
Definition addBalance := Pg.addBalance order_by_balance_desc.
Definition getLeaderboard := Pg.getLeaderboard order_by_balance_desc.
Definition toFixed2 := Number.toFixed2 Number_toString.

(** [interaction.user.id !== OWNER_ID] *)
Definition not_owner (i : interaction) : bool :=
  match OWNER_ID with
  | Some o => negb (String.eqb (id (user i)) o)
  | None => true
  end.

Definition owner_only : string := "❌ Only the owner can use this command.".

Definition balance_text (balance : number) : string :=
  "💰 Your current balance is **" ++ toFixed2 balance ++ "**".

Definition verified_text (member inviter : User) : string :=
  "✅ Verified **" ++ username member ++ "** was invited by **" ++ username inviter
  ++ "**." ++ newline ++ "Added **0.2** to " ++ username inviter ++ "'s balance.".

Definition unverified_text (member inviter : User) : string :=
  "↩️ Unverified **" ++ username member ++ "** who was invited by **"
  ++ username inviter ++ "**." ++ newline ++ "Removed **0.2** from "
  ++ username inviter ++ "'s balance.".

Definition leaderboard_line (r : row) (i : nat) : string :=
  rank i ++ ". <@" ++ user_id r ++ "> — **" ++ toFixed2 (parseFloat (balance r)) ++ "**".

Definition leaderboard_text (rows : list row) : string :=
  "🏆 **Top 15 Leaderboard**" ++ newline ++ newline
  ++ String.concat newline (map_indexed leaderboard_line 0 rows).

Definition no_data : string := "🏆 No data yet!".

Definition on_balance (i : interaction) : async world unit :=
  deferReply true ;;
  try_catch
    (balance <- getBalance (id (user i)) ;;
     editReply (balance_text balance))
    (console_error "Balance error:" ;;
     editReply "Error retrieving your balance.").

Definition on_verify (i : interaction) : async world unit :=
  if not_owner i then reply owner_only true
  else
    deferReply false ;;
    let member := getUser i "member" in
    let inviter := getUser i "inviter" in
    try_catch
      (inv <- deref inviter ;;
       addBalance (id inv) two_tenths ;;
       mem <- deref member ;;
       editReply (verified_text mem inv))
      (console_error "Verify error:" ;;
       editReply "Error updating balance.").

Definition on_unverify (i : interaction) : async world unit :=
  if not_owner i then reply owner_only true
  else
    deferReply false ;;
    let member := getUser i "member" in
    let inviter := getUser i "inviter" in
    try_catch
      (inv <- deref inviter ;;
       addBalance (id inv) (neg two_tenths) ;;
       mem <- deref member ;;
       editReply (unverified_text mem inv))
      (console_error "Unverify error:" ;;
       editReply "Error updating balance.").

Definition on_leaderboard (i : interaction) : async world unit :=
  deferReply false ;;
  try_catch
    (rows <- getLeaderboard (Some 15) ;;
     match rows with
     | [] => editReply no_data
     | _ => editReply (leaderboard_text rows)
     end)
    (console_error "Leaderboard error:" ;;
     editReply "Error retrieving leaderboard.").

(** [client.on("interactionCreate", async (interaction) => ...)] *)
Definition interactionCreate (i : interaction) : async world unit :=
  if negb (isCommand i) && negb (isChatInputCommand i) then ret tt
  else if String.eqb (commandName i) "balance" then on_balance i
  else if String.eqb (commandName i) "verify" then on_verify i
  else if String.eqb (commandName i) "unverify" then on_unverify i
  else if String.eqb (commandName i) "leaderboard" then on_leaderboard i
  else ret tt.

End Handler.

End Router.

(* ================================================================== *)
(** * The onboarding channel name *)
(* ================================================================== *)

Module Provisioner.

(** A JavaScript string: its UTF-16 code units. *)
Definition jsstring : Type := list N.

Definition of_ascii (s : string) : jsstring := map N_of_ascii (list_ascii_of_string s).

Local Open Scope N_scope.

Definition is_upper (c : N) : bool := (65 <=? c) && (c <=? 90).

(** The class [[a-z0-9-]]. *)
Definition allowed (c : N) : bool :=
  ((97 <=? c) && (c <=? 122)) || ((48 <=? c) && (c <=? 57)) || (c =? 45).

Section ChannelName.

(** The lower-case mapping of the Unicode tables outside ASCII. *)
Variable lower_non_ascii : N -> list N.

Definition lower_unit (c : N) : list N :=
  if is_upper c then [c + 32]
  else if c <? 128 then [c]
  else lower_non_ascii c.

(** [s.toLowerCase()] *)
Definition toLowerCase (s : jsstring) : jsstring := flat_map lower_unit s.

(** [s.replace(/[^a-z0-9-]/g, "")] *)
Definition strip (s : jsstring) : jsstring := filter allowed s.

(** [`verify-${member.user.username}`.toLowerCase().replace(/[^a-z0-9-]/g, "")] *)
Definition channelName (username : jsstring) : jsstring :=
  strip (toLowerCase (of_ascii "verify-" ++ username)).

End ChannelName.

End Provisioner.

(* ================================================================== *)
(** * Auxiliary notions used in the statements and proofs *)
(* ================================================================== *)

Module OrderKey.

Local Open Scope Z_scope.

(** A key whose lexicographic order is the order of [Number.compare]. *)
Definition key (x : number) : Z * Z * Z :=
  match x with
  | S754_nan => (3, 0, 0)
  | S754_infinity false => (2, 0, 0)
  | S754_infinity true => (-2, 0, 0)
  | S754_zero _ => (0, 0, 0)
  | S754_finite false m e => (1, e, Zpos m)
  | S754_finite true m e => (-1, - e, - Zpos m)
  end.

Definition lex_le (k1 k2 : Z * Z * Z) : Prop :=
  let '(a1, b1, c1) := k1 in
  let '(a2, b2, c2) := k2 in
  a1 < a2 \/ (a1 = a2 /\ (b1 < b2 \/ (b1 = b2 /\ c1 <= c2))).

End OrderKey.

(* ================================================================== *)
(** * Calls to [addBalance] in flight at the same time *)
(* ================================================================== *)

Module Interleaving.

(** A call [addBalance(userId, amount)] that has been made and whose
    statement has not yet reached the database. *)
Definition call : Type := (string * number)%type.

Section Runs.

Variable order_by_balance_desc : table -> list row.

(** [completes calls w w']: the calls in flight all complete, one statement
    at a time in an order the callers do not choose, and take the world from
    [w] to [w']. *)
Inductive completes : list call -> world -> world -> Prop :=
| completes_none w : completes [] w w
| completes_pick before c after w w1 w2 :
    Pg.addBalance order_by_balance_desc (fst c) (snd c) w = (Fulfilled tt, w1) ->
    completes (before ++ after) w1 w2 ->
    completes (before ++ c :: after) w w2.

End Runs.

(** The amounts of the calls for [u], in the order of the calls. *)
Definition deltas_for (u : string) (calls : list call) : list number :=
  map snd (filter (fun c => String.eqb (fst c) u) calls).

(** The balance after adding [ds] one after the other with the database's
    addition; the first amount opens the row when there is none. *)
Definition running_sum (prior : option number) (ds : list number) : option number :=
  fold_left (fun acc d => Some (match acc with Some b => add b d | None => d end)) ds prior.

End Interleaving.

(* ================================================================== *)
(** * Exact values of doubles *)
(* ================================================================== *)

Module Exact.

Local Open Scope Z_scope.

(** The value of a finite double counted in units of 2^-1074, the smallest
    positive double: an integer when the exponent is at least -1074. *)
Definition ulps (x : number) : Z :=
  match x with
  | S754_finite s m e => cond_Zopp s (Zpos m * 2 ^ (e + 1074))
  | _ => 0
  end.

(** Zero, or finite with an exponent of at least -1074. *)
Definition in_range (x : number) : Prop :=
  match x with
  | S754_zero _ => True
  | S754_finite _ _ e => -1074 <= e
  | _ => False
  end.

(** [mrs] is what is left of the natural number [X] after [k] right shifts:
    the quotient, the last bit shifted out, and whether anything below it was
    set. *)
Definition shifted (X k : Z) (mrs : shr_record) : Prop :=
  0 <= shr_m mrs /\
  exists low,
    2 * X = shr_m mrs * 2 ^ (k + 1) + Z.b2z (shr_r mrs) * 2 ^ k + low /\
    0 <= low < 2 ^ k /\
    (shr_s mrs = true <-> low <> 0).

End Exact.

(* ================================================================== *)
(** * [bot.js]: the command schema registered at startup *)
(* ================================================================== *)

Module Schema.

(** [.addUserOption(opt => opt.setName(n).setDescription(d).setRequired(r))] *)
Record user_option : Type := {
  option_name : string;
  option_description : string;
  required : bool
}.

(** [new SlashCommandBuilder().setName(n).setDescription(d)] and its options. *)
Record command : Type := {
  name : string;
  description : string;
  user_options : list user_option
}.

(** [const commands = [ ... ]] *)
Definition commands : list command :=
  [ {| name := "balance";
       description := "Check your current balance";
       user_options := [] |};
    {| name := "verify";
       description := "Verify who invited a new member (owner only)";
       user_options :=
         [ {| option_name := "member"; option_description := "Member who was invited";
              required := true |};
           {| option_name := "inviter"; option_description := "User who invited the member";
              required := true |} ] |};
    {| name := "unverify";
       description := "Undo a verification (owner only, removes 0.2 from inviter)";
       user_options :=
         [ {| option_name := "member"; option_description := "Member to unverify";
              required := true |};
           {| option_name := "inviter"; option_description := "Inviter to remove balance from";
              required := true |} ] |};
    {| name := "leaderboard";
       description := "Show the top 15 users by balance";
       user_options := [] |} ].

(** An interaction carries every option its command declares as required:
    what the platform checks before it delivers the invocation. *)
Definition conforms (i : Router.interaction) (c : command) : Prop :=
  Router.commandName i = name c /\
  forall o, In o (user_options c) -> required o = true ->
    exists u, Router.getUser i (option_name o) = Some u.

(** An invocation of the command [name] by [user], as the platform delivers
    it. *)
Definition invocation (name : string) (user : Router.User)
    (options : list (string * Router.User)) : Router.interaction :=
  {| Router.isCommand := true; Router.isChatInputCommand := true;
     Router.commandName := name; Router.user := user; Router.options := options |}.

(** The operator's [verify] or [unverify] of [member] and [inviter]. *)
Definition verification (verified : bool) (operator member inviter : Router.User)
    : Router.interaction :=
  invocation (if verified then "verify" else "unverify") operator
    [("member", member); ("inviter", inviter)].

End Schema.

(* ================================================================== *)
(** * Reading a trace of events *)
(* ================================================================== *)

Module Trace.

(** The first response to an interaction: [deferReply] or [reply]. *)
Definition is_ack (e : event) : bool :=
  match e with DeferReply _ | Reply _ _ => true | _ => false end.

(** A message text shown to the user: [reply] or [editReply]. *)
Definition is_content (e : event) : bool :=
  match e with Reply _ _ | EditReply _ => true | _ => false end.

Definition is_console_error (e : event) : bool :=
  match e with ConsoleError _ => true | _ => false end.

(** What goes through the gateway: everything but the statements sent to the
    database and the lines written to the console. *)
Definition is_gateway (e : event) : bool :=
  match e with DeferReply _ | Reply _ _ | EditReply _ => true | _ => false end.

(** [n] invocations of the same handler, each awaited before the next. *)
Fixpoint times {St} (n : nat) (m : async St unit) : async St unit :=
  match n with
  | O => ret tt
  | S n' => m ;; times n' m
  end.

(** The handlers of a list, each awaited before the next. *)
Fixpoint sequence {St} (l : list (async St unit)) : async St unit :=
  match l with
  | [] => ret tt
  | m :: l' => m ;; sequence l'
  end.

(** A list of verifications ([true]) and unverifications ([false]): the
    amount each one sends, and the verifications less the
    unverifications. *)
Definition amount (verified : bool) : number :=
  if verified then two_tenths else neg two_tenths.

Definition net (ops : list bool) : Z :=
  (Z.of_nat (count_occ Bool.bool_dec ops true)
   - Z.of_nat (count_occ Bool.bool_dec ops false))%Z.

End Trace.

(* ================================================================== *)
(** * [part_000]: the slash-command handler of the SQLite variant *)
(* ================================================================== *)

Module SqliteRouter.

Import Router.

(** The process of the SQLite variant: the database file and what has been
    sent through the gateway so far, oldest first. *)
Record process : Type := {
  db : Sqlite.database;
  replies : list event
}.

Definition send (e : event) : async process unit :=
  modify (fun p => {| db := db p; replies := replies p ++ [e] |}).

Section Handler.

Variable OWNER_ID : option string.
Variable order_by_balance_desc : table -> list row.
Variable Number_toString : number -> string.

(** [`${i + 1}. <@${row.user_id}> — **${row.balance.toFixed(2)}**`] *)
Definition leaderboard_line (r : row) (i : nat) : string :=
  rank i ++ ". <@" ++ user_id r ++ "> — **"
  ++ Number.toFixed2 Number_toString (balance r) ++ "**".

Definition leaderboard_text (rows : list row) : string :=
  "🏆 **Top 15 Leaderboard**" ++ newline ++ newline
  ++ String.concat newline (map_indexed leaderboard_line 0 rows).

(** The texts of the replies are those of [bot.js], letter for letter. *)
Definition on_balance (i : interaction) : async process unit :=
  send (DeferReply true) ;;
  d <- gets db ;;
  match Sqlite.getBalance order_by_balance_desc d (id (user i)) with
  | Sqlite.Err => send (EditReply "Error retrieving your balance.")
  | Sqlite.Ok balance => send (EditReply (balance_text Number_toString balance))
  end.

(** An error that nothing handles, thrown by the handler or raised by Node
    for an ['error'] event without a listener: Node prints it and the
    process exits. *)
Definition uncaught {A} : async process A := throw.

(** [addBalance(userId, amount)]: not awaited, and called with no callback.
    The call returns at once; the result tells whether the statement it
    handed over fails, which surfaces once the handler's own code has run. *)
Definition addBalance (userId : string) (amount : number) : async process bool :=
  fun p =>
    match Sqlite.addBalance order_by_balance_desc (db p) userId amount with
    | Some db' => (Fulfilled false, {| db := db'; replies := replies p |})
    | None => (Fulfilled true, p)
    end.

(** The handler has no [try]. *)
Definition on_verify (i : interaction) : async process unit :=
  if not_owner OWNER_ID i then send (Reply owner_only true)
  else
    send (DeferReply false) ;;
    let member := getUser i "member" in
    let inviter := getUser i "inviter" in
    inv <- deref inviter ;;
    failed <- addBalance (id inv) two_tenths ;;
    mem <- deref member ;;
    send (EditReply (verified_text mem inv)) ;;
    if failed then uncaught else ret tt.

Definition on_unverify (i : interaction) : async process unit :=
  if not_owner OWNER_ID i then send (Reply owner_only true)
  else
    send (DeferReply false) ;;
    let member := getUser i "member" in
    let inviter := getUser i "inviter" in
    inv <- deref inviter ;;
    failed <- addBalance (id inv) (neg two_tenths) ;;
    mem <- deref member ;;
    send (EditReply (unverified_text mem inv)) ;;
    if failed then uncaught else ret tt.

Definition on_leaderboard (i : interaction) : async process unit :=
  send (DeferReply false) ;;
  d <- gets db ;;
  match Sqlite.getLeaderboard order_by_balance_desc d 15 with
  | Sqlite.Err => send (EditReply "Error retrieving leaderboard.")
  | Sqlite.Ok [] => send (EditReply no_data)
  | Sqlite.Ok rows => send (EditReply (leaderboard_text rows))
  end.

(** [client.on("interactionCreate", async (interaction) => ...)] *)
Definition interactionCreate (i : interaction) : async process unit :=
  if negb (isCommand i) && negb (isChatInputCommand i) then ret tt
  else if String.eqb (commandName i) "balance" then on_balance i
  else if String.eqb (commandName i) "verify" then on_verify i
  else if String.eqb (commandName i) "unverify" then on_unverify i
  else if String.eqb (commandName i) "leaderboard" then on_leaderboard i
  else ret tt.

End Handler.

End SqliteRouter.

(* ================================================================== *)
(** * The [guildMemberAdd] handler *)
(* ================================================================== *)

Module Onboarding.

Import Provisioner.

(** [PermissionsBitField.Flags] used by the handler. *)
Inductive permission : Type := ViewChannel | SendMessages | ReadMessageHistory.

(** Whom an overwrite is for: [guild.roles.everyone], or a user by id (the id
    read off the fetched owner is [undefined] when that value carries none). *)
Inductive grantee : Type :=
| everyone
| user_ref (id : option string).

(** One entry of [permissionOverwrites]; a list that the source leaves out is
    empty. *)
Record overwrite : Type := {
  id : grantee;
  allow : list permission;
  deny : list permission
}.

(** The joining member: [member.id], [member.user.username],
    [member.user.tag], and the mention that [`${member}`] prints. *)
Record GuildMember : Type := {
  member_id : string;
  username : jsstring;
  tag : string;
  mention : string
}.

(** What [guild.members.fetch] resolves to, as far as the handler reads it. *)
Record fetched : Type := { fetched_id : option string }.

(** What [guild.channels.create] resolves to. *)
Record TextChannel : Type := { channel_id : string; channel_name : string }.

(** What the handler does, oldest first: requests to the gateway (logged
    whether or not they succeed) and console lines. *)
Inductive action : Type :=
| MembersFetch (user : option string)
| ChannelsCreate (name : jsstring) (type : N) (permissionOverwrites : list overwrite)
| ChannelSend (channel : TextChannel) (content : string)
| ConsoleLog (line : string)
| ConsoleErrorLine (label : string).

(** How the gateway answers each request: [None] and [false] are rejections. *)
Record gateway : Type := {
  members_fetch : option string -> option fetched;
  channels_create : jsstring -> N -> list overwrite -> option TextChannel;
  channel_send : TextChannel -> string -> bool
}.

(** An awaited request: logged, then fulfilled or rejected. *)
Definition request {A} (a : action) (answer : option A) : async (list action) A :=
  fun log =>
    match answer with
    | Some x => (Fulfilled x, log ++ [a])
    | None => (Rejected, log ++ [a])
    end.

Definition print (a : action) : async (list action) unit :=
  modify (fun log => log ++ [a]).

(** The welcome message of [bot.js]. *)
Definition welcome (mention : string) : string :=
  "👋 welcome " ++ mention ++ "! please verify yourself here by telling us:" ++ Router.newline
  ++ "1. any of your social media profiles" ++ Router.newline
  ++ "2. who invited you?" ++ Router.newline
  ++ "3. how hard you work?".

(** The welcome message of [part_000]. *)
Definition welcome_sqlite (mention : string) : string :=
  "👋 Welcome " ++ mention ++ "! Please verify yourself here.".

Definition full_access : list permission :=
  [ViewChannel; SendMessages; ReadMessageHistory].

(** The [permissionOverwrites] of the new channel. *)
Definition overwrites (member : GuildMember) (owner : fetched) : list overwrite :=
  [ {| id := everyone; allow := []; deny := [ViewChannel] |};
    {| id := user_ref (Some (member_id member)); allow := full_access; deny := [] |};
    {| id := user_ref (fetched_id owner); allow := full_access; deny := [] |} ].

Section Handler.

Variable OWNER_ID : option string.
Variable lower_non_ascii : N -> list N.
Variable discord : gateway.

(** The message text, which is where the two files differ. *)
Variable welcome_text : string -> string.

(** [client.on("guildMemberAdd", async (member) => { try { ... } catch (err) { ... } })] *)
Definition guildMemberAdd (member : GuildMember) : async (list action) unit :=
  try_catch
    (owner <- request (MembersFetch OWNER_ID) (members_fetch discord OWNER_ID) ;;
     let channelName := channelName lower_non_ascii (username member) in
     verifyChannel <-
       request (ChannelsCreate channelName 0 (overwrites member owner))
               (channels_create discord channelName 0 (overwrites member owner)) ;;
     request (ChannelSend verifyChannel (welcome_text (mention member)))
             (if channel_send discord verifyChannel (welcome_text (mention member))
              then Some tt else None) ;;
     print (ConsoleLog ("Created channel " ++ channel_name verifyChannel ++ " for "
                        ++ tag member)))
    (print (ConsoleErrorLine "Error creating verify channel:")).

End Handler.

End Onboarding.

(* ================================================================== *)
(** * [bot.js]: the pool and the database set-up at startup *)
(* ================================================================== *)

Module Startup.

(** A line on the console. *)
Inductive line : Type :=
| Warn (text : string)
| Log (text : string)
| Error (label : string).

(** The Postgres server a connection string leads to: whether it accepts a
    connection, whether it executes a statement, and the [balances] table,
    if it exists. *)
Record server : Type := {
  accepts : bool;
  executes : bool;
  balances : option table
}.

Record process : Type := {
  postgres : server;
  console : list line
}.

(** [{ connectionString: DATABASE_URL, ssl: { rejectUnauthorized: false } }] *)
Record options : Type := {
  connectionString : string;
  rejectUnauthorized : bool
}.

(** [DATABASE_URL ? { ... } : null]: an unset variable and an empty one are
    both falsy. *)
Definition connectionOptions (DATABASE_URL : option string) : option options :=
  match DATABASE_URL with
  | Some url =>
      if String.eqb url "" then None
      else Some {| connectionString := url; rejectUnauthorized := false |}
  | None => None
  end.

(** [connectionOptions ? new Pool(connectionOptions) : null]: the pool, known
    by its options. *)
Definition pool (DATABASE_URL : option string) : option options :=
  match connectionOptions DATABASE_URL with
  | Some o => Some o
  | None => None
  end.

Definition print (l : line) : async process unit :=
  modify (fun p => {| postgres := postgres p; console := console p ++ [l] |}).

(** [await pool.connect()] *)
Definition connect : async process unit :=
  fun p => if accepts (postgres p) then (Fulfilled tt, p) else (Rejected, p).

(** [await pool.query(`CREATE TABLE IF NOT EXISTS balances (...)`)]: an
    existing table is left as it is. *)
Definition create_table_if_not_exists : async process unit :=
  fun p =>
    if executes (postgres p) then
      (Fulfilled tt,
       {| postgres :=
            {| accepts := accepts (postgres p);
               executes := executes (postgres p);
               balances := Some (match balances (postgres p) with
                                 | Some t => t
                                 | None => []
                                 end) |};
          console := console p |})
    else (Rejected, p).

Section Process.

Variable DATABASE_URL : option string.

Definition ensureDB : async process unit :=
  match pool DATABASE_URL with
  | None => print (Warn "No DATABASE_URL found — running without persistent DB.")
  | Some _ =>
      create_table_if_not_exists ;;
      print (Log "✅ Ensured balances table exists (Postgres).")
  end.

(** [(async () => { try { if (pool) { ... } } catch (err) { ... } })()] *)
Definition initialize : async process unit :=
  try_catch
    (match pool DATABASE_URL with
     | Some _ => connect ;; ensureDB ;; print (Log "✅ Connected to Postgres")
     | None => ret tt
     end)
    (print (Error "Database connection error:")).

End Process.

End Startup.

(* ================================================================== *)
(** * [bot.js]: handlers in flight at the same time *)
(* ================================================================== *)

Module EventLoop.

Import Router.

(** An [async] function as the event loop runs it.  [Await stretch k] is the
    code up to and including an awaited request, which takes effect in one
    piece ([stretch]), after which the function is suspended until it is
    resumed with the value ([k]); a rejection, or an exception thrown in the
    stretch, is thrown at the [await].  Other handlers run while this one is
    suspended. *)
Inductive prog (A : Type) : Type :=
| Return (a : A)
| Throw
| Await {B : Type} (stretch : async world B) (k : B -> prog A)
| TryCatch (body handler : prog A).

Arguments Throw {A}.

(** The function run alone, from start to end. *)
Fixpoint run {A} (p : prog A) : async world A :=
  match p with
  | Return a => ret a
  | Throw => throw
  | Await stretch k => b <- stretch ;; run (k b)
  | TryCatch body handler => try_catch (run body) (run handler)
  end.

(** [try { body } catch { handler }] once [body] has moved on. *)
Definition catch {A} (body handler : prog A) : prog A :=
  match body with
  | Return a => Return a
  | Throw => handler
  | _ => TryCatch body handler
  end.

(** One turn: the function is resumed and runs to its next suspension. *)
Fixpoint step {A} (p : prog A) (w : world) : prog A * world :=
  match p with
  | Return a => (Return a, w)
  | Throw => (Throw, w)
  | Await stretch k =>
      match stretch w with
      | (Fulfilled b, w') => (k b, w')
      | (Rejected, w') => (Throw, w')
      end
  | TryCatch body handler =>
      let (body', w') := step body w in (catch body' handler, w')
  end.

Definition settled {A} (p : prog A) : bool :=
  match p with
  | Return _ | Throw => true
  | _ => false
  end.

(** [runs ps w ps' w']: the handlers [ps] in flight take turns, in an order
    they do not choose, and reach [ps'] and the world [w']. *)
Inductive runs : list (prog unit) -> world -> list (prog unit) -> world -> Prop :=
| runs_stop ps w : runs ps w ps w
| runs_turn before p after w p' w1 ps' w2 :
    settled p = false ->
    step p w = (p', w1) ->
    runs (before ++ p' :: after) w1 ps' w2 ->
    runs (before ++ p :: after) w ps' w2.

Section Handler.

Variable OWNER_ID : option string.
Variable order_by_balance_desc : table -> list row.
Variable Number_toString : number -> string.

Definition on_balance (i : interaction) : prog unit :=
  Await (deferReply true) (fun _ =>
  TryCatch
    (Await (Router.getBalance order_by_balance_desc (id (user i))) (fun balance =>
     Await (editReply (balance_text Number_toString balance)) (fun _ =>
     Return tt)))
    (Await (console_error "Balance error:" ;;
            editReply "Error retrieving your balance.") (fun _ =>
     Return tt))).

Definition on_verify (i : interaction) : prog unit :=
  if not_owner OWNER_ID i then Await (reply owner_only true) (fun _ => Return tt)
  else
    Await (deferReply false) (fun _ =>
    let member := getUser i "member" in
    let inviter := getUser i "inviter" in
    TryCatch
      (Await (inv <- deref inviter ;;
              Router.addBalance order_by_balance_desc (id inv) two_tenths ;;
              ret inv) (fun inv =>
       Await (mem <- deref member ;;
              editReply (verified_text mem inv)) (fun _ =>
       Return tt)))
      (Await (console_error "Verify error:" ;;
              editReply "Error updating balance.") (fun _ =>
       Return tt))).

Definition on_unverify (i : interaction) : prog unit :=
  if not_owner OWNER_ID i then Await (reply owner_only true) (fun _ => Return tt)
  else
    Await (deferReply false) (fun _ =>
    let member := getUser i "member" in
    let inviter := getUser i "inviter" in
    TryCatch
      (Await (inv <- deref inviter ;;
              Router.addBalance order_by_balance_desc (id inv) (neg two_tenths) ;;
              ret inv) (fun inv =>
       Await (mem <- deref member ;;
              editReply (unverified_text mem inv)) (fun _ =>
       Return tt)))
      (Await (console_error "Unverify error:" ;;
              editReply "Error updating balance.") (fun _ =>
       Return tt))).

Definition on_leaderboard (i : interaction) : prog unit :=
  Await (deferReply false) (fun _ =>
  TryCatch
    (Await (Router.getLeaderboard order_by_balance_desc (Some 15)) (fun rows =>
     match rows with
     | [] => Await (editReply no_data) (fun _ => Return tt)
     | _ => Await (editReply (leaderboard_text Number_toString rows)) (fun _ => Return tt)
     end))
    (Await (console_error "Leaderboard error:" ;;
            editReply "Error retrieving leaderboard.") (fun _ =>
     Return tt))).

(** [client.on("interactionCreate", async (interaction) => ...)] *)
Definition interactionCreate (i : interaction) : prog unit :=
  if negb (isCommand i) && negb (isChatInputCommand i) then Return tt
  else if String.eqb (commandName i) "balance" then on_balance i
  else if String.eqb (commandName i) "verify" then on_verify i
  else if String.eqb (commandName i) "unverify" then on_unverify i
  else if String.eqb (commandName i) "leaderboard" then on_leaderboard i
  else Return tt.

(** A verification ([true]) or unverification ([false]) that the operator
    asks for, with both options. *)
Record request : Type := {
  is_verify : bool;
  of_member : User;
  of_inviter : User
}.

(** The statement it sends. *)
Definition call_of (x : request) : string * number :=
  (id (of_inviter x), Trace.amount (is_verify x)).

Definition confirmation (x : request) : string :=
  if is_verify x then verified_text (of_member x) (of_inviter x)
  else unverified_text (of_member x) (of_inviter x).

(** Its handler when the operator [op] invokes it. *)
Definition handler (op : User) (x : request) : prog unit :=
  interactionCreate (Schema.verification (is_verify x) op (of_member x) (of_inviter x)).

(** Where that handler stands, with a database that answers, after the
    acknowledgement ([1]), after the statement ([2]) and after the
    confirmation ([3], when it has returned). *)
Definition stage (op : User) (x : request) (turns : nat) : prog unit :=
  let failed :=
    Await (console_error (if is_verify x then "Verify error:" else "Unverify error:") ;;
           editReply "Error updating balance.") (fun _ => Return tt) in
  let confirm :=
    fun inv : User =>
      Await (mem <- deref (Some (of_member x)) ;;
             editReply (if is_verify x then verified_text mem inv
                        else unverified_text mem inv))
        (fun _ => Return tt) in
  match turns with
  | 0 => handler op x
  | 1 =>
      TryCatch
        (Await (inv <- deref (Some (of_inviter x)) ;;
                Router.addBalance order_by_balance_desc (id inv)
                  (if is_verify x then two_tenths else neg two_tenths) ;;
                ret inv) confirm)
        failed
  | 2 => TryCatch (confirm (of_inviter x)) failed
  | _ => Return tt
  end.

Definition stage_of (op : User) (s : request * nat) : prog unit :=
  stage op (fst s) (snd s).

(** Where the handler of a [balance] command stands, with a database that
    answers, after the acknowledgement ([1]), after the SELECT, which read
    [balance] ([2]), and after the reply ([3], when it has returned). *)
Definition balance_stage (i : interaction) (balance : number) (turns : nat) : prog unit :=
  let failed :=
    Await (console_error "Balance error:" ;;
           editReply "Error retrieving your balance.") (fun _ => Return tt) in
  let show :=
    fun balance : number =>
      Await (editReply (balance_text Number_toString balance)) (fun _ => Return tt) in
  match turns with
  | 0 => on_balance i
  | 1 => TryCatch (Await (Router.getBalance order_by_balance_desc (id (user i))) show) failed
  | 2 => TryCatch (show balance) failed
  | _ => Return tt
  end.

End Handler.

(** Of handlers standing at their stages: the statements still to be sent,
    and the turns still to be taken. *)
Definition pending (sts : list (request * nat)) : list (string * number) :=
  map (fun s => call_of (fst s)) (filter (fun s : request * nat => Nat.ltb (snd s) 2) sts).

Definition turns_left (sts : list (request * nat)) : nat :=
  list_sum (map (fun s : request * nat => (3 - snd s)%nat) sts).

(** What [getBalance] reads of a table. *)
Definition read (t : table) (userId : string) : number :=
  match stored t userId with
  | Some b => parseFloat b
  | None => zero
  end.

End EventLoop.

(* ================================================================== *)
(** * Sample values, for instances of the theorems *)
(* ================================================================== *)

Module Sample.

Definition operator : Router.User := {| Router.id := "1"; Router.username := "owner" |}.
Definition alice : Router.User := {| Router.id := "2"; Router.username := "alice" |}.
Definition bob : Router.User := {| Router.id := "3"; Router.username := "bob" |}.

(** An empty table behind a database that answers, and behind one that does
    not. *)
Definition answering : world := {| pool := Some []; online := true; events := [] |}.
Definition failing : world := {| pool := Some []; online := false; events := [] |}.

(** The same for the SQLite variant. *)
Definition sqlite_answering : SqliteRouter.process :=
  {| SqliteRouter.db := {| Sqlite.contents := []; Sqlite.healthy := true |};
     SqliteRouter.replies := [] |}.
Definition sqlite_failing : SqliteRouter.process :=
  {| SqliteRouter.db := {| Sqlite.contents := []; Sqlite.healthy := false |};
     SqliteRouter.replies := [] |}.

(** A stand-in for the exponent notation of numbers from 10^21 on, which no
    instance below reaches. *)
Definition exponent_notation (x : number) : string := "1e+21".

Definition verify_bob_by_alice : Router.interaction :=
  Schema.invocation "verify" operator [("member", bob); ("inviter", alice)].

(** A verification and an unverification of the same inviter. *)
Definition in_flight : list EventLoop.request :=
  [ {| EventLoop.is_verify := true; EventLoop.of_member := bob;
       EventLoop.of_inviter := alice |};
    {| EventLoop.is_verify := false; EventLoop.of_member := bob;
       EventLoop.of_inviter := alice |} ].

End Sample.
(* ================================================================== *)
(** * The two storage engines, each on its own *)
(* ================================================================== *)

(** [Pg] and [Sqlite] above run the statements on one table, which is what
    PostgreSQL and SQLite have in common.  Where the two differ (a sum that
    overflows, a NaN, a negative zero, the place of an updated row, the text
    of the upsert) each engine is followed here on its own, and the helpers
    of the two files are run on their own engine.  The reads of [Postgres]
    are those of [Pg], and its upsert leaves every user the balance that
    [Balances.upsert] leaves whenever the server accepts the sum
    ([PostgresFacts]). *)

Module Postgres.

Definition is_infinite (x : number) : bool :=
  match x with S754_infinity _ => true | _ => false end.

(** [float8pl], the [+] of DOUBLE PRECISION: the IEEE sum, except that a sum
    of two values that are not infinite and that overflows raises
    "value out of range: overflow" ([None]). *)
Definition float8pl (x y : number) : option number :=
  let sum := add x y in
  if is_infinite sum && negb (is_infinite x) && negb (is_infinite y)
  then None
  else Some sum.

(** A JavaScript number passed as a parameter: node-postgres sends the text
    that ToString prints and the server reads the text as a [float8].  The
    value arrives as it is ("NaN", "Infinity" and "-Infinity" are read too),
    except that a negative zero, printed "0", arrives positive. *)
Definition float8in (v : number) : number := parseFloat v.

(** The table is the list of its rows in the order in which a sequential
    scan meets them: a new row is put behind the others, and so is the new
    version of an updated row, whose old version is dead.  (Space reclaimed
    by VACUUM is used again, which this order does not follow.)

    [INSERT INTO balances (user_id, balance) VALUES ($1, $2)
     ON CONFLICT (user_id) DO UPDATE
     SET balance = balances.balance + EXCLUDED.balance]:
    the table it leaves, or the error of the sum, which leaves the table as
    it was. *)
Definition insert_or_add (t : table) (userId : string) (amount : number) : option table :=
  let excluded := {| user_id := userId; balance := float8in amount |} in
  match stored t userId with
  | None => Some (t ++ [excluded])
  | Some b =>
      match float8pl b (balance excluded) with
      | Some sum =>
          Some (filter (fun r => negb (String.eqb (user_id r) userId)) t
                ++ [ {| user_id := userId; balance := sum |} ])
      | None => None
      end
  end.

(** The table after the upserts of [calls], one after the other, where a
    statement that raises an error changes nothing; and whether each of them
    is accepted. *)
Definition after (t : table) (c : string * number) : table :=
  match insert_or_add t (fst c) (snd c) with
  | Some t' => t'
  | None => t
  end.

Definition accepts (t : table) (c : string * number) : bool :=
  match insert_or_add t (fst c) (snd c) with
  | Some _ => true
  | None => false
  end.

Definition replay (calls : list (string * number)) (t : table) : table :=
  fold_left after calls t.

Fixpoint accepted (calls : list (string * number)) (t : table) : list bool :=
  match calls with
  | [] => []
  | c :: calls' => accepts t c :: accepted calls' (after t c)
  end.

(** The balance after the amounts [ds] have been sent one after the other
    for a user: the first opens the row when there is none, and an amount
    whose sum overflows is refused. *)
Definition running_sum (prior : option number) (ds : list number) : option number :=
  fold_left
    (fun acc d =>
       Some (match acc with
             | Some b =>
                 match float8pl b (float8in d) with
                 | Some sum => sum
                 | None => b
                 end
             | None => float8in d
             end))
    ds prior.

Section Helpers.

(** The server's [ORDER BY balance DESC]; the statement names no second sort
    key. *)
Variable order_by_balance_desc : table -> list row.

(** The rows a statement returns and the table it leaves, or its error. *)
Definition execute (q : sql) (t : table) : option (list row * table) :=
  match q with
  | SelectBalance u => Some (where_user_id u t, t)
  | UpsertBalance u d =>
      match insert_or_add t u d with
      | Some t' => Some ([], t')
      | None => None
      end
  | SelectTop n => Some (firstn n (order_by_balance_desc t), t)
  end.

(** [await pool.query(text, params)]: rejects when the database does not
    answer and when the statement raises an error. *)
Definition pool_query (q : sql) : async world (list row) :=
  fun w =>
    match pool w with
    | None => (Rejected, w)
    | Some t =>
        if online w then
          match execute q t with
          | Some (rows, t') =>
              (Fulfilled rows,
               {| pool := Some t'; online := online w;
                  events := events w ++ [PoolQuery q] |})
          | None => (Rejected, logged (PoolQuery q) w)
          end
        else (Rejected, logged (PoolQuery q) w)
    end.

(** The helpers of [bot.js], lines 104 to 129. *)
Definition getBalance (userId : string) : async world number :=
  p <- gets pool ;;
  match p with
  | None => ret zero
  | Some _ =>
      res <- pool_query (SelectBalance userId) ;;
      ret (match hd_error res with
           | Some r => parseFloat (balance r)
           | None => zero
           end)
  end.

Definition addBalance (userId : string) (amount : number) : async world unit :=
  p <- gets pool ;;
  match p with
  | None => ret tt
  | Some _ => pool_query (UpsertBalance userId amount) ;; ret tt
  end.

Definition getLeaderboard (limit : option nat) : async world (list row) :=
  let limit := match limit with Some n => n | None => 15 end in
  p <- gets pool ;;
  match p with
  | None => ret []
  | Some _ => res <- pool_query (SelectTop limit) ;; ret res
  end.

(** A call [addBalance(userId, amount)] made in the world [w], as the event
    loop runs it: the test of [pool] is over when the call is made, and with
    a pool the function is suspended at its one [await], on its one
    statement. *)
Definition addBalance_call (w : world) (userId : string) (amount : number)
    : EventLoop.prog unit :=
  match pool w with
  | None => EventLoop.Return tt
  | Some _ =>
      EventLoop.Await (pool_query (UpsertBalance userId amount))
        (fun _ => EventLoop.Return tt)
  end.

(** Where a call in flight stands: suspended on its statement, or settled,
    its statement accepted ([true], the call returns) or refused ([false],
    the call throws). *)
Definition standing (s : (string * number) * option bool) : EventLoop.prog unit :=
  match snd s with
  | None =>
      EventLoop.Await (pool_query (UpsertBalance (fst (fst s)) (snd (fst s))))
        (fun _ => EventLoop.Return tt)
  | Some true => EventLoop.Return tt
  | Some false => EventLoop.Throw
  end.

End Helpers.

(** How a settled call has ended. *)
Definition ended (ok : bool) : EventLoop.prog unit :=
  if ok then EventLoop.Return tt else EventLoop.Throw.

(** The calls that have settled, each with how its statement went. *)
Definition settled_calls (sts : list ((string * number) * option bool))
    : list ((string * number) * bool) :=
  flat_map (fun s => match snd s with Some ok => [(fst s, ok)] | None => [] end) sts.

(** The statement a call sends. *)
Definition statement_of (c : string * number) : event :=
  PoolQuery (UpsertBalance (fst c) (snd c)).

End Postgres.

Module Sqlite3.

(** A row of [balances (user_id TEXT PRIMARY KEY, balance REAL)]: the
    balance is a number or NULL ([None]). *)
Record row : Type := { user_id : string; balance : option number }.

Definition keys (t : list row) : list string := map user_id t.

(** A number stored in the REAL column: a NaN is stored as NULL, and a zero
    is stored without its sign. *)
Definition real (v : number) : option number :=
  match v with
  | S754_nan => None
  | S754_zero _ => Some (S754_zero false)
  | _ => Some v
  end.

(** [balance + ?]: NULL when the balance is NULL, and when the sum is not a
    number (so with a NaN bound to the [?], which is bound as NULL). *)
Definition plus (b : option number) (x : number) : option number :=
  match b with
  | Some b => real (add b x)
  | None => None
  end.

(** [INSERT INTO balances (user_id, balance) VALUES (?, ?)
     ON CONFLICT(user_id) DO UPDATE SET balance = balance + ?], with its
    three parameters.  An updated row keeps its rowid, and so its place; a
    new row goes behind the others. *)
Fixpoint insert_or_add (t : list row) (p1 : string) (p2 p3 : number) : list row :=
  match t with
  | [] => [ {| user_id := p1; balance := real p2 |} ]
  | r :: t' =>
      if String.eqb (user_id r) p1
      then {| user_id := p1; balance := plus (balance r) p3 |} :: t'
      else r :: insert_or_add t' p1 p2 p3
  end.

(** The three statements of [part_000], with their parameters. *)
Inductive statement : Type :=
| Select_balance (p1 : string)
  (* SELECT balance FROM balances WHERE user_id = ? *)
| Upsert (p1 : string) (p2 p3 : number)
  (* INSERT ... VALUES (?, ?) ON CONFLICT(user_id) DO UPDATE SET balance = balance + ? *)
| Select_top (p1 : nat).
  (* SELECT user_id, balance FROM balances ORDER BY balance DESC LIMIT ? *)

(** [ORDER BY balance DESC]: NULL sorts below every number. *)
Definition geb (x y : option number) : bool :=
  match x, y with
  | _, None => true
  | None, Some _ => false
  | Some a, Some b => Number.geb a b
  end.

Definition balance_desc (r1 r2 : row) : Prop := geb (balance r1) (balance r2) = true.

Record lawful_order (order : list row -> list row) : Prop := {
  order_perm : forall t, Permutation (order t) t;
  order_desc : forall t, StronglySorted balance_desc (order t)
}.

(** Rows of equal balance in the order of their rowids (insertion sort,
    stable). *)
Fixpoint insert_desc (r : row) (l : list row) : list row :=
  match l with
  | [] => [r]
  | x :: l' => if geb (balance r) (balance x) then r :: l else x :: insert_desc r l'
  end.

Definition rowid_order (t : list row) : list row := fold_right insert_desc [] t.

(** The stored balance of [u], if a row exists. *)
Definition stored (t : list row) (u : string) : option (option number) :=
  option_map balance (find (fun r => String.eqb (user_id r) u) t).

(** The table after the upserts of [calls], one after the other. *)
Definition replay (calls : list (string * number)) (t : list row) : list row :=
  fold_left (fun t c => insert_or_add t (fst c) (snd c) (snd c)) calls t.

(** The balance after the amounts [ds] have been sent one after the other
    for a user. *)
Definition running_sum (prior : option (option number)) (ds : list number)
    : option (option number) :=
  fold_left
    (fun acc d =>
       Some (match acc with
             | Some b => plus b d
             | None => real d
             end))
    ds prior.

(** The database file behind [db]; [healthy] tells whether statements
    succeed. *)
Record database : Type := { contents : list row; healthy : bool }.

Section Helpers.

Variable order_by_balance_desc : list row -> list row.

(** The rows a statement returns and the table it leaves. *)
Definition execute (q : statement) (t : list row) : list row * list row :=
  match q with
  | Select_balance p1 => (filter (fun r => String.eqb (user_id r) p1) t, t)
  | Upsert p1 p2 p3 => ([], insert_or_add t p1 p2 p3)
  | Select_top p1 => (firstn p1 (order_by_balance_desc t), t)
  end.

(** [db.get(sql, params, cb)]: the first row, or [undefined]. *)
Definition db_get (db : database) (q : statement) : Sqlite.callback (option row) :=
  if healthy db
  then Sqlite.Ok (hd_error (fst (execute q (contents db))))
  else Sqlite.Err.

(** [db.all(sql, params, cb)] *)
Definition db_all (db : database) (q : statement) : Sqlite.callback (list row) :=
  if healthy db
  then Sqlite.Ok (fst (execute q (contents db)))
  else Sqlite.Err.

(** [db.run(sql, params)], with no callback.  A statement that fails makes
    the driver emit an ['error'] event that nothing listens for, on which
    the process exits: [None]. *)
Definition db_run (db : database) (q : statement) : option database :=
  if healthy db
  then Some {| contents := snd (execute q (contents db)); healthy := healthy db |}
  else None.

(** The helpers of [part_000], lines 67 to 86.  [row.balance] is [null] for
    a NULL. *)
Definition getBalance (db : database) (userId : string)
    : Sqlite.callback (option number) :=
  match db_get db (Select_balance userId) with
  | Sqlite.Err => Sqlite.Err
  | Sqlite.Ok row =>
      Sqlite.Ok (match row with
                 | Some r => balance r
                 | None => Some zero
                 end)
  end.

Definition addBalance (db : database) (userId : string) (amount : number)
    : option database :=
  db_run db (Upsert userId amount amount).

Definition getLeaderboard (db : database) (limit : nat) : Sqlite.callback (list row) :=
  match db_all db (Select_top limit) with
  | Sqlite.Err => Sqlite.Err
  | Sqlite.Ok rows => Sqlite.Ok rows
  end.

(** Statements handed to the driver by [db.run] and not yet run: nothing
    waits for them, and they run one at a time in an order the callers do
    not choose. *)
Inductive drains : list statement -> database -> database -> Prop :=
| drains_none db : drains [] db db
| drains_pick before q after db db1 db2 :
    db_run db q = Some db1 ->
    drains (before ++ after) db1 db2 ->
    drains (before ++ q :: after) db db2.

End Helpers.

(** The statement that [addBalance(userId, amount)] hands over. *)
Definition statement_of (c : string * number) : statement :=
  Upsert (fst c) (snd c) (snd c).

End Sqlite3.

(* ================================================================== *)
(** * The same records in the two databases *)
(* ================================================================== *)

Module Ledgers.

(** The row of the SQLite table that holds what a row of the Postgres table
    holds. *)
Definition image (r : row) : Sqlite3.row :=
  {| Sqlite3.user_id := user_id r; Sqlite3.balance := Sqlite3.real (balance r) |}.

(** Equal abstract store states: each user has at most one row, no balance
    is NaN, and the SQLite table holds the same rows, in whatever order. *)
Record alike (t : table) (s : list Sqlite3.row) : Prop := {
  one_row_each : NoDup (keys t);
  no_nan : Forall (fun r => is_nan (balance r) = false) t;
  same_rows : Permutation (map image t) s
}.

(** No two rows hold equal balances. *)
Definition no_ties (t : table) : Prop :=
  forall r1 r2, In r1 t -> In r2 t ->
    geb (balance r1) (balance r2) = true -> geb (balance r2) (balance r1) = true ->
    r1 = r2.

End Ledgers.

(* ================================================================== *)
(** * Facts: the order of balances *)
(* ================================================================== *)

Module OrderFacts.

Import OrderKey.
Local Open Scope Z_scope.

Lemma lex_le_total k1 k2 : lex_le k1 k2 \/ lex_le k2 k1.
Proof. destruct k1 as [[a1 b1] c1], k2 as [[a2 b2] c2]; simpl; lia. Qed.

Lemma lex_le_trans k1 k2 k3 : lex_le k1 k2 -> lex_le k2 k3 -> lex_le k1 k3.
Proof.
  destruct k1 as [[a1 b1] c1], k2 as [[a2 b2] c2], k3 as [[a3 b3] c3]; simpl; lia.
Qed.

Lemma geb_key x y : geb x y = true <-> lex_le (key y) (key x).
Proof.
  unfold geb, Number.compare.
  destruct x as [sx | sx | | sx mx ex], y as [sy | sy | | sy my ey];
    try destruct sx; try destruct sy; simpl;
    try (split; [intros _; lia | reflexivity]);
    try (split; [discriminate | lia]).
  - destruct (Z.compare_spec ex ey); simpl.
    + subst. rewrite Pos.compare_cont_spec; simpl.
      destruct (Pos.compare_spec mx my); simpl; split; intros;
        try discriminate; try reflexivity; lia.
    + split; [intros _; lia | reflexivity].
    + split; [discriminate | lia].
  - destruct (Z.compare_spec ex ey); simpl.
    + subst. rewrite Pos.compare_cont_spec; simpl.
      destruct (Pos.compare_spec mx my); simpl; split; intros;
        try discriminate; try reflexivity; lia.
    + split; [discriminate | lia].
    + split; [intros _; lia | reflexivity].
Qed.

Lemma geb_total x y : geb x y = true \/ geb y x = true.
Proof. rewrite !geb_key. apply lex_le_total. Qed.

Lemma geb_trans x y z : geb x y = true -> geb y z = true -> geb x z = true.
Proof. rewrite !geb_key. intros H1 H2. eapply lex_le_trans; eauto. Qed.

Lemma geb_refl x : geb x x = true.
Proof. destruct (geb_total x x); assumption. Qed.

End OrderFacts.

(* ================================================================== *)
(** * Facts: numbers and their text *)
(* ================================================================== *)

Module NumberFacts.

(** The literal [0.2] is a double, and no double is nearer to 1/5: it is
    within half a unit of its last place, 2^-56. *)
Lemma two_tenths_nearest :
  well_formed two_tenths = true /\
  (Qabs (to_Q two_tenths - (1 # 5)) <= 1 # 72057594037927936)%Q.
Proof. split; [reflexivity | vm_compute; discriminate]. Qed.

(** [toFixed(2)] on a few doubles, as a JavaScript engine prints them. *)
Example toFixed2_of_two_tenths NT : toFixed2 NT two_tenths = "0.20".
Proof. reflexivity. Qed.

(** [(1.005).toFixed(2)]: the double below 1.005 rounds down. *)
Example toFixed2_of_1_005 NT :
  toFixed2 NT (S754_finite false 4526117625507348 (-52)) = "1.00".
Proof. reflexivity. Qed.

(** [(0.125).toFixed(2)]: an exact tie takes the larger candidate. *)
Example toFixed2_of_an_eighth NT : toFixed2 NT (S754_finite false 4503599627370496 (-55)) = "0.13".
Proof. reflexivity. Qed.

(** [(-0.001).toFixed(2)]: the sign is kept. *)
Example toFixed2_of_minus_a_thousandth NT :
  toFixed2 NT (S754_finite true 4611686018427388 (-62)) = "-0.00".
Proof. reflexivity. Qed.

(** [(0.2 + 0.2 + 0.2).toFixed(2)] *)
Example toFixed2_of_three_credits NT :
  toFixed2 NT (add (add two_tenths two_tenths) two_tenths) = "0.60".
Proof. reflexivity. Qed.

End NumberFacts.

(* ================================================================== *)
(** * Facts: the table *)
(* ================================================================== *)

Module TableFacts.

Lemma stored_cons r t u :
  stored (r :: t) u = if String.eqb (user_id r) u then Some (balance r) else stored t u.
Proof.
  unfold stored, where_user_id; simpl.
  destruct (String.eqb (user_id r) u); reflexivity.
Qed.

Lemma stored_upsert_same t u d :
  stored (upsert t u d) u
  = Some (match stored t u with Some b => add b d | None => d end).
Proof.
  induction t as [| r t IH]; simpl.
  - rewrite stored_cons; simpl. rewrite String.eqb_refl. reflexivity.
  - rewrite (stored_cons r t). destruct (String.eqb (user_id r) u) eqn:E.
    + rewrite stored_cons; simpl. rewrite String.eqb_refl. reflexivity.
    + rewrite stored_cons, E. exact IH.
Qed.

Lemma stored_upsert_other t u v d :
  u <> v -> stored (upsert t u d) v = stored t v.
Proof.
  intros Huv. induction t as [| r t IH]; simpl.
  - rewrite stored_cons; simpl.
    destruct (String.eqb_spec u v); [contradiction | reflexivity].
  - destruct (String.eqb_spec (user_id r) u) as [E | E].
    + rewrite !stored_cons; simpl. rewrite E.
      destruct (String.eqb_spec u v); [contradiction | reflexivity].
    + rewrite !stored_cons, IH. reflexivity.
Qed.

(** A read finds a row exactly for the users that have one. *)
Lemma stored_None_iff t u : stored t u = None <-> ~ In u (keys t).
Proof.
  induction t as [| r t IH]; simpl.
  - split; [intros _ [] | reflexivity].
  - rewrite stored_cons. destruct (String.eqb_spec (user_id r) u) as [E | E].
    + split; [discriminate | intros H; exfalso; apply H; left; exact E].
    + rewrite IH. split; [intros H [F | F]; [contradiction | auto] | intros H F; apply H; right; exact F].
Qed.

Lemma keys_upsert t u d :
  keys (upsert t u d) = if existsb (String.eqb u) (keys t) then keys t else keys t ++ [u].
Proof.
  unfold keys. induction t as [| r t IH]; simpl; [reflexivity |].
  destruct (String.eqb_spec (user_id r) u) as [E | E]; simpl.
  - rewrite E, String.eqb_refl. reflexivity.
  - destruct (String.eqb_spec u (user_id r)) as [F | F]; [congruence |]. simpl.
    rewrite IH.
    destruct (existsb (String.eqb u) (map user_id t)); reflexivity.
Qed.

(** [user_id] is a PRIMARY KEY: an upsert keeps the keys distinct. *)
Lemma upsert_NoDup t u d : NoDup (keys t) -> NoDup (keys (upsert t u d)).
Proof.
  intros H. rewrite keys_upsert.
  destruct (existsb (String.eqb u) (keys t)) eqn:E; [exact H |].
  apply NoDup_rev in H. rewrite <- (rev_involutive (keys t ++ [u])).
  apply NoDup_rev. rewrite rev_app_distr; simpl. constructor; [| exact H].
  rewrite <- in_rev. intros Hin.
  assert (existsb (String.eqb u) (keys t) = true).
  { apply existsb_exists. exists u. split; [exact Hin | apply String.eqb_refl]. }
  congruence.
Qed.

End TableFacts.

(* ================================================================== *)
(** * Facts: two lawful engines *)
(* ================================================================== *)

Module EngineFacts.

Import OrderFacts.

Lemma insert_desc_perm r l : Permutation (insert_desc r l) (r :: l).
Proof.
  induction l as [| x l IH]; simpl; [reflexivity |].
  destruct (geb (balance r) (balance x)); [reflexivity |].
  rewrite IH. apply perm_swap.
Qed.

Lemma stable_order_perm t : Permutation (stable_order t) t.
Proof.
  induction t as [| r t IH]; simpl; [reflexivity |].
  rewrite insert_desc_perm. constructor. exact IH.
Qed.

Lemma insert_desc_sorted r l :
  StronglySorted balance_desc l -> StronglySorted balance_desc (insert_desc r l).
Proof.
  induction 1 as [| x l Hs IH Hx]; simpl.
  - repeat constructor.
  - destruct (geb (balance r) (balance x)) eqn:E.
    + constructor; [constructor; assumption |].
      constructor; [exact E |].
      eapply Forall_impl; [| exact Hx].
      intros y Hy. unfold balance_desc in *. eapply geb_trans; eauto.
    + assert (Hxr : balance_desc x r).
      { unfold balance_desc. destruct (geb_total (balance r) (balance x)); congruence. }
      constructor; [exact IH |].
      eapply Permutation_Forall; [symmetry; apply insert_desc_perm |].
      constructor; assumption.
Qed.

Lemma stable_order_sorted t : StronglySorted balance_desc (stable_order t).
Proof.
  induction t as [| r t IH]; simpl; [constructor | apply insert_desc_sorted, IH].
Qed.

Lemma stable_order_lawful : lawful_order stable_order.
Proof. split; [apply stable_order_perm | apply stable_order_sorted]. Qed.

(** A lawful engine returns nothing from an empty table. *)
Lemma lawful_order_nil order : lawful_order order -> order [] = [].
Proof. intros [Hp _]. apply Permutation_nil. symmetry. apply Hp. Qed.


End EngineFacts.

(* ================================================================== *)
(** * Facts: what the helpers of [bot.js] do *)
(* ================================================================== *)

Module PgFacts.

Import TableFacts.

Section Run.

Variable order : table -> list row.

(** Unfold a helper at a world whose pool and connectivity are known. *)
Ltac run_helper Hp Ho :=
  unfold Pg.getBalance, Pg.addBalance, Pg.getLeaderboard, bind, gets,
    Pg.pool_query, ret, logged, run;
  cbv beta; repeat rewrite Hp; cbv beta iota; repeat rewrite Ho; cbv beta iota.

Lemma hd_where_stored t u :
  match hd_error (where_user_id u t) with
  | Some r => parseFloat (balance r)
  | None => zero
  end
  = match stored t u with Some b => parseFloat b | None => zero end.
Proof. unfold stored. destruct (hd_error (where_user_id u t)); reflexivity. Qed.

(** Without a pool, no helper touches anything. *)
Lemma getBalance_no_pool u w :
  pool w = None -> Pg.getBalance order u w = (Fulfilled zero, w).
Proof. intros H. unfold Pg.getBalance, bind, gets. rewrite H. reflexivity. Qed.

Lemma addBalance_no_pool u d w :
  pool w = None -> Pg.addBalance order u d w = (Fulfilled tt, w).
Proof. intros H. unfold Pg.addBalance, bind, gets. rewrite H. reflexivity. Qed.

Lemma getLeaderboard_no_pool n w :
  pool w = None -> Pg.getLeaderboard order n w = (Fulfilled [], w).
Proof. intros H. unfold Pg.getLeaderboard, bind, gets. rewrite H. reflexivity. Qed.

(** With a pool and a database that answers, each helper is one statement. *)
Lemma getBalance_online u w t :
  pool w = Some t -> online w = true ->
  Pg.getBalance order u w
  = (Fulfilled (match stored t u with Some b => parseFloat b | None => zero end),
     logged (PoolQuery (SelectBalance u)) w).
Proof.
  intros Hp Ho. run_helper Hp Ho. rewrite hd_where_stored. reflexivity.
Qed.

Lemma addBalance_online u d w t :
  pool w = Some t -> online w = true ->
  Pg.addBalance order u d w
  = (Fulfilled tt,
     {| pool := Some (upsert t u d); online := true;
        events := events w ++ [PoolQuery (UpsertBalance u d)] |}).
Proof.
  intros Hp Ho. run_helper Hp Ho. reflexivity.
Qed.

Lemma getLeaderboard_online n w t :
  pool w = Some t -> online w = true ->
  Pg.getLeaderboard order (Some n) w
  = (Fulfilled (firstn n (order t)), logged (PoolQuery (SelectTop n)) w).
Proof.
  intros Hp Ho. run_helper Hp Ho. reflexivity.
Qed.

(** With a pool and a database that does not answer, each helper rejects and
    leaves the table alone. *)
Lemma getBalance_offline u w t :
  pool w = Some t -> online w = false ->
  Pg.getBalance order u w = (Rejected, logged (PoolQuery (SelectBalance u)) w).
Proof.
  intros Hp Ho. run_helper Hp Ho. reflexivity.
Qed.

Lemma addBalance_offline u d w t :
  pool w = Some t -> online w = false ->
  Pg.addBalance order u d w = (Rejected, logged (PoolQuery (UpsertBalance u d)) w).
Proof.
  intros Hp Ho. run_helper Hp Ho. reflexivity.
Qed.

Lemma getLeaderboard_offline n w t :
  pool w = Some t -> online w = false ->
  Pg.getLeaderboard order (Some n) w = (Rejected, logged (PoolQuery (SelectTop n)) w).
Proof.
  intros Hp Ho. run_helper Hp Ho. reflexivity.
Qed.

End Run.



End PgFacts.

(* ================================================================== *)
(** * The ledger: reading a balance *)
(* ================================================================== *)

Section Reading.

Import TableFacts PgFacts EngineFacts.

Variable order : table -> list row.


End Reading.


(* ================================================================== *)
(** * The ledger: running without a database *)
(* ================================================================== *)

Section Operations.

Import TableFacts PgFacts EngineFacts.

Variable order : table -> list row.

(** C7.  Without a connection string ([pool] is [null]) nothing fails and
    nothing is sent to a database: [getBalance] gives 0, [getLeaderboard] the
    empty list, [addBalance] does nothing, the [balance] command answers with
    [0.00]; and the two reads give what they give on an empty table. *)
Theorem no_pool_degrades (w : world) (u : string) (d : number) (limit : option nat)
    (OWNER_ID : option string) (Number_toString : number -> string)
    (i : Router.interaction) (nothing : world) :
  lawful_order order ->
  pool w = None ->
  pool nothing = Some [] ->
  online nothing = true ->
  Pg.getBalance order u w = (Fulfilled zero, w) /\
  Pg.getLeaderboard order limit w = (Fulfilled [], w) /\
  Pg.addBalance order u d w = (Fulfilled tt, w) /\
  fst (Pg.getBalance order u w) = fst (Pg.getBalance order u nothing) /\
  fst (Pg.getLeaderboard order limit w) = fst (Pg.getLeaderboard order limit nothing) /\
  (Router.commandName i = "balance" ->
   Router.isCommand i || Router.isChatInputCommand i = true ->
   Router.interactionCreate OWNER_ID order Number_toString i w
   = (Fulfilled tt,
      {| pool := None; online := online w;
         events := events w ++ [DeferReply true;
                                EditReply "💰 Your current balance is **0.00**"] |})).
Proof.
  intros Hl Hp Hn Hon.
  rewrite (getBalance_no_pool order u w Hp), (getLeaderboard_no_pool order limit w Hp),
    (addBalance_no_pool order u d w Hp).
  repeat split.
  - rewrite (getBalance_online order u nothing Hn Hon). reflexivity.
  - destruct limit as [n |]; [| change (Pg.getLeaderboard order None)
                                   with (Pg.getLeaderboard order (Some 15))];
      rewrite (getLeaderboard_online order _ nothing Hn Hon);
      rewrite (lawful_order_nil Hl), firstn_nil; reflexivity.
  - intros Hc Hi. unfold Router.interactionCreate.
    rewrite Hc. simpl String.eqb.
    destruct (Router.isCommand i), (Router.isChatInputCommand i); try discriminate;
      simpl; unfold Router.on_balance, Router.getBalance, bind, try_catch,
        Router.deferReply, Router.editReply, emit, modify;
      (rewrite getBalance_no_pool by exact Hp);
      unfold logged; simpl; rewrite Hp, <- app_assoc; reflexivity.
Qed.

End Operations.

(** C7 at a world with no pool and a database that would not answer. *)
Lemma no_pool_degrades_witness :
  Pg.getBalance stable_order "1" {| pool := None; online := false; events := [] |}
  = (Fulfilled zero, {| pool := None; online := false; events := [] |}).
Proof.
  exact (proj1 (@no_pool_degrades stable_order
                  {| pool := None; online := false; events := [] |}
                  "1" zero None None (fun _ => EmptyString)
                  {| Router.isCommand := true; Router.isChatInputCommand := true;
                     Router.commandName := "balance";
                     Router.user := {| Router.id := "1"; Router.username := "a" |};
                     Router.options := [] |}
                  {| pool := Some []; online := true; events := [] |}
                  EngineFacts.stable_order_lawful eq_refl eq_refl eq_refl)).
Defined.

(* ================================================================== *)
(** * The command router *)
(* ================================================================== *)

Module RouterFacts.

Import Router PgFacts.

Lemma not_owner_iff OWNER_ID i :
  not_owner OWNER_ID i = true <-> OWNER_ID <> Some (id (user i)).
Proof.
  unfold not_owner. destruct OWNER_ID as [o |].
  - destruct (String.eqb_spec (id (user i)) o) as [E | E]; simpl.
    + split; [discriminate | intros H; exfalso; apply H; rewrite E; reflexivity].
    + split; [intros _ H; inversion H; congruence | reflexivity].
  - split; [intros _; discriminate | reflexivity].
Qed.

(** A command reaches its branch of the dispatch. *)
Lemma dispatch_verify OWNER_ID order NT i :
  isCommand i || isChatInputCommand i = true ->
  commandName i = "verify" ->
  interactionCreate OWNER_ID order NT i = on_verify OWNER_ID order i.
Proof.
  intros Hc Hn. unfold interactionCreate. rewrite Hn.
  destruct (isCommand i), (isChatInputCommand i); try discriminate; reflexivity.
Qed.

Lemma dispatch_unverify OWNER_ID order NT i :
  isCommand i || isChatInputCommand i = true ->
  commandName i = "unverify" ->
  interactionCreate OWNER_ID order NT i = on_unverify OWNER_ID order i.
Proof.
  intros Hc Hn. unfold interactionCreate. rewrite Hn.
  destruct (isCommand i), (isChatInputCommand i); try discriminate; reflexivity.
Qed.

Lemma dispatch_leaderboard OWNER_ID order NT i :
  isCommand i || isChatInputCommand i = true ->
  commandName i = "leaderboard" ->
  interactionCreate OWNER_ID order NT i = on_leaderboard order NT i.
Proof.
  intros Hc Hn. unfold interactionCreate. rewrite Hn.
  destruct (isCommand i), (isChatInputCommand i); try discriminate; reflexivity.
Qed.

Lemma map_indexed_length {A B} (f : A -> nat -> B) i l :
  List.length (map_indexed f i l) = List.length l.
Proof. revert i. induction l as [| a l IH]; intros i; simpl; [| rewrite IH]; reflexivity. Qed.

Lemma map_indexed_nth {A B} (f : A -> nat -> B) i l k :
  nth_error (map_indexed f i l) k = option_map (fun a => f a (i + k)) (nth_error l k).
Proof.
  revert i k. induction l as [| a l IH]; intros i [| k]; simpl; try reflexivity.
  - rewrite Nat.add_0_r. reflexivity.
  - rewrite IH. rewrite Nat.add_succ_r. reflexivity.
Qed.

Lemma decimal_digit d : (0 <= d <= 9)%Z -> String.length (decimal d) = 1.
Proof.
  intros H.
  assert (d = 0 \/ d = 1 \/ d = 2 \/ d = 3 \/ d = 4 \/ d = 5 \/ d = 6 \/ d = 7
          \/ d = 8 \/ d = 9)%Z as Hd by lia.
  repeat (destruct Hd as [-> | Hd]; [reflexivity |]). subst. reflexivity.
Qed.

Lemma string_length_app (a b : string) :
  String.length (a ++ b) = String.length a + String.length b.
Proof. induction a as [| c a IH]; simpl; [| rewrite IH]; reflexivity. Qed.

(** [toFixed(2)] of a finite number below 10^21: a sign, the digits of the
    whole part, a point, two digits. *)
Lemma toFixed2_two_decimals NT x :
  below_1e21 x = true ->
  exists (sign : string) (whole : Z) (frac : string),
    Number.toFixed2 NT x = (sign ++ decimal whole ++ "." ++ frac)%string /\
    (sign = "" \/ sign = "-") /\
    (0 <= whole)%Z /\
    String.length frac = 2.
Proof.
  destruct x as [s | s | | s m e]; simpl; try discriminate.
  - intros _. exists "", 0%Z, "00". repeat split; try reflexivity; auto.
  - intros H. apply negb_true_iff in H. rewrite H.
    set (n := hundredths m e).
    assert (Hn : (0 <= n)%Z).
    { unfold n, hundredths. destruct (Z.leb_spec 0 e).
      - assert (0 <= 2 ^ e)%Z by (apply Z.pow_nonneg; lia). nia.
      - assert (0 < 2 ^ (- e))%Z by (apply Z.pow_pos_nonneg; lia).
        apply Z.div_pos; lia. }
    exists (if s then "-" else ""), (n / 100)%Z,
      (decimal ((n / 10) mod 10) ++ decimal (n mod 10))%string.
    unfold with_two_decimals. repeat split.
    + destruct s; auto.
    + apply Z.div_pos; lia.
    + assert (0 <= (n / 10) mod 10 < 10)%Z by (apply Z.mod_pos_bound; lia).
      assert (0 <= n mod 10 < 10)%Z by (apply Z.mod_pos_bound; lia).
      rewrite string_length_app, !decimal_digit; [reflexivity | lia | lia].
Qed.

End RouterFacts.

Section Commands.

Import Router RouterFacts PgFacts TableFacts.

Variable OWNER_ID : option string.
Variable order : table -> list row.
Variable Number_toString : number -> string.

(** C4.  Whoever is not the configured operator and invokes [verify] or
    [unverify] gets one reply, the rejection, visible to them alone; no
    statement is sent to the database and the table is what it was. *)
Theorem non_operator_is_rejected (i : interaction) (w : world) :
  OWNER_ID <> Some (id (user i)) ->
  isCommand i || isChatInputCommand i = true ->
  commandName i = "verify" \/ commandName i = "unverify" ->
  exists w',
    interactionCreate OWNER_ID order Number_toString i w = (Fulfilled tt, w') /\
    pool w' = pool w /\
    online w' = online w /\
    events w' = events w ++ [Reply "❌ Only the owner can use this command." true] /\
    filter is_query (events w') = filter is_query (events w).
Proof.
  intros Hown Hc Hn. apply not_owner_iff in Hown.
  exists (logged (Reply owner_only true) w).
  split.
  - destruct Hn as [Hn | Hn].
    + rewrite (dispatch_verify _ _ _ _ Hc Hn). unfold on_verify. rewrite Hown. reflexivity.
    + rewrite (dispatch_unverify _ _ _ _ Hc Hn). unfold on_unverify. rewrite Hown. reflexivity.
  - repeat split. simpl. rewrite filter_app. simpl. apply app_nil_r.
Qed.

(** What the operator's [verify] and [unverify] do when the database
    answers. *)
Lemma on_verify_online (i : interaction) (w : world) (member inviter : User) (t : table) :
  not_owner OWNER_ID i = false ->
  getUser i "member" = Some member ->
  getUser i "inviter" = Some inviter ->
  pool w = Some t ->
  online w = true ->
  on_verify OWNER_ID order i w
  = (Fulfilled tt,
     {| pool := Some (upsert t (id inviter) two_tenths); online := true;
        events := events w ++ [DeferReply false;
                               PoolQuery (UpsertBalance (id inviter) two_tenths);
                               EditReply (verified_text member inviter)] |}).
Proof.
  intros Hown Hm Hi Hp Ho.
  unfold on_verify. rewrite Hown, Hm, Hi.
  unfold bind, try_catch, deferReply, editReply, emit, modify, deref, ret, Router.addBalance.
  rewrite (@addBalance_online order (id inviter) two_tenths (logged (DeferReply false) w) t Hp Ho).
  unfold logged; simpl. rewrite <- !app_assoc. reflexivity.
Qed.

Lemma on_unverify_online (i : interaction) (w : world) (member inviter : User) (t : table) :
  not_owner OWNER_ID i = false ->
  getUser i "member" = Some member ->
  getUser i "inviter" = Some inviter ->
  pool w = Some t ->
  online w = true ->
  on_unverify OWNER_ID order i w
  = (Fulfilled tt,
     {| pool := Some (upsert t (id inviter) (neg two_tenths)); online := true;
        events := events w ++ [DeferReply false;
                               PoolQuery (UpsertBalance (id inviter) (neg two_tenths));
                               EditReply (unverified_text member inviter)] |}).
Proof.
  intros Hown Hm Hi Hp Ho.
  unfold on_unverify. rewrite Hown, Hm, Hi.
  unfold bind, try_catch, deferReply, editReply, emit, modify, deref, ret, Router.addBalance.
  rewrite (@addBalance_online order (id inviter) (neg two_tenths) (logged (DeferReply false) w) t Hp Ho).
  unfold logged; simpl. rewrite <- !app_assoc. reflexivity.
Qed.

(** The same without a pool: the confirmation is sent all the same. *)
Lemma on_verify_no_pool (i : interaction) (w : world) (member inviter : User) :
  not_owner OWNER_ID i = false ->
  getUser i "member" = Some member ->
  getUser i "inviter" = Some inviter ->
  pool w = None ->
  on_verify OWNER_ID order i w
  = (Fulfilled tt,
     {| pool := None; online := online w;
        events := events w ++ [DeferReply false;
                               EditReply (verified_text member inviter)] |}).
Proof.
  intros Hown Hm Hi Hp.
  unfold on_verify. rewrite Hown, Hm, Hi.
  unfold bind, try_catch, deferReply, editReply, emit, modify, deref, ret, Router.addBalance.
  rewrite (@addBalance_no_pool order (id inviter) two_tenths (logged (DeferReply false) w) Hp).
  unfold logged; simpl. rewrite Hp, <- !app_assoc. reflexivity.
Qed.

Lemma on_unverify_no_pool (i : interaction) (w : world) (member inviter : User) :
  not_owner OWNER_ID i = false ->
  getUser i "member" = Some member ->
  getUser i "inviter" = Some inviter ->
  pool w = None ->
  on_unverify OWNER_ID order i w
  = (Fulfilled tt,
     {| pool := None; online := online w;
        events := events w ++ [DeferReply false;
                               EditReply (unverified_text member inviter)] |}).
Proof.
  intros Hown Hm Hi Hp.
  unfold on_unverify. rewrite Hown, Hm, Hi.
  unfold bind, try_catch, deferReply, editReply, emit, modify, deref, ret, Router.addBalance.
  rewrite (@addBalance_no_pool order (id inviter) (neg two_tenths) (logged (DeferReply false) w) Hp).
  unfold logged; simpl. rewrite Hp, <- !app_assoc. reflexivity.
Qed.

(** When the database does not answer, the operator is told so and the table
    is what it was. *)
Lemma on_verify_offline (i : interaction) (w : world) (member inviter : User) (t : table) :
  not_owner OWNER_ID i = false ->
  getUser i "member" = Some member ->
  getUser i "inviter" = Some inviter ->
  pool w = Some t ->
  online w = false ->
  on_verify OWNER_ID order i w
  = (Fulfilled tt,
     {| pool := Some t; online := false;
        events := events w ++ [DeferReply false;
                               PoolQuery (UpsertBalance (id inviter) two_tenths);
                               ConsoleError "Verify error:";
                               EditReply "Error updating balance."] |}).
Proof.
  intros Hown Hm Hi Hp Ho.
  unfold on_verify. rewrite Hown, Hm, Hi.
  unfold bind, try_catch, deferReply, editReply, console_error, emit, modify, deref, ret,
    Router.addBalance.
  rewrite (@addBalance_offline order (id inviter) two_tenths (logged (DeferReply false) w) t Hp Ho).
  unfold logged; simpl. rewrite Hp, Ho, <- !app_assoc. reflexivity.
Qed.

End Commands.

(** C4 for a user who is not the operator and invokes [unverify]. *)
Lemma non_operator_is_rejected_witness :
  exists w',
    Router.interactionCreate (Some "1") stable_order (fun _ => EmptyString)
      {| Router.isCommand := true; Router.isChatInputCommand := true;
         Router.commandName := "unverify";
         Router.user := {| Router.id := "2"; Router.username := "mallory" |};
         Router.options := [("member", {| Router.id := "3"; Router.username := "bob" |});
                            ("inviter", {| Router.id := "2"; Router.username := "mallory" |})] |}
      {| pool := Some [ {| user_id := "2"; balance := two_tenths |} ];
         online := true; events := [] |}
    = (Fulfilled tt, w') /\
    pool w' = Some [ {| user_id := "2"; balance := two_tenths |} ].
Proof.
  destruct (@non_operator_is_rejected (Some "1") stable_order (fun _ => EmptyString)
              {| Router.isCommand := true; Router.isChatInputCommand := true;
                 Router.commandName := "unverify";
                 Router.user := {| Router.id := "2"; Router.username := "mallory" |};
                 Router.options :=
                   [("member", {| Router.id := "3"; Router.username := "bob" |});
                    ("inviter", {| Router.id := "2"; Router.username := "mallory" |})] |}
              {| pool := Some [ {| user_id := "2"; balance := two_tenths |} ];
                 online := true; events := [] |}
              ltac:(discriminate) eq_refl (or_intror eq_refl))
    as [w' [H1 [H2 _]]].
  exists w'. split; [exact H1 | exact H2].
Defined.

(* ================================================================== *)
(** * The onboarding channel name *)
(* ================================================================== *)

Section ChannelNames.

Import Provisioner.

Variable lower_non_ascii : N -> list N.

Lemma strip_allowed s : Forall (fun c => allowed c = true) (strip s).
Proof.
  unfold strip. rewrite Forall_forall. intros c Hc.
  apply filter_In in Hc. apply Hc.
Qed.

(** C9 (as the code has it).  The name of the new channel is the text
    [verify-] followed by the member's username in lower case with every
    character outside [[a-z0-9-]] removed; all its characters are in
    [[a-z0-9-]]. *)
Theorem channelName_prefixed (username : jsstring) :
  channelName lower_non_ascii username
  = of_ascii "verify-" ++ strip (toLowerCase lower_non_ascii username) /\
  Forall (fun c => allowed c = true) (channelName lower_non_ascii username).
Proof.
  split.
  - unfold channelName, toLowerCase, strip.
    rewrite flat_map_app, filter_app. reflexivity.
  - apply strip_allowed.
Qed.

End ChannelNames.

(** C9, against the sentence as the spec has it: the name is not the filtered
    lower-case username alone.  For the username "Bob" the channel is "verify-bob",
    not "bob". *)
Lemma channelName_not_bare_username :
  Provisioner.channelName (fun c => [c]) (Provisioner.of_ascii "Bob")
  = Provisioner.of_ascii "verify-bob" /\
  Provisioner.strip (Provisioner.toLowerCase (fun c => [c]) (Provisioner.of_ascii "Bob"))
  = Provisioner.of_ascii "bob" /\
  Provisioner.of_ascii "verify-bob" <> Provisioner.of_ascii "bob".
Proof. repeat split. discriminate. Qed.

(* ================================================================== *)
(** * Concurrent calls to [addBalance] *)
(* ================================================================== *)

Module InterleavingFacts.

Import Interleaving TableFacts PgFacts.

Lemma running_sum_cons prior d ds :
  running_sum prior (d :: ds)
  = running_sum (Some (match prior with Some b => add b d | None => d end)) ds.
Proof. reflexivity. Qed.

Lemma upsert_all_cons c calls t :
  upsert_all (c :: calls) t = upsert_all calls (upsert t (fst c) (snd c)).
Proof. reflexivity. Qed.

(** A row after a list of upserts holds the running sum of the amounts sent
    for its user: each one added once, in the order of the statements. *)
Lemma stored_upsert_all calls t u :
  stored (upsert_all calls t) u = running_sum (stored t u) (deltas_for u calls).
Proof.
  revert t. induction calls as [| [v d] calls IH]; intros t; [reflexivity |].
  rewrite upsert_all_cons, IH. unfold deltas_for; simpl.
  destruct (String.eqb_spec v u) as [-> | Hvu]; simpl.
  - rewrite stored_upsert_same. reflexivity.
  - rewrite stored_upsert_other by exact Hvu. reflexivity.
Qed.


Section Runs.

Variable order : table -> list row.

(** The world after the statements of [schedule] have run in that order. *)
Lemma addBalance_step c w t :
  pool w = Some t -> online w = true ->
  exists w1, Pg.addBalance order (fst c) (snd c) w = (Fulfilled tt, w1) /\
             pool w1 = Some (upsert t (fst c) (snd c)) /\ online w1 = true.
Proof.
  intros Hp Ho. rewrite (addBalance_online order (fst c) (snd c) w Hp Ho).
  eexists. split; [reflexivity | split; reflexivity].
Qed.

(** Every order of the calls is a possible run. *)
Lemma completes_schedule schedule : forall calls w t,
  Permutation schedule calls ->
  pool w = Some t -> online w = true ->
  exists w', completes order calls w w' /\ pool w' = Some (upsert_all schedule t)
             /\ online w' = true.
Proof.
  induction schedule as [| c schedule IH]; intros calls w t Hperm Hp Ho.
  - apply Permutation_nil in Hperm. subst. exists w.
    split; [constructor | split; assumption].
  - assert (Hin : In c calls) by (eapply Permutation_in; [exact Hperm | left; reflexivity]).
    apply in_split in Hin. destruct Hin as [before [after ->]].
    apply Permutation_cons_app_inv in Hperm.
    destruct (addBalance_step c w Hp Ho) as [w1 [Hrun [Hp1 Ho1]]].
    destruct (IH _ w1 _ Hperm Hp1 Ho1) as [w' [Hc [Hp' Ho']]].
    exists w'. split; [econstructor; eassumption | split; assumption].
Qed.


End Runs.

End InterleavingFacts.

(* ================================================================== *)
(** * Facts: rounding in binary64 addition *)
(* ================================================================== *)

Module RoundingFacts.

Import Exact.
Local Open Scope Z_scope.

Lemma pow2_succ k : 0 <= k -> 2 ^ (k + 1) = 2 * 2 ^ k.
Proof. intros H. replace (k + 1) with (Z.succ k) by lia. apply Z.pow_succ_r, H. Qed.

Lemma pow2_pos k : 0 <= k -> 0 < 2 ^ k.
Proof. intros H. apply Z.pow_pos_nonneg; lia. Qed.

(** The number of binary digits of a positive number. *)
Lemma digits2_pos_spec m :
  2 ^ (Zpos (digits2_pos m) - 1) <= Zpos m < 2 ^ Zpos (digits2_pos m).
Proof.
  induction m as [m IH | m IH |]; simpl digits2_pos.
  - rewrite Pos2Z.inj_succ.
    replace (Z.succ (Zpos (digits2_pos m)) - 1) with (Z.succ (Zpos (digits2_pos m) - 1)) by lia.
    rewrite !Z.pow_succ_r by lia. lia.
  - rewrite Pos2Z.inj_succ.
    replace (Z.succ (Zpos (digits2_pos m)) - 1) with (Z.succ (Zpos (digits2_pos m) - 1)) by lia.
    rewrite !Z.pow_succ_r by lia. lia.
  - simpl. lia.
Qed.

Lemma digits2_pos_unique m d :
  2 ^ (d - 1) <= Zpos m < 2 ^ d -> Zpos (digits2_pos m) = d.
Proof.
  intros [Hlo Hhi]. destruct (digits2_pos_spec m) as [Hlo' Hhi'].
  assert (0 < d).
  { destruct (Z.ltb_spec 0 d); [assumption |].
    rewrite Z.pow_neg_r in Hlo by lia.
    destruct (Z.eqb_spec d 0) as [-> | ]; [simpl in Hhi; lia |].
    rewrite Z.pow_neg_r in Hhi by lia. lia. }
  destruct (Z.lt_trichotomy (Zpos (digits2_pos m)) d) as [Hlt | [Heq | Hgt]];
    [exfalso | exact Heq | exfalso].
  - assert (2 ^ Zpos (digits2_pos m) <= 2 ^ (d - 1)) by (apply Z.pow_le_mono_r; lia). lia.
  - assert (2 ^ d <= 2 ^ (Zpos (digits2_pos m) - 1)) by (apply Z.pow_le_mono_r; lia). lia.
Qed.

(** SpecFloat's iterator is [Pos.iter]. *)
Lemma iter_pos_iter {A} (f : A -> A) p x : iter_pos f p x = Pos.iter f x p.
Proof.
  revert x. induction p as [p IH | p IH |]; intros x; simpl.
  - rewrite !IH, Pos.iter_swap. rewrite Pos.iter_swap. reflexivity.
  - rewrite !IH. reflexivity.
  - reflexivity.
Qed.

Lemma shr_nop mrs e n : n <= 0 -> shr mrs e n = (mrs, e).
Proof. destruct n; simpl; [reflexivity | lia | reflexivity]. Qed.

Lemma shr_pos mrs e p : shr mrs e (Zpos p) = (Pos.iter shr_1 mrs p, e + Zpos p).
Proof. simpl. rewrite iter_pos_iter. reflexivity. Qed.

Lemma shifted_start X : 0 <= X -> shifted X 0 (Build_shr_record X false false).
Proof.
  intros HX. split; [exact HX |]. exists 0. simpl shr_m; simpl shr_r; simpl shr_s.
  change (2 ^ (0 + 1)) with 2. change (2 ^ 0) with 1. simpl Z.b2z.
  split; [lia |]. split; [lia |].
  split; [discriminate | intros H; exfalso; apply H; reflexivity].
Qed.

Lemma shifted_step X k mrs : 0 <= k -> shifted X k mrs -> shifted X (k + 1) (shr_1 mrs).
Proof.
  intros Hk [Hm [low [Heq [Hlow Hs]]]].
  destruct mrs as [m r s]. cbn [shr_m shr_r shr_s] in *.
  assert (Hp : 0 < 2 ^ k) by (apply pow2_pos; lia).
  assert (E1 : 2 ^ (k + 1) = 2 * 2 ^ k) by (apply pow2_succ; lia).
  assert (E2 : 2 ^ (k + 1 + 1) = 4 * 2 ^ k) by (rewrite !pow2_succ by lia; lia).
  assert (Hlow0 : s = false -> low = 0).
  { intros ->. destruct (Z.eq_dec low 0); [assumption |].
    assert (false = true) by (apply Hs; assumption). discriminate. }
  assert (Hlow1 : s = true -> low <> 0) by (intros ->; apply Hs; reflexivity).
  assert (Hs' : (r || s)%bool = true <-> Z.b2z r * 2 ^ k + low <> 0).
  { destruct r, s; cbn [orb Z.b2z]; rewrite ?Z.mul_1_l, ?Z.mul_0_l;
      split; intros H; try reflexivity; try lia;
      exfalso; specialize (Hlow0 eq_refl); lia. }
  rewrite E1 in Heq.
  assert (Hb : 0 <= Z.b2z r * 2 ^ k + low < 2 * 2 ^ k).
  { destruct r; cbn [Z.b2z]; rewrite ?Z.mul_1_l, ?Z.mul_0_l; lia. }
  unfold shifted.
  destruct m as [| [p | p |] | p]; cbn [shr_1 shr_m shr_r shr_s Z.b2z]; try lia;
    (split; [lia |]); exists (Z.b2z r * 2 ^ k + low);
    rewrite E2, E1, ?Z.mul_1_l, ?Z.mul_0_l;
    (split; [lia |]); (split; [exact Hb | exact Hs']).
Qed.

Lemma shifted_iter X p :
  0 <= X -> shifted X (Zpos p) (Pos.iter shr_1 (Build_shr_record X false false) p).
Proof.
  intros HX. induction p as [| p IH] using Pos.peano_ind.
  - change (Pos.iter shr_1 (Build_shr_record X false false) 1)
      with (shr_1 (Build_shr_record X false false)).
    change (Zpos 1) with (0 + 1).
    apply shifted_step; [lia | apply shifted_start, HX].
  - rewrite Pos.iter_succ, Pos2Z.inj_succ. apply shifted_step; [lia | exact IH].
Qed.

(** Rounding to nearest, ties to even, moves the quotient by at most a half. *)
Lemma round_nearest_even_shifted X k mrs :
  0 <= k -> shifted X k mrs ->
  let m := round_nearest_even (shr_m mrs) (loc_of_shr_record mrs) in
  shr_m mrs <= m <= shr_m mrs + 1 /\
  Z.abs (2 * X - m * 2 ^ (k + 1)) <= 2 ^ k.
Proof.
  intros Hk [Hm [low [Heq [Hlow Hs]]]].
  destruct mrs as [m r s]. cbn [shr_m shr_r shr_s] in *.
  assert (Hp : 0 < 2 ^ k) by (apply pow2_pos; lia).
  assert (E1 : 2 ^ (k + 1) = 2 * 2 ^ k) by (apply pow2_succ; lia).
  rewrite E1 in *.
  assert (Hlow0 : s = false -> low = 0).
  { intros ->. destruct (Z.eq_dec low 0); [assumption |].
    assert (false = true) by (apply Hs; assumption). discriminate. }
  destruct r, s; cbn [loc_of_shr_record round_nearest_even Z.b2z] in *;
    rewrite ?Z.mul_1_l, ?Z.mul_0_l in Heq.
  - split; lia.
  - specialize (Hlow0 eq_refl). destruct (Z.even m); split; lia.
  - split; lia.
  - specialize (Hlow0 eq_refl). split; lia.
Qed.

End RoundingFacts.

Module Binary64Facts.

Import Exact RoundingFacts.
Local Open Scope Z_scope.

Lemma fexp64 e : fexp 53 1024 e = Z.max (e - 53) (-1074).
Proof. reflexivity. Qed.

(** Rounding a positive integer mantissa to 53 bits: the result is finite,
    its exponent is not below the given one, and it is within half a unit of
    the last kept place of the exact value. *)
Lemma binary_round_aux_near s mx e :
  -1074 <= e -> e <= 971 ->
  Zpos (digits2_pos mx) + e <= 1023 ->
  exists m' e',
    binary_round_aux 53 1024 s (Zpos mx) e loc_Exact = S754_finite s m' e' /\
    e + Z.max 0 (Zpos (digits2_pos mx) - 53) <= e' /\
    Z.abs (2 * Zpos mx - 2 * (Zpos m' * 2 ^ (e' - e)))
    <= 2 ^ Z.max 0 (Zpos (digits2_pos mx) - 53).
Proof.
  intros He1 He2 Hd.
  unfold binary_round_aux, shr_fexp. cbn [Zdigits2].
  rewrite fexp64. set (d := Zpos (digits2_pos mx)) in *.
  destruct (Z.le_gt_cases d 53) as [Hle | Hgt].
  - (* nothing to shift out *)
    rewrite shr_nop by lia.
    cbn [shr_record_of_loc shr_m loc_of_shr_record round_nearest_even Zdigits2].
    fold d. rewrite fexp64, shr_nop by lia.
    cbn [shr_m]. destruct (Z.leb_spec e (1024 - 53)); [| lia].
    exists mx, e. split; [reflexivity |]. split; [lia |].
    rewrite Z.sub_diag, Z.mul_1_r, Z.sub_diag, Z.max_l by lia. simpl. lia.
  - (* d - 53 bits are shifted out *)
    assert (Hn : Z.max (d + e - 53) (-1074) - e = d - 53) by lia.
    rewrite Hn.
    destruct (d - 53) as [| p |] eqn:Hp; try lia.
    rewrite shr_pos.
    cbn [shr_record_of_loc].
    pose proof (shifted_iter p (Pos2Z.is_nonneg mx)) as Hsh.
    set (mrs := Pos.iter shr_1 (Build_shr_record (Zpos mx) false false) p) in *.
    pose proof (@round_nearest_even_shifted _ _ mrs (Pos2Z.is_nonneg p) Hsh) as [Hm Herr].
    set (m2 := round_nearest_even (shr_m mrs) (loc_of_shr_record mrs)) in *.
    destruct Hsh as [Hm0 [low [Heq [Hlow _]]]].
    assert (Hk : 0 < 2 ^ Zpos p) by (apply pow2_pos; lia).
    assert (E1 : 2 ^ (Zpos p + 1) = 2 * 2 ^ Zpos p) by (apply pow2_succ; lia).
    destruct (digits2_pos_spec mx) as [Hlo Hhi]. fold d in Hlo, Hhi.
    assert (Ed : 2 ^ d = 2 ^ 53 * 2 ^ Zpos p).
    { replace d with (53 + Zpos p) by lia. apply Z.pow_add_r; lia. }
    assert (Ed1 : 2 ^ (d - 1) = 2 ^ 52 * 2 ^ Zpos p).
    { replace (d - 1) with (52 + Zpos p) by lia. apply Z.pow_add_r; lia. }
    rewrite Ed in Hhi. rewrite Ed1 in Hlo. rewrite E1 in Heq, Herr.
    assert (Hb : 0 <= Z.b2z (shr_r mrs) <= 1) by (destruct (shr_r mrs); simpl; lia).
    assert (Hm1 : 2 ^ 52 <= shr_m mrs < 2 ^ 53) by nia.
    assert (Hm2 : 2 ^ 52 <= m2 <= 2 ^ 53) by lia.
    destruct m2 as [| q |] eqn:Hq; try (simpl in Hm2; lia).
    cbn [Zdigits2].
    destruct (Z.eq_dec (Zpos q) (2 ^ 53)) as [Hc | Hc].
    + (* the rounding carried into a 54th bit *)
      assert (Hq54 : Zpos (digits2_pos q) = 54).
      { apply digits2_pos_unique. rewrite Hc. simpl. lia. }
      rewrite Hq54, fexp64.
      replace (Z.max (54 + (e + Zpos p) - 53) (-1074) - (e + Zpos p)) with 1 by lia.
      rewrite shr_pos. inversion Hc as [Hc']. subst q.
      cbn [shr_record_of_loc Pos.iter shr_1 shr_m].
      destruct (Z.leb_spec (e + Zpos p + 1) (1024 - 53)); [| lia].
      eexists _, _. split; [reflexivity |]. split; [lia |].
      replace (e + Zpos p + 1 - e) with (Zpos p + 1) by lia.
      rewrite E1. rewrite Z.max_r by lia.
      change (2 ^ 53) with (2 * 4503599627370496) in Herr. 
      replace (2 * (4503599627370496 * (2 * 2 ^ Zpos p)))
        with (2 * 4503599627370496 * (2 * 2 ^ Zpos p)) by lia.
      exact Herr.
    + assert (Hq53 : Zpos (digits2_pos q) = 53).
      { apply digits2_pos_unique. simpl (53 - 1). lia. }
      rewrite Hq53, fexp64, shr_nop by lia.
      cbn [shr_record_of_loc shr_m].
      destruct (Z.leb_spec (e + Zpos p) (1024 - 53)); [| lia].
      exists q, (e + Zpos p). split; [reflexivity |]. split; [lia |].
      replace (e + Zpos p - e) with (Zpos p) by lia.
      rewrite Z.max_r by lia.
      replace (2 * (Zpos q * 2 ^ Zpos p)) with (Zpos q * (2 * 2 ^ Zpos p)) by lia.
      exact Herr.
Qed.

Lemma pos_iter_xO m d : Zpos (Pos.iter xO m d) = Zpos m * 2 ^ Zpos d.
Proof.
  induction d as [| d IH] using Pos.peano_ind.
  - simpl. lia.
  - rewrite Pos.iter_succ, Pos2Z.inj_succ, Z.pow_succ_r by lia.
    rewrite Pos2Z.inj_xO, IH. lia.
Qed.

(** Aligning a mantissa to a smaller exponent keeps the value. *)
Lemma shl_align_value mx ex ez :
  ez <= ex ->
  snd (shl_align mx ex ez) = ez /\
  Zpos (fst (shl_align mx ex ez)) = Zpos mx * 2 ^ (ex - ez).
Proof.
  intros H. unfold shl_align.
  destruct (ez - ex) as [| p | p] eqn:E; try lia; cbn [fst snd].
  - replace (ex - ez) with 0 by lia. simpl. lia.
  - rewrite pos_iter_xO. replace (ex - ez) with (Zpos p) by lia. split; reflexivity.
Qed.

Lemma shl_align_nop mx ex ez : ex <= ez -> shl_align mx ex ez = (mx, ex).
Proof.
  intros H. unfold shl_align. destruct (ez - ex) as [| p | p] eqn:E; try lia; reflexivity.
Qed.

Lemma digits2_pos_le m B : Zpos m < 2 ^ B -> Zpos (digits2_pos m) <= B.
Proof.
  intros H. destruct (digits2_pos_spec m) as [Hlo _].
  destruct (Z.le_gt_cases (Zpos (digits2_pos m)) B) as [Hle | Hgt]; [exact Hle | exfalso].
  assert (0 <= B).
  { destruct (Z.le_gt_cases 0 B); [assumption |]. rewrite Z.pow_neg_r in H by lia. lia. }
  assert (2 ^ B <= 2 ^ (Zpos (digits2_pos m) - 1)) by (apply Z.pow_le_mono_r; lia).
  lia.
Qed.

(** [binary_round]: the same, counted in units of 2^-1074. *)
Lemma binary_round_near s mx ex :
  -1074 <= ex -> ex <= 971 ->
  Zpos (digits2_pos mx) + ex <= 1023 ->
  exists m' e',
    binary_round 53 1024 s mx ex = S754_finite s m' e' /\
    -1074 <= e' /\
    ex + (Zpos (digits2_pos mx) - 53) <= e' /\
    Z.abs (2 * (Zpos mx * 2 ^ (ex + 1074)) - 2 * (Zpos m' * 2 ^ (e' + 1074)))
    <= 2 ^ (Z.max 0 (Zpos (digits2_pos mx) - 53) + ex + 1074).
Proof.
  intros He1 He2 Hd. unfold binary_round. rewrite fexp64.
  set (d := Zpos (digits2_pos mx)) in *.
  destruct (Z.lt_ge_cases (Z.max (d + ex - 53) (-1074)) ex) as [Hlt | Hge].
  - (* fewer than 53 bits: the mantissa is shifted left, and nothing is lost *)
    set (f := Z.max (d + ex - 53) (-1074)) in *.
    destruct (shl_align_value mx (ex := ex) (ez := f)) as [E1 E2]; [lia |].
    destruct (shl_align mx ex f) as [mz ez]. cbn [fst snd] in E1, E2. subst ez.
    assert (Hdz : Zpos (digits2_pos mz) = d + (ex - f)).
    { apply digits2_pos_unique. rewrite E2.
      destruct (digits2_pos_spec mx) as [Hlo Hhi]. fold d in Hlo, Hhi.
      assert (0 < d) by (unfold d; lia).
      replace (d + (ex - f) - 1) with ((d - 1) + (ex - f)) by lia.
      rewrite !Z.pow_add_r by lia.
      assert (0 < 2 ^ (ex - f)) by (apply pow2_pos; lia). nia. }
    destruct (@binary_round_aux_near s mz f) as [m' [e' [Hr [Hfe Herr]]]]; try lia.
    exists m', e'. split; [exact Hr |]. split; [lia |]. split; [lia |].
    rewrite Hdz in Herr. rewrite Z.max_l in Herr by lia. simpl (2 ^ 0) in Herr.
    assert (Hex : Zpos mz = Zpos m' * 2 ^ (e' - f)) by lia.
    assert (Hval : Zpos mx * 2 ^ (ex + 1074) = Zpos m' * 2 ^ (e' + 1074)).
    { replace (ex + 1074) with ((ex - f) + (f + 1074)) by lia.
      rewrite Z.pow_add_r, Z.mul_assoc, <- E2, Hex by lia.
      rewrite <- Z.mul_assoc, <- Z.pow_add_r by lia. f_equal. f_equal. lia. }
    rewrite Hval, Z.sub_diag. simpl Z.abs. apply Z.pow_nonneg. lia.
  - rewrite shl_align_nop by lia.
    destruct (@binary_round_aux_near s mx ex) as [m' [e' [Hr [Hfe Herr]]]]; try lia.
    fold d in Hfe, Herr.
    exists m', e'. split; [exact Hr |]. split; [lia |]. split; [lia |].
    replace (e' + 1074) with ((e' - ex) + (ex + 1074)) by lia.
    rewrite (Z.pow_add_r 2 (e' - ex)) by lia.
    replace (2 * (Zpos mx * 2 ^ (ex + 1074))
             - 2 * (Zpos m' * (2 ^ (e' - ex) * 2 ^ (ex + 1074))))
      with ((2 * Zpos mx - 2 * (Zpos m' * 2 ^ (e' - ex))) * 2 ^ (ex + 1074)) by ring.
    assert (0 < 2 ^ (ex + 1074)) by (apply pow2_pos; lia).
    rewrite Z.abs_mul, (Z.abs_eq (2 ^ (ex + 1074))) by lia.
    replace (Z.max 0 (d - 53) + ex + 1074) with (Z.max 0 (d - 53) + (ex + 1074)) by lia.
    rewrite (Z.pow_add_r 2 (Z.max 0 (d - 53)) (ex + 1074)) by lia.
    apply Z.mul_le_mono_nonneg_r; [lia | exact Herr].
Qed.

Lemma cond_Zopp_mul s a c : cond_Zopp s a * c = cond_Zopp s (a * c).
Proof. destruct s; simpl; lia. Qed.

(** The value of a sum as the code computes it: the mantissas aligned to the
    smaller exponent and added exactly. *)
Lemma aligned_sum_value sx mx ex sy my ey :
  -1074 <= ex -> -1074 <= ey ->
  let ez := Z.min ex ey in
  (cond_Zopp sx (Zpos (fst (shl_align mx ex ez)))
   + cond_Zopp sy (Zpos (fst (shl_align my ey ez)))) * 2 ^ (ez + 1074)
  = ulps (S754_finite sx mx ex) + ulps (S754_finite sy my ey).
Proof.
  intros Hx Hy ez. unfold ulps.
  destruct (shl_align_value mx (ex := ex) (ez := ez)) as [_ E1]; [unfold ez; lia |].
  destruct (shl_align_value my (ex := ey) (ez := ez)) as [_ E2]; [unfold ez; lia |].
  rewrite E1, E2, Z.mul_add_distr_r, !cond_Zopp_mul.
  rewrite <- !Z.mul_assoc, <- !Z.pow_add_r by (unfold ez; lia).
  replace (ex - ez + (ez + 1074)) with (ex + 1074) by lia.
  replace (ey - ez + (ez + 1074)) with (ey + 1074) by lia.
  reflexivity.
Qed.

(** A finite double is a multiple of two to its exponent. *)
Lemma ulps_on_grid s m e g :
  g <= e -> 0 <= g + 1074 ->
  exists k, ulps (S754_finite s m e) = k * 2 ^ (g + 1074).
Proof.
  intros Hg H0. exists (cond_Zopp s (Zpos m * 2 ^ (e - g))).
  cbn [ulps]. rewrite cond_Zopp_mul, <- Z.mul_assoc, <- Z.pow_add_r by lia.
  f_equal. f_equal. f_equal. lia.
Qed.

Lemma digits2_pos_gt m L : 0 <= L -> 2 ^ L <= Zpos m -> L < Zpos (digits2_pos m).
Proof.
  intros H0 H. destruct (digits2_pos_spec m) as [_ Hhi].
  apply (Z.pow_lt_mono_r_iff 2); lia.
Qed.

(** Binary64 addition of two finite numbers whose exact sum is below 2^B:
    the result is zero or finite, within half a unit of the last place of the
    exact sum, and a multiple of 2^(L-52) when the exact sum is at least 2^L. *)
Lemma add_near sx mx ex sy my ey B :
  -1074 <= ex -> -1074 <= ey -> Z.min ex ey <= 971 -> B <= 1023 ->
  Z.abs (ulps (S754_finite sx mx ex) + ulps (S754_finite sy my ey)) < 2 ^ (B + 1074) ->
  in_range (add (S754_finite sx mx ex) (S754_finite sy my ey)) /\
  Z.abs (2 * (ulps (S754_finite sx mx ex) + ulps (S754_finite sy my ey))
         - 2 * ulps (add (S754_finite sx mx ex) (S754_finite sy my ey)))
  <= 2 ^ (Z.max (Z.min ex ey) (B - 53) + 1074) /\
  (forall L, -1022 <= L ->
     2 ^ (L + 1074)
     <= Z.abs (ulps (S754_finite sx mx ex) + ulps (S754_finite sy my ey)) ->
     exists k,
       ulps (add (S754_finite sx mx ex) (S754_finite sy my ey))
       = k * 2 ^ (L - 52 + 1074)).
Proof.
  intros Hx Hy Hz HB HV.
  rewrite <- (aligned_sum_value sx mx sy my Hx Hy) in *.
  unfold add, SFadd, Number.prec, Number.emax. cbv zeta.
  set (ez := Z.min ex ey) in *.
  set (M := cond_Zopp sx (Zpos (fst (shl_align mx ex ez)))
            + cond_Zopp sy (Zpos (fst (shl_align my ey ez)))) in *.
  assert (Hez : -1074 <= ez) by (unfold ez; lia).
  assert (HP : 0 < 2 ^ (ez + 1074)) by (apply pow2_pos; lia).
  assert (Hmag : forall m, Z.abs M = Zpos m -> Zpos (digits2_pos m) + ez <= B).
  { intros m Hm. rewrite Z.abs_mul, Hm, (Z.abs_eq (2 ^ (ez + 1074))) in HV by lia.
    assert (0 <= B - ez).
    { destruct (Z.le_gt_cases 0 (B - ez)); [assumption | exfalso].
      destruct (Z.le_gt_cases 0 (B + 1074)) as [H0 | H0].
      - assert (2 ^ (B + 1074) <= 2 ^ (ez + 1074)) by (apply Z.pow_le_mono_r; lia). nia.
      - rewrite (Z.pow_neg_r 2 (B + 1074)) in HV by lia. nia. }
    assert (Zpos m < 2 ^ (B - ez)).
    { replace (B + 1074) with ((B - ez) + (ez + 1074)) in HV by lia.
      rewrite (Z.pow_add_r 2 (B - ez) (ez + 1074)) in HV by lia.
      apply Z.mul_lt_mono_pos_r in HV; [exact HV | exact HP]. }
    pose proof (@digits2_pos_le m (B - ez) H0). lia. }
  assert (Hlow : forall m L, Z.abs M = Zpos m -> -1022 <= L ->
            2 ^ (L + 1074) <= Z.abs (M * 2 ^ (ez + 1074)) ->
            L - 52 <= ez + (Zpos (digits2_pos m) - 53)).
  { intros m L Hm HL H. rewrite Z.abs_mul, Hm, (Z.abs_eq (2 ^ (ez + 1074))) in H by lia.
    destruct (Z.le_gt_cases 0 (L - ez)) as [H0 | H0]; [| lia].
    replace (L + 1074) with ((L - ez) + (ez + 1074)) in H by lia.
    rewrite (Z.pow_add_r 2 (L - ez) (ez + 1074)) in H by lia.
    apply Z.mul_le_mono_pos_r in H; [| exact HP].
    pose proof (@digits2_pos_gt m (L - ez) H0 H). lia. }
  assert (Hmono : forall d, d + ez <= B ->
            2 ^ (Z.max 0 (d - 53) + ez + 1074) <= 2 ^ (Z.max ez (B - 53) + 1074)).
  { intros d Hd. apply Z.pow_le_mono_r; lia. }
  destruct M as [| m | m] eqn:EM; unfold binary_normalize.
  - split; [exact I |]. split.
    + simpl. apply Z.pow_nonneg. lia.
    + intros L HL H. simpl in H. assert (0 < 2 ^ (L + 1074)) by (apply pow2_pos; lia). lia.
  - specialize (Hmag m eq_refl).
    destruct (@binary_round_near false m ez) as [m' [e' [Hr [He' [Hg Herr]]]]]; try lia.
    rewrite Hr. split; [exact He' |]. split.
    + cbn [ulps cond_Zopp]. etransitivity; [exact Herr | apply Hmono, Hmag].
    + intros L HL H. apply ulps_on_grid; [| lia].
      pose proof (Hlow m L eq_refl HL H). lia.
  - specialize (Hmag m eq_refl).
    destruct (@binary_round_near true m ez) as [m' [e' [Hr [He' [Hg Herr]]]]]; try lia.
    rewrite Hr. split; [exact He' |]. split.
    + cbn [ulps cond_Zopp].
      etransitivity; [| apply Hmono, Hmag].
      etransitivity; [| exact Herr].
      rewrite <- Z.abs_opp. apply Z.eq_le_incl. f_equal.
      change (Z.neg m) with (- Zpos m). ring.
    + intros L HL H. apply ulps_on_grid; [| lia].
      pose proof (Hlow m L eq_refl HL H). lia.
Qed.

Lemma ulps_two_tenths : ulps two_tenths = 7205759403792794 * 2 ^ 1019.
Proof. reflexivity. Qed.

Lemma ulps_neg x : ulps (neg x) = - ulps x.
Proof. destruct x as [| | | s m e]; try reflexivity. destruct s; simpl; lia. Qed.

(** Adding 0.2 and then -0.2 to a finite double of magnitude at most 2^23 - 1
    gives a double within 2^-30 of it. *)
Lemma round_trip_near b :
  in_range b ->
  Z.abs (ulps b) <= 8388607 * 2 ^ 1074 ->
  in_range (add (add b two_tenths) (neg two_tenths)) /\
  Z.abs (ulps (add (add b two_tenths) (neg two_tenths)) - ulps b) <= 2 ^ 1044.
Proof.
  intros Hr Hb.
  assert (E74 : 2 ^ 1074 = 36028797018963968 * 2 ^ 1019) by reflexivity.
  assert (E44 : 2 ^ 1044 = 33554432 * 2 ^ 1019) by reflexivity.
  assert (E97 : 2 ^ (23 + 1074) = 302231454903657293676544 * 2 ^ 1019) by reflexivity.
  assert (HP : 0 < 2 ^ 1019) by (apply pow2_pos; lia).
  destruct b as [s0 | | | sb mb eb]; try contradiction.
  - (* a zero: 0 + 0.2 is 0.2, and 0.2 - 0.2 is 0 *)
    split; [exact I |]. rewrite E44. simpl. lia.
  - cbn [in_range] in Hr.
    destruct (@add_near sb mb eb false 7205759403792794 (-55) 23) as [Hs [Herr1 _]];
      try lia.
    { fold two_tenths. rewrite ulps_two_tenths, E97. rewrite E74 in Hb. lia. }
    fold two_tenths in Hs, Herr1.
    replace (Z.max (Z.min eb (-55)) (23 - 53) + 1074) with 1044 in Herr1 by lia.
    rewrite ulps_two_tenths in Herr1.
    set (V := ulps (S754_finite sb mb eb)) in *.
    destruct (add (S754_finite sb mb eb) two_tenths) as [s1 | | | ss ms es] eqn:Es;
      try contradiction.
    + (* the first sum is a zero *)
      change (add (S754_zero s1) (neg two_tenths)) with (neg two_tenths).
      split; [cbn; lia |].
      rewrite ulps_neg, ulps_two_tenths. cbn [ulps] in Herr1. rewrite E44 in *. lia.
    + cbn [in_range] in Hs.
      destruct (@add_near ss ms es true 7205759403792794 (-55) 23) as [Hs2 [Herr2 _]];
        try lia.
      { change (S754_finite true 7205759403792794 (-55)) with (neg two_tenths).
        rewrite ulps_neg, ulps_two_tenths, E97. rewrite E74 in Hb. rewrite E44 in Herr1.
        lia. }
      change (S754_finite true 7205759403792794 (-55)) with (neg two_tenths) in *.
      replace (Z.max (Z.min es (-55)) (23 - 53) + 1074) with 1044 in Herr2 by lia.
      rewrite ulps_neg, ulps_two_tenths in Herr2.
      split; [exact Hs2 |]. rewrite E44 in *. lia.
Qed.

(** The same for a double of magnitude between 2^23 - 1 and 2^24 - 1, where
    the two roundings are each up to 2^-30: the doubles involved are all
    multiples of 2^-30, 0.2 is not, so the first rounding is off by less than
    2^-30 and the result is at most one step of 2^-30 away. *)
Lemma round_trip_wide sb mb eb :
  -1074 <= eb ->
  Zpos mb < 2 ^ 53 ->
  8388607 * 2 ^ 1074 < Z.abs (ulps (S754_finite sb mb eb)) <= 16777215 * 2 ^ 1074 ->
  in_range (add (add (S754_finite sb mb eb) two_tenths) (neg two_tenths)) /\
  Z.abs (ulps (add (add (S754_finite sb mb eb) two_tenths) (neg two_tenths))
         - ulps (S754_finite sb mb eb)) <= 2 ^ 1044.
Proof.
  intros He Hm Hb.
  assert (E74 : 2 ^ 1074 = 36028797018963968 * 2 ^ 1019) by reflexivity.
  assert (E44 : 2 ^ 1044 = 33554432 * 2 ^ 1019) by reflexivity.
  assert (E45 : 2 ^ 1045 = 67108864 * 2 ^ 1019) by reflexivity.
  assert (E96 : 2 ^ (22 + 1074) = 151115727451828646838272 * 2 ^ 1019) by reflexivity.
  assert (E98 : 2 ^ (24 + 1074) = 604462909807314587353088 * 2 ^ 1019) by reflexivity.
  assert (HP : 0 < 2 ^ 1019) by (apply pow2_pos; lia).
  (* the stored double is a multiple of 2^-30 *)
  assert (He30 : -30 <= eb).
  { destruct (Z.le_gt_cases (-30) eb) as [H | H]; [exact H | exfalso].
    assert (2 ^ (eb + 1074) <= 2 ^ 1043) by (apply Z.pow_le_mono_r; lia).
    assert (E43 : 2 ^ 1043 = 16777216 * 2 ^ 1019) by reflexivity.
    assert (Hu : Z.abs (ulps (S754_finite sb mb eb)) = Zpos mb * 2 ^ (eb + 1074)).
    { cbn [ulps]. assert (0 < 2 ^ (eb + 1074)) by (apply pow2_pos; lia).
      destruct sb; cbn [cond_Zopp]; lia. }
    rewrite Hu, E74 in Hb. change (2 ^ 53) with 9007199254740992 in Hm.
    rewrite E43 in *. nia. }
  destruct (@ulps_on_grid sb mb eb (-30)) as [kb Hkb]; try lia.
  change (-30 + 1074) with 1044 in Hkb.
  destruct (@add_near sb mb eb false 7205759403792794 (-55) 24) as [Hs [Herr1 Hg1]];
    try lia.
  { fold two_tenths. rewrite ulps_two_tenths, E98. rewrite E74 in Hb. lia. }
  destruct (Hg1 22) as [ks Hks]; [lia | |].
  { fold two_tenths. rewrite ulps_two_tenths, E96. rewrite E74 in Hb. lia. }
  clear Hg1. fold two_tenths in Hs, Herr1, Hks.
  change (22 - 52 + 1074) with 1044 in Hks.
  replace (Z.max (Z.min eb (-55)) (24 - 53) + 1074) with 1045 in Herr1 by lia.
  rewrite ulps_two_tenths in Herr1.
  set (V := ulps (S754_finite sb mb eb)) in *.
  destruct (add (S754_finite sb mb eb) two_tenths) as [s1 | | | ss ms es] eqn:Es;
    try contradiction.
  - (* the first sum cannot be a zero *)
    exfalso. cbn [ulps] in Herr1. rewrite E74 in Hb. rewrite E45 in Herr1. lia.
  - cbn [in_range] in Hs.
    set (S := ulps (S754_finite ss ms es)) in *.
    destruct (@add_near ss ms es true 7205759403792794 (-55) 24) as [Hs2 [Herr2 Hg2]];
      try lia.
    { change (S754_finite true 7205759403792794 (-55)) with (neg two_tenths).
      fold S. rewrite ulps_neg, ulps_two_tenths, E98.
      rewrite E74 in Hb. rewrite E45 in Herr1. lia. }
    destruct (Hg2 22) as [kr Hkr]; [lia | |].
    { change (S754_finite true 7205759403792794 (-55)) with (neg two_tenths).
      fold S. rewrite ulps_neg, ulps_two_tenths, E96.
      rewrite E74 in Hb. rewrite E45 in Herr1. lia. }
    clear Hg2.
    change (S754_finite true 7205759403792794 (-55)) with (neg two_tenths) in *.
    change (22 - 52 + 1074) with 1044 in Hkr.
    replace (Z.max (Z.min es (-55)) (24 - 53) + 1074) with 1045 in Herr2 by lia.
    fold S in Herr2. rewrite ulps_neg, ulps_two_tenths in Herr2.
    split; [exact Hs2 |].
    set (R := ulps (add (S754_finite ss ms es) (neg two_tenths))) in *.
    rewrite E44 in *. rewrite E45 in *.
    set (P := 2 ^ 1019) in *.
    (* in units of P: V = 2^25 kb, S = 2^25 ks, R = 2^25 kr *)
    assert (H1 : Z.abs (2 * (33554432 * kb + 7205759403792794) - 2 * (33554432 * ks))
                 <= 67108864).
    { apply (Z.mul_le_mono_pos_r _ _ P HP).
      rewrite <- (Z.abs_eq P) at 1 by lia. rewrite <- Z.abs_mul.
      etransitivity; [| exact Herr1]. apply Z.eq_le_incl. f_equal.
      rewrite Hkb, Hks. ring. }
    assert (H2 : Z.abs (2 * (33554432 * ks - 7205759403792794) - 2 * (33554432 * kr))
                 <= 67108864).
    { apply (Z.mul_le_mono_pos_r _ _ P HP).
      rewrite <- (Z.abs_eq P) at 1 by lia. rewrite <- Z.abs_mul.
      etransitivity; [| exact Herr2]. apply Z.eq_le_incl. f_equal.
      rewrite Hkr, Hks. ring. }
    assert (H3 : Z.abs (kr - kb) <= 1) by lia.
    rewrite Hkr, Hkb.
    replace (kr * (33554432 * P) - kb * (33554432 * P))
      with ((kr - kb) * (33554432 * P)) by ring.
    rewrite Z.abs_mul, (Z.abs_eq (33554432 * P)) by lia. nia.
Qed.

(** Both ranges together: every stored double of magnitude at most 2^24 - 1. *)
Lemma round_trip_close b :
  well_formed b = true ->
  is_finite b = true ->
  Z.abs (ulps b) <= 16777215 * 2 ^ 1074 ->
  in_range (add (add b two_tenths) (neg two_tenths)) /\
  Z.abs (ulps (add (add b two_tenths) (neg two_tenths)) - ulps b) <= 2 ^ 1044.
Proof.
  intros Hwf Hfin Hb.
  destruct (Z.le_gt_cases (Z.abs (ulps b)) (8388607 * 2 ^ 1074)) as [Hsmall | Hbig].
  - apply round_trip_near; [| exact Hsmall].
    destruct b as [s | s | | s m e]; try discriminate; cbn [in_range]; [trivial |].
    unfold well_formed, valid_binary, bounded, canonical_mantissa in Hwf.
    apply andb_prop in Hwf. destruct Hwf as [H _]. apply Z.eqb_eq in H.
    rewrite fexp64 in H. lia.
  - destruct b as [s | s | | s m e]; try discriminate.
    unfold well_formed, valid_binary, bounded, canonical_mantissa in Hwf.
    apply andb_prop in Hwf. destruct Hwf as [H _]. apply Z.eqb_eq in H.
    rewrite fexp64 in H.
    apply round_trip_wide; [lia | | lia].
    destruct (digits2_pos_spec m) as [_ Hhi].
    assert (2 ^ Zpos (digits2_pos m) <= 2 ^ 53) by (apply Z.pow_le_mono_r; lia).
    lia.
Qed.

End Binary64Facts.

Module ExactFacts.

Import Exact RoundingFacts Binary64Facts.

(** [to_Q] is [ulps] divided by 2^1074. *)
Lemma to_Q_ulps x :
  in_range x -> (to_Q x == ulps x # Z.to_pos (2 ^ 1074))%Q.
Proof.
  assert (HP : (Zpos (Z.to_pos (2 ^ 1074)) = 2 ^ 1074)%Z) by reflexivity.
  destruct x as [s | s | | s m e]; simpl in_range; intros Hr; try contradiction.
  - reflexivity.
  - unfold to_Q, ulps, Qeq. cbv zeta.
    destruct (Z.leb_spec 0 e) as [He | He]; cbn [Qnum Qden inject_Z]; rewrite HP.
    + rewrite Z.mul_1_r, !cond_Zopp_mul, Z.pow_add_r by lia.
      f_equal. ring.
    + rewrite Z2Pos.id by (apply pow2_pos; lia).
      rewrite !cond_Zopp_mul. f_equal. rewrite <- Z.mul_assoc, <- Z.pow_add_r by lia.
      f_equal. f_equal. lia.
Qed.

Lemma well_formed_in_range x :
  well_formed x = true -> is_finite x = true -> in_range x.
Proof.
  destruct x as [s | s | | s m e]; simpl; try discriminate; [trivial |].
  unfold well_formed, valid_binary, bounded, canonical_mantissa. intros H _.
  apply andb_prop in H. destruct H as [H _]. apply Z.eqb_eq in H.
  rewrite fexp64 in H. lia.
Qed.

Lemma in_range_finite x : in_range x -> is_finite x = true.
Proof. destruct x; simpl; try contradiction; reflexivity. Qed.

Lemma parseFloat_in_range x : in_range x -> in_range (parseFloat x).
Proof. destruct x; simpl; trivial. Qed.

Lemma parseFloat_ulps x : ulps (parseFloat x) = ulps x.
Proof. destruct x; reflexivity. Qed.

(** Two doubles whose values differ by at most 2^1044 units of 2^-1074 differ
    by at most 10^-9. *)
Lemma close_in_Q x y :
  in_range x -> in_range y ->
  (Z.abs (ulps x - ulps y) <= 2 ^ 1044)%Z ->
  (Qabs (to_Q x - to_Q y) <= 1 # 1000000000)%Q.
Proof.
  intros Hx Hy H.
  rewrite (@to_Q_ulps x Hx), (@to_Q_ulps y Hy).
  set (P := Z.to_pos (2 ^ 1074)).
  assert (E : (Qmake (ulps x) P - Qmake (ulps y) P == Qmake (ulps x - ulps y)%Z P)%Q).
  { unfold Qminus, Qplus, Qopp, Qeq. cbn [Qnum Qden]. rewrite Pos2Z.inj_mul. ring. }
  rewrite E. unfold Qabs, Qle. cbn [Qnum Qden].
  assert (HP : (Zpos P = 1073741824 * 2 ^ 1044)%Z) by reflexivity.
  rewrite HP. assert (0 < 2 ^ 1044)%Z by (apply pow2_pos; lia). lia.
Qed.

Lemma magnitude_in_ulps x :
  in_range x -> (Qabs (to_Q x) <= 16777215)%Q ->
  (Z.abs (ulps x) <= 16777215 * 2 ^ 1074)%Z.
Proof.
  intros Hx H. rewrite (@to_Q_ulps x Hx) in H.
  unfold Qabs, Qle in H. cbn [Qnum Qden] in H.
  change (Zpos (Z.to_pos (2 ^ 1074))) with (2 ^ 1074)%Z in H. lia.
Qed.

End ExactFacts.

Section RoundTrip.

Import Exact ExactFacts Binary64Facts PgFacts TableFacts.

Variable order : table -> list row.

(** C6 (as the code has it).  With DOUBLE PRECISION storage, [addBalance(u, 0.2)]
    followed by [addBalance(u, -0.2)] brings the balance read for [u] back to
    within 10^-9 of what it was, for a user with no row and for every stored
    finite balance of magnitude at most 16777215 (2^24 - 1). *)
Theorem credit_then_debit_restores (w : world) (t : table) (u : string) :
  pool w = Some t ->
  online w = true ->
  (forall b, stored t u = Some b ->
     well_formed b = true /\ is_finite b = true /\ (Qabs (to_Q b) <= 16777215)%Q) ->
  exists r,
    fst ((Pg.addBalance order u two_tenths ;;
          Pg.addBalance order u (neg two_tenths) ;;
          Pg.getBalance order u) w) = Fulfilled r /\
    is_finite r = true /\
    (Qabs (to_Q r - to_Q (match stored t u with Some b => b | None => zero end))
     <= 1 # 1000000000)%Q.
Proof.
  intros Hp Ho Hb.
  unfold bind at 1.
  rewrite (addBalance_online order u two_tenths w Hp Ho).
  unfold bind at 1.
  erewrite addBalance_online by reflexivity.
  erewrite getBalance_online by reflexivity.
  cbn [fst]. rewrite !stored_upsert_same.
  eexists. split; [reflexivity |].
  destruct (stored t u) as [b |].
  - destruct (Hb b eq_refl) as [Hwf [Hfin Hmag]].
    pose proof (@well_formed_in_range b Hwf Hfin) as Hr.
    destruct (@round_trip_close b Hwf Hfin (@magnitude_in_ulps b Hr Hmag)) as [Hr' Hclose].
    split.
    + apply in_range_finite, parseFloat_in_range, Hr'.
    + apply close_in_Q; [apply parseFloat_in_range, Hr' | exact Hr |].
      rewrite parseFloat_ulps. exact Hclose.
  - split; [reflexivity |]. vm_compute. discriminate.
Qed.

End RoundTrip.

(** C6 at a stored balance of 0.4. *)
Lemma credit_then_debit_restores_witness :
  exists r,
    fst ((Pg.addBalance stable_order "u" two_tenths ;;
          Pg.addBalance stable_order "u" (neg two_tenths) ;;
          Pg.getBalance stable_order "u")
           {| pool := Some [ {| user_id := "u"; balance := add two_tenths two_tenths |} ];
              online := true; events := [] |}) = Fulfilled r /\
    (Qabs (to_Q r - to_Q (add two_tenths two_tenths)) <= 1 # 1000000000)%Q.
Proof.
  destruct (@credit_then_debit_restores stable_order
              {| pool := Some [ {| user_id := "u"; balance := add two_tenths two_tenths |} ];
                 online := true; events := [] |}
              [ {| user_id := "u"; balance := add two_tenths two_tenths |} ] "u"
              eq_refl eq_refl)
    as [r [H1 [_ H2]]].
  - intros b Hb. vm_compute in Hb. inversion Hb; subst b.
    split; [reflexivity |]. split; [reflexivity |]. vm_compute. discriminate.
  - exists r. split; [exact H1 | exact H2].
Defined.

(** C6, against the sentence as the spec has it: for a large stored balance
    the two roundings do not cancel to within 10^-9.  From the largest double below
    2^24 (16777215.999999998), adding 0.2 and then -0.2 gives 16777216: off
    by 2^-29, about 1.86e-9. *)
Lemma credit_then_debit_drifts :
  let b := S754_finite false 9007199254740991 (-29) in
  let w := {| pool := Some [ {| user_id := "u"; balance := b |} ];
              online := true; events := [] |} in
  well_formed b = true /\
  fst ((Pg.addBalance stable_order "u" two_tenths ;;
        Pg.addBalance stable_order "u" (neg two_tenths) ;;
        Pg.getBalance stable_order "u") w)
  = Fulfilled (S754_finite false 4503599627370496 (-28)) /\
  (to_Q (S754_finite false 4503599627370496 (-28)) - to_Q b == 1 # 536870912)%Q /\
  (1 # 1000000000 < 1 # 536870912)%Q.
Proof. intros b w. repeat split. Qed.

(* ================================================================== *)
(** * Scenarios and further properties *)
(* ================================================================== *)

Section Scenarios.

Import Router RouterFacts PgFacts TableFacts.

Variable OWNER_ID : option string.
Variable order : table -> list row.
Variable Number_toString : number -> string.

Lemma dispatch_balance i :
  isCommand i || isChatInputCommand i = true ->
  commandName i = "balance" ->
  interactionCreate OWNER_ID order Number_toString i = on_balance order Number_toString i.
Proof.
  intros Hc Hn. unfold interactionCreate. rewrite Hn.
  destruct (isCommand i), (isChatInputCommand i); try discriminate; reflexivity.
Qed.

(** The [balance] command with a database that answers: a private
    acknowledgement, one SELECT, the balance with two decimals. *)
Lemma on_balance_online (i : interaction) (w : world) (t : table) :
  pool w = Some t ->
  online w = true ->
  on_balance order Number_toString i w
  = (Fulfilled tt,
     {| pool := Some t; online := true;
        events := events w
                  ++ [DeferReply true;
                      PoolQuery (SelectBalance (id (user i)));
                      EditReply (balance_text Number_toString
                                   (match stored t (id (user i)) with
                                    | Some b => parseFloat b
                                    | None => zero
                                    end))] |}).
Proof.
  intros Hp Ho. unfold on_balance.
  unfold bind, try_catch, deferReply, editReply, emit, modify, Router.getBalance.
  rewrite (@getBalance_online order (id (user i)) (logged (DeferReply true) w) t Hp Ho).
  unfold logged; simpl. rewrite Hp, Ho, <- !app_assoc. reflexivity.
Qed.

(** The [balance] command with a database that does not answer: the error is
    caught, logged, and reported in general terms. *)
Lemma on_balance_offline (i : interaction) (w : world) (t : table) :
  pool w = Some t ->
  online w = false ->
  on_balance order Number_toString i w
  = (Fulfilled tt,
     {| pool := Some t; online := false;
        events := events w
                  ++ [DeferReply true;
                      PoolQuery (SelectBalance (id (user i)));
                      ConsoleError "Balance error:";
                      EditReply "Error retrieving your balance."] |}).
Proof.
  intros Hp Ho. unfold on_balance.
  unfold bind, try_catch, deferReply, editReply, console_error, emit, modify,
    Router.getBalance.
  rewrite (@getBalance_offline order (id (user i)) (logged (DeferReply true) w) t Hp Ho).
  unfold logged; simpl. rewrite Hp, Ho, <- !app_assoc. reflexivity.
Qed.

(** X1.  The operator verifies an inviter who has no row yet; the inviter then
    asks for the balance and is told 0.20, privately. *)
Theorem verify_then_balance (iv ib : interaction) (w : world) (t : table)
    (member inviter : User) :
  OWNER_ID = Some (id (user iv)) ->
  isCommand iv || isChatInputCommand iv = true ->
  commandName iv = "verify" ->
  getUser iv "member" = Some member ->
  getUser iv "inviter" = Some inviter ->
  isCommand ib || isChatInputCommand ib = true ->
  commandName ib = "balance" ->
  id (user ib) = id inviter ->
  pool w = Some t ->
  online w = true ->
  stored t (id inviter) = None ->
  (interactionCreate OWNER_ID order Number_toString iv ;;
   interactionCreate OWNER_ID order Number_toString ib) w
  = (Fulfilled tt,
     {| pool := Some (upsert t (id inviter) two_tenths); online := true;
        events := events w
                  ++ [DeferReply false;
                      PoolQuery (UpsertBalance (id inviter) two_tenths);
                      EditReply (verified_text member inviter);
                      DeferReply true;
                      PoolQuery (SelectBalance (id inviter));
                      EditReply "💰 Your current balance is **0.20**"] |}).
Proof.
  intros Hown Hcv Hnv Hm Hi Hcb Hnb Hid Hp Ho Hnone.
  assert (Hno : not_owner OWNER_ID iv = false).
  { destruct (not_owner OWNER_ID iv) eqn:E; [| reflexivity].
    apply not_owner_iff in E. contradiction. }
  unfold bind at 1.
  rewrite (dispatch_verify _ _ _ _ Hcv Hnv).
  rewrite (@on_verify_online OWNER_ID order iv w member inviter t Hno Hm Hi Hp Ho).
  rewrite (dispatch_balance ib Hcb Hnb).
  erewrite on_balance_online by reflexivity.
  cbn [events]. rewrite Hid, stored_upsert_same, Hnone, <- !app_assoc.
  reflexivity.
Qed.

(** X2.  When the database does not answer, the operator's [verify] is
    answered with the general error message, the failure is logged, and the
    table is what it was. *)
Theorem verify_reports_store_failure (i : interaction) (w : world) (t : table)
    (member inviter : User) :
  OWNER_ID = Some (id (user i)) ->
  isCommand i || isChatInputCommand i = true ->
  commandName i = "verify" ->
  getUser i "member" = Some member ->
  getUser i "inviter" = Some inviter ->
  pool w = Some t ->
  online w = false ->
  interactionCreate OWNER_ID order Number_toString i w
  = (Fulfilled tt,
     {| pool := Some t; online := false;
        events := events w
                  ++ [DeferReply false;
                      PoolQuery (UpsertBalance (id inviter) two_tenths);
                      ConsoleError "Verify error:";
                      EditReply "Error updating balance."] |}).
Proof.
  intros Hown Hc Hn Hm Hi Hp Ho.
  assert (Hno : not_owner OWNER_ID i = false).
  { destruct (not_owner OWNER_ID i) eqn:E; [| reflexivity].
    apply not_owner_iff in E. contradiction. }
  rewrite (dispatch_verify _ _ _ _ Hc Hn).
  apply (@on_verify_offline OWNER_ID order i w member inviter t); assumption.
Qed.

(** X3.  The [balance] command never lets a store failure escape: with a
    database that does not answer it still settles normally, after telling the
    invoker that the balance could not be retrieved. *)
Theorem balance_reports_store_failure (i : interaction) (w : world) (t : table) :
  isCommand i || isChatInputCommand i = true ->
  commandName i = "balance" ->
  pool w = Some t ->
  online w = false ->
  interactionCreate OWNER_ID order Number_toString i w
  = (Fulfilled tt,
     {| pool := Some t; online := false;
        events := events w
                  ++ [DeferReply true;
                      PoolQuery (SelectBalance (id (user i)));
                      ConsoleError "Balance error:";
                      EditReply "Error retrieving your balance."] |}).
Proof.
  intros Hc Hn Hp Ho. rewrite (dispatch_balance i Hc Hn).
  apply on_balance_offline; assumption.
Qed.

End Scenarios.

(** X1 for the operator "1" verifying that "bob" was invited by "alice". *)
Lemma verify_then_balance_witness :
  fst ((Router.interactionCreate (Some "1") stable_order (fun _ => EmptyString)
          {| Router.isCommand := true; Router.isChatInputCommand := true;
             Router.commandName := "verify";
             Router.user := {| Router.id := "1"; Router.username := "owner" |};
             Router.options :=
               [("member", {| Router.id := "3"; Router.username := "bob" |});
                ("inviter", {| Router.id := "2"; Router.username := "alice" |})] |} ;;
        Router.interactionCreate (Some "1") stable_order (fun _ => EmptyString)
          {| Router.isCommand := true; Router.isChatInputCommand := true;
             Router.commandName := "balance";
             Router.user := {| Router.id := "2"; Router.username := "alice" |};
             Router.options := [] |})
         {| pool := Some []; online := true; events := [] |})
  = Fulfilled tt.
Proof.
  exact (f_equal fst
    (@verify_then_balance (Some "1") stable_order (fun _ => EmptyString)
       {| Router.isCommand := true; Router.isChatInputCommand := true;
          Router.commandName := "verify";
          Router.user := {| Router.id := "1"; Router.username := "owner" |};
          Router.options :=
            [("member", {| Router.id := "3"; Router.username := "bob" |});
             ("inviter", {| Router.id := "2"; Router.username := "alice" |})] |}
       {| Router.isCommand := true; Router.isChatInputCommand := true;
          Router.commandName := "balance";
          Router.user := {| Router.id := "2"; Router.username := "alice" |};
          Router.options := [] |}
       {| pool := Some []; online := true; events := [] |} []
       {| Router.id := "3"; Router.username := "bob" |}
       {| Router.id := "2"; Router.username := "alice" |}
       eq_refl eq_refl eq_refl eq_refl eq_refl eq_refl eq_refl eq_refl eq_refl eq_refl
       eq_refl)).
Defined.

(** X2 for the operator "1" while the database is down. *)
Lemma verify_reports_store_failure_witness :
  snd (Router.interactionCreate (Some "1") stable_order (fun _ => EmptyString)
         {| Router.isCommand := true; Router.isChatInputCommand := true;
            Router.commandName := "verify";
            Router.user := {| Router.id := "1"; Router.username := "owner" |};
            Router.options :=
              [("member", {| Router.id := "3"; Router.username := "bob" |});
               ("inviter", {| Router.id := "2"; Router.username := "alice" |})] |}
         {| pool := Some []; online := false; events := [] |})
  = {| pool := Some []; online := false;
       events := [DeferReply false;
                  PoolQuery (UpsertBalance "2" two_tenths);
                  ConsoleError "Verify error:";
                  EditReply "Error updating balance."] |}.
Proof.
  exact (f_equal snd
    (@verify_reports_store_failure (Some "1") stable_order (fun _ => EmptyString)
       {| Router.isCommand := true; Router.isChatInputCommand := true;
          Router.commandName := "verify";
          Router.user := {| Router.id := "1"; Router.username := "owner" |};
          Router.options :=
            [("member", {| Router.id := "3"; Router.username := "bob" |});
             ("inviter", {| Router.id := "2"; Router.username := "alice" |})] |}
       {| pool := Some []; online := false; events := [] |} []
       {| Router.id := "3"; Router.username := "bob" |}
       {| Router.id := "2"; Router.username := "alice" |}
       eq_refl eq_refl eq_refl eq_refl eq_refl eq_refl eq_refl)).
Defined.

(** X3 for a user asking for a balance while the database is down. *)
Lemma balance_reports_store_failure_witness :
  fst (Router.interactionCreate None stable_order (fun _ => EmptyString)
         {| Router.isCommand := true; Router.isChatInputCommand := true;
            Router.commandName := "balance";
            Router.user := {| Router.id := "2"; Router.username := "alice" |};
            Router.options := [] |}
         {| pool := Some []; online := false; events := [] |})
  = Fulfilled tt.
Proof.
  exact (f_equal fst
    (@balance_reports_store_failure None stable_order (fun _ => EmptyString)
       {| Router.isCommand := true; Router.isChatInputCommand := true;
          Router.commandName := "balance";
          Router.user := {| Router.id := "2"; Router.username := "alice" |};
          Router.options := [] |}
       {| pool := Some []; online := false; events := [] |} []
       eq_refl eq_refl eq_refl eq_refl)).
Defined.

Section Invariants.

Import PgFacts TableFacts.

Variable order : table -> list row.

Lemma keys_upsert_incl t u d v : In v (keys t) -> In v (keys (upsert t u d)).
Proof.
  intros H. rewrite keys_upsert.
  destruct (existsb (String.eqb u) (keys t)); [exact H | apply in_or_app; left; exact H].
Qed.

(** X4.  The data model's invariants.  Whether or not the database answers,
    [addBalance] keeps the user ids distinct, removes no row and leaves every
    other user's balance alone; [getBalance] and [getLeaderboard] leave the
    table exactly as it was (a read never creates a row). *)
Theorem ledger_invariants (w : world) (t : table) (u : string) (d : number)
    (limit : nat) :
  pool w = Some t ->
  NoDup (keys t) ->
  (exists t',
      pool (snd (Pg.addBalance order u d w)) = Some t' /\
      NoDup (keys t') /\
      (forall v, In v (keys t) -> In v (keys t')) /\
      (forall v, v <> u -> stored t' v = stored t v)) /\
  pool (snd (Pg.getBalance order u w)) = Some t /\
  pool (snd (Pg.getLeaderboard order (Some limit) w)) = Some t.
Proof.
  intros Hp Hnd. destruct (online w) eqn:Ho.
  - rewrite (addBalance_online order u d w Hp Ho),
      (getBalance_online order u w Hp Ho), (getLeaderboard_online order limit w Hp Ho).
    cbn [snd pool logged]. split; [| split; exact Hp].
    exists (upsert t u d). split; [reflexivity |].
    split; [apply upsert_NoDup, Hnd |].
    split; [intros v; apply keys_upsert_incl |].
    intros v Hv. apply stored_upsert_other. congruence.
  - rewrite (addBalance_offline order u d w Hp Ho),
      (getBalance_offline order u w Hp Ho), (getLeaderboard_offline order limit w Hp Ho).
    cbn [snd pool logged]. split; [| split; exact Hp].
    exists t. repeat split; auto.
Qed.

End Invariants.

(** X4 at a table with one row, crediting another user. *)
Lemma ledger_invariants_witness :
  pool (snd (Pg.getBalance stable_order "2"
               {| pool := Some [ {| user_id := "1"; balance := two_tenths |} ];
                  online := true; events := [] |}))
  = Some [ {| user_id := "1"; balance := two_tenths |} ].
Proof.
  exact (proj1 (proj2
    (@ledger_invariants stable_order
       {| pool := Some [ {| user_id := "1"; balance := two_tenths |} ];
          online := true; events := [] |}
       [ {| user_id := "1"; balance := two_tenths |} ] "2" two_tenths 15
       eq_refl
       (NoDup_cons "1" (@in_nil string "1") (NoDup_nil string))))).
Defined.

(* ================================================================== *)
(** * The command handler in every state of the store *)
(* ================================================================== *)

Module HandlerFacts.

Import Router RouterFacts Trace.

(** Run a handler at a world whose pool and connectivity have been split
    into cases. *)
Ltac run_handler :=
  unfold on_balance, on_verify, on_unverify, on_leaderboard,
    Router.getBalance, Router.addBalance, Router.getLeaderboard,
    Pg.getBalance, Pg.addBalance, Pg.getLeaderboard, Pg.pool_query,
    deferReply, editReply, reply, console_error, emit,
    bind, try_catch, gets, modify, deref, ret, throw, logged, run;
  cbn [pool online events fst snd].

(** Close a goal that asks for the world a handler leaves and for its new
    events. *)
Ltac answered :=
  do 3 eexists; split; [reflexivity |];
  cbn [pool online events]; rewrite <- ?app_assoc; cbn [app];
  repeat split; reflexivity.

Lemma not_owner_false OWNER_ID i :
  not_owner OWNER_ID i = false -> OWNER_ID = Some (id (user i)).
Proof.
  unfold not_owner. destruct OWNER_ID as [o |]; [| discriminate].
  destruct (String.eqb_spec (id (user i)) o) as [E | E]; [| discriminate].
  intros _. rewrite E. reflexivity.
Qed.

Lemma is_owner OWNER_ID i :
  OWNER_ID = Some (id (user i)) -> not_owner OWNER_ID i = false.
Proof. intros ->. unfold not_owner. rewrite String.eqb_refl. reflexivity. Qed.

(** Not a command, or a command under a name that was not registered: the
    handler returns at once. *)
Lemma dispatch_none OWNER_ID order NT i :
  isCommand i || isChatInputCommand i = false
  \/ ~ In (commandName i) (map Schema.name Schema.commands) ->
  interactionCreate OWNER_ID order NT i = ret tt.
Proof.
  unfold interactionCreate. intros [H | H].
  - destruct (isCommand i), (isChatInputCommand i); try discriminate; reflexivity.
  - destruct (negb (isCommand i) && negb (isChatInputCommand i)); [reflexivity |].
    cbn in H.
    destruct (String.eqb_spec (commandName i) "balance"); [exfalso; apply H; auto |].
    destruct (String.eqb_spec (commandName i) "verify"); [exfalso; apply H; auto |].
    destruct (String.eqb_spec (commandName i) "unverify"); [exfalso; apply H; auto |].
    destruct (String.eqb_spec (commandName i) "leaderboard"); [exfalso; apply H; auto 6 |].
    reflexivity.
Qed.

Section Answered.

Variable OWNER_ID : option string.
Variable order : table -> list row.
Variable Number_toString : number -> string.

(** A registered command leaves at least one event, in every state of the
    store. *)
Lemma handler_reacts (i : interaction) (w : world) :
  isCommand i || isChatInputCommand i = true ->
  In (commandName i) (map Schema.name Schema.commands) ->
  exists w' e rest,
    interactionCreate OWNER_ID order Number_toString i w = (Fulfilled tt, w') /\
    events w' = events w ++ e :: rest.
Proof.
  intros Hc Hin. cbn in Hin.
  destruct Hin as [H | [H | [H | [H | []]]]]; symmetry in H.
  - rewrite (@dispatch_balance OWNER_ID order Number_toString i Hc H).
    destruct w as [[t |] [|] ev]; run_handler; answered.
  - rewrite (dispatch_verify _ _ _ _ Hc H). unfold on_verify.
    destruct (not_owner OWNER_ID i), (getUser i "inviter"), (getUser i "member"),
      w as [[t |] [|] ev]; run_handler; answered.
  - rewrite (dispatch_unverify _ _ _ _ Hc H). unfold on_unverify.
    destruct (not_owner OWNER_ID i), (getUser i "inviter"), (getUser i "member"),
      w as [[t |] [|] ev]; run_handler; answered.
  - rewrite (dispatch_leaderboard _ _ _ _ Hc H).
    destruct w as [[t |] [|] ev]; run_handler;
      try destruct (firstn 15 (order t)); answered.
Qed.

End Answered.

End HandlerFacts.

Section Answers.

Import Router RouterFacts HandlerFacts Trace.

Variable OWNER_ID : option string.
Variable order : table -> list row.
Variable Number_toString : number -> string.

(** X5.  Whatever the store does (no pool, a database that answers, one that
    does not) and whichever options the invocation carries, each of the four
    registered commands settles normally; the first thing it does is to
    acknowledge ([deferReply]) or to reject ([reply]), so no statement is sent
    before the acknowledgement; and it sends exactly one message text. *)
Theorem every_command_is_answered (i : interaction) (w : world) :
  isCommand i || isChatInputCommand i = true ->
  In (commandName i) (map Schema.name Schema.commands) ->
  exists w' ack rest,
    interactionCreate OWNER_ID order Number_toString i w = (Fulfilled tt, w') /\
    events w' = events w ++ ack :: rest /\
    is_ack ack = true /\
    List.length (filter is_content (ack :: rest)) = 1 /\
    online w' = online w.
Proof.
  intros Hc Hin. cbn in Hin.
  destruct Hin as [H | [H | [H | [H | []]]]]; symmetry in H.
  - rewrite (@dispatch_balance OWNER_ID order Number_toString i Hc H).
    destruct w as [[t |] [|] ev]; run_handler; answered.
  - rewrite (dispatch_verify _ _ _ _ Hc H). unfold on_verify.
    destruct (not_owner OWNER_ID i), (getUser i "inviter"), (getUser i "member"),
      w as [[t |] [|] ev]; run_handler; answered.
  - rewrite (dispatch_unverify _ _ _ _ Hc H). unfold on_unverify.
    destruct (not_owner OWNER_ID i), (getUser i "inviter"), (getUser i "member"),
      w as [[t |] [|] ev]; run_handler; answered.
  - rewrite (dispatch_leaderboard _ _ _ _ Hc H).
    destruct w as [[t |] [|] ev]; run_handler;
      try destruct (firstn 15 (order t)); answered.
Qed.

(** X6.  The handler reacts to the registered commands and to nothing else:
    an interaction leaves the world untouched exactly when it is not a
    command or its name is not one of the four in [commands]. *)
Theorem only_registered_commands_are_handled (i : interaction) (w : world) :
  interactionCreate OWNER_ID order Number_toString i w = (Fulfilled tt, w)
  <-> (isCommand i || isChatInputCommand i = false
       \/ ~ In (commandName i) (map Schema.name Schema.commands)).
Proof.
  split.
  - intros Hrun.
    destruct (isCommand i || isChatInputCommand i) eqn:Hc; [| left; reflexivity].
    right. intros Hin.
    destruct (handler_reacts OWNER_ID order Number_toString i w Hc Hin)
      as [w' [e [rest [Hrun' Hev]]]].
    rewrite Hrun in Hrun'. inversion Hrun'; subst w'.
    apply (f_equal (@List.length event)) in Hev.
    rewrite length_app in Hev. cbn in Hev. lia.
  - intros H. rewrite (dispatch_none OWNER_ID order Number_toString i H). reflexivity.
Qed.

(** X7.  Every change a command makes to the table is the operator's: the
    pool after an interaction is the pool before it, unless the invoker is the
    operator, the command is [verify] or [unverify], the inviter option is
    present and the database answers, and then the one change is the upsert of
    0.2 or -0.2 on the inviter's row. *)
Theorem store_changes_only_by_operator (i : interaction) (w : world) :
  pool (snd (interactionCreate OWNER_ID order Number_toString i w)) = pool w
  \/ exists t inviter,
       OWNER_ID = Some (id (user i)) /\
       pool w = Some t /\
       online w = true /\
       getUser i "inviter" = Some inviter /\
       ((commandName i = "verify" /\
         pool (snd (interactionCreate OWNER_ID order Number_toString i w))
         = Some (upsert t (id inviter) two_tenths))
        \/ (commandName i = "unverify" /\
            pool (snd (interactionCreate OWNER_ID order Number_toString i w))
            = Some (upsert t (id inviter) (neg two_tenths)))).
Proof.
  unfold interactionCreate.
  destruct (negb (isCommand i) && negb (isChatInputCommand i)); [left; reflexivity |].
  destruct (String.eqb_spec (commandName i) "balance") as [Eb | Eb].
  { left. destruct w as [[t |] [|] ev]; run_handler; reflexivity. }
  destruct (String.eqb_spec (commandName i) "verify") as [Ev | Ev].
  { unfold on_verify.
    destruct (not_owner OWNER_ID i) eqn:Eo; [left; reflexivity |].
    apply not_owner_false in Eo.
    destruct (getUser i "inviter") as [inviter |] eqn:Ei, (getUser i "member"),
      w as [[t |] [|] ev]; run_handler; try (left; reflexivity);
      right; exists t, inviter;
      (split; [exact Eo |]); (split; [reflexivity |]); (split; [reflexivity |]);
      (split; [reflexivity |]); left; (split; [exact Ev | reflexivity]). }
  destruct (String.eqb_spec (commandName i) "unverify") as [Eu | Eu].
  { unfold on_unverify.
    destruct (not_owner OWNER_ID i) eqn:Eo; [left; reflexivity |].
    apply not_owner_false in Eo.
    destruct (getUser i "inviter") as [inviter |] eqn:Ei, (getUser i "member"),
      w as [[t |] [|] ev]; run_handler; try (left; reflexivity);
      right; exists t, inviter;
      (split; [exact Eo |]); (split; [reflexivity |]); (split; [reflexivity |]);
      (split; [reflexivity |]); right; (split; [exact Eu | reflexivity]). }
  destruct (String.eqb_spec (commandName i) "leaderboard") as [El | El];
    [| left; reflexivity].
  left. destruct w as [[t |] [|] ev]; run_handler;
    try destruct (firstn 15 (order t)); reflexivity.
Qed.

(** X8.  The operator's [verify] or [unverify] without an inviter option:
    reading [inviter.id] throws inside the [try], so no statement is sent, the
    store is what it was (whatever state it is in), the failure is logged and
    the reply is the general error message. *)
Theorem verify_without_inviter (i : interaction) (w : world) :
  OWNER_ID = Some (id (user i)) ->
  isCommand i || isChatInputCommand i = true ->
  getUser i "inviter" = None ->
  (commandName i = "verify" ->
   interactionCreate OWNER_ID order Number_toString i w
   = (Fulfilled tt,
      {| pool := pool w; online := online w;
         events := events w ++ [DeferReply false;
                                ConsoleError "Verify error:";
                                EditReply "Error updating balance."] |})) /\
  (commandName i = "unverify" ->
   interactionCreate OWNER_ID order Number_toString i w
   = (Fulfilled tt,
      {| pool := pool w; online := online w;
         events := events w ++ [DeferReply false;
                                ConsoleError "Unverify error:";
                                EditReply "Error updating balance."] |})).
Proof.
  intros Hown Hc Hi. apply is_owner in Hown.
  split; intros Hn.
  - rewrite (dispatch_verify _ _ _ _ Hc Hn). unfold on_verify. rewrite Hown, Hi.
    run_handler. rewrite <- !app_assoc. reflexivity.
  - rewrite (dispatch_unverify _ _ _ _ Hc Hn). unfold on_unverify. rewrite Hown, Hi.
    run_handler. rewrite <- !app_assoc. reflexivity.
Qed.

(** X9.  The operator's [verify] or [unverify] with an inviter but without a
    member option, on a database that answers: the statement has already run
    when [member.username] throws, so the inviter's row is changed and the
    reply nevertheless says that the balance could not be updated. *)
Theorem verify_without_member (i : interaction) (w : world) (t : table) (inviter : User) :
  OWNER_ID = Some (id (user i)) ->
  isCommand i || isChatInputCommand i = true ->
  getUser i "inviter" = Some inviter ->
  getUser i "member" = None ->
  pool w = Some t ->
  online w = true ->
  (commandName i = "verify" ->
   interactionCreate OWNER_ID order Number_toString i w
   = (Fulfilled tt,
      {| pool := Some (upsert t (id inviter) two_tenths); online := true;
         events := events w ++ [DeferReply false;
                                PoolQuery (UpsertBalance (id inviter) two_tenths);
                                ConsoleError "Verify error:";
                                EditReply "Error updating balance."] |})) /\
  (commandName i = "unverify" ->
   interactionCreate OWNER_ID order Number_toString i w
   = (Fulfilled tt,
      {| pool := Some (upsert t (id inviter) (neg two_tenths)); online := true;
         events := events w ++ [DeferReply false;
                                PoolQuery (UpsertBalance (id inviter) (neg two_tenths));
                                ConsoleError "Unverify error:";
                                EditReply "Error updating balance."] |})).
Proof.
  intros Hown Hc Hi Hm Hp Ho. apply is_owner in Hown.
  destruct w as [p o ev]. cbn in Hp, Ho. subst p o.
  split; intros Hn.
  - rewrite (dispatch_verify _ _ _ _ Hc Hn). unfold on_verify. rewrite Hown, Hi, Hm.
    run_handler. rewrite <- !app_assoc. reflexivity.
  - rewrite (dispatch_unverify _ _ _ _ Hc Hn). unfold on_unverify. rewrite Hown, Hi, Hm.
    run_handler. rewrite <- !app_assoc. reflexivity.
Qed.

(** X10.  An invocation that carries the options its registered command
    requires never takes the error path unless the database fails: without a
    pool, or with a database that answers, it settles normally and nothing is
    written with [console.error]. *)
Theorem conforming_invocation_logs_no_error (i : interaction) (w : world)
    (c : Schema.command) :
  isCommand i || isChatInputCommand i = true ->
  In c Schema.commands ->
  Schema.conforms i c ->
  pool w = None \/ online w = true ->
  exists w',
    interactionCreate OWNER_ID order Number_toString i w = (Fulfilled tt, w') /\
    filter is_console_error (events w') = filter is_console_error (events w).
Proof.
  intros Hc Hin [Hn Hopts] Hstore.
  assert (Hfilter : forall ev new,
             filter is_console_error new = [] ->
             filter is_console_error (ev ++ new) = filter is_console_error ev).
  { intros ev new H. rewrite filter_app, H. apply app_nil_r. }
  cbn in Hin. destruct Hin as [<- | [<- | [<- | [<- | []]]]]; cbn in Hn, Hopts.
  - rewrite (@dispatch_balance OWNER_ID order Number_toString i Hc Hn).
    destruct w as [[t |] [|] ev]; cbn in Hstore;
      try (destruct Hstore; discriminate);
      run_handler; eexists; (split; [reflexivity |]);
      cbn [events]; rewrite <- ?app_assoc; apply Hfilter; reflexivity.
  - rewrite (dispatch_verify _ _ _ _ Hc Hn). unfold on_verify.
    destruct (Hopts _ (or_introl eq_refl) eq_refl) as [member Hm].
    destruct (Hopts _ (or_intror (or_introl eq_refl)) eq_refl) as [inviter Hi].
    cbn in Hm, Hi. rewrite Hm, Hi.
    destruct (not_owner OWNER_ID i), w as [[t |] [|] ev]; cbn in Hstore;
      try (destruct Hstore; discriminate);
      run_handler; eexists; (split; [reflexivity |]);
      cbn [events]; rewrite <- ?app_assoc; apply Hfilter; reflexivity.
  - rewrite (dispatch_unverify _ _ _ _ Hc Hn). unfold on_unverify.
    destruct (Hopts _ (or_introl eq_refl) eq_refl) as [member Hm].
    destruct (Hopts _ (or_intror (or_introl eq_refl)) eq_refl) as [inviter Hi].
    cbn in Hm, Hi. rewrite Hm, Hi.
    destruct (not_owner OWNER_ID i), w as [[t |] [|] ev]; cbn in Hstore;
      try (destruct Hstore; discriminate);
      run_handler; eexists; (split; [reflexivity |]);
      cbn [events]; rewrite <- ?app_assoc; apply Hfilter; reflexivity.
  - rewrite (dispatch_leaderboard _ _ _ _ Hc Hn).
    destruct w as [[t |] [|] ev]; cbn in Hstore;
      try (destruct Hstore; discriminate);
      run_handler; try destruct (firstn 15 (order t));
      eexists; (split; [reflexivity |]);
      cbn [events]; rewrite <- ?app_assoc; apply Hfilter; reflexivity.
Qed.

End Answers.

(* ================================================================== *)
(** * Sequences of commands *)
(* ================================================================== *)

Module SequenceFacts.

Import Router RouterFacts HandlerFacts Trace PgFacts TableFacts Interleaving InterleavingFacts.

Lemma deltas_for_repeat u d n : deltas_for u (repeat (u, d) n) = repeat d n.
Proof.
  unfold deltas_for. induction n as [| n IH]; simpl; [reflexivity |].
  rewrite String.eqb_refl. simpl. f_equal. exact IH.
Qed.

Lemma running_sum_snoc prior ds d :
  running_sum prior (ds ++ [d])
  = Some (match running_sum prior ds with Some b => add b d | None => d end).
Proof. unfold running_sum. rewrite fold_left_app. reflexivity. Qed.

Lemma repeat_snoc {A} (a : A) n : repeat a (S n) = repeat a n ++ [a].
Proof. induction n as [| n IH]; simpl; [reflexivity |]. f_equal. exact IH. Qed.

Section Verifies.

Variable OWNER_ID : option string.
Variable order : table -> list row.
Variable Number_toString : number -> string.

(** [k] verifications of the same inviter by the operator, the database
    answering: [k] upserts of 0.2. *)
Lemma times_verify (op member inviter : User) (k : nat) : forall (w : world) (t : table),
  OWNER_ID = Some (id op) ->
  pool w = Some t ->
  online w = true ->
  exists w',
    times k (interactionCreate OWNER_ID order Number_toString
               (Schema.invocation "verify" op [("member", member); ("inviter", inviter)])) w
    = (Fulfilled tt, w') /\
    pool w' = Some (upsert_all (repeat (id inviter, two_tenths) k) t) /\
    online w' = true.
Proof.
  induction k as [| k IH]; intros w t Hown Hp Ho.
  - exists w. repeat split; assumption.
  - cbn [times]. unfold bind at 1.
    set (iv := Schema.invocation "verify" op [("member", member); ("inviter", inviter)]) in *.
    rewrite (@dispatch_verify OWNER_ID order Number_toString iv eq_refl eq_refl).
    rewrite (@on_verify_online OWNER_ID order iv w member inviter t
               (@is_owner OWNER_ID iv Hown) eq_refl eq_refl Hp Ho).
    match goal with
    | |- context [times k _ ?w1] =>
        destruct (IH w1 (upsert t (id inviter) two_tenths) Hown eq_refl eq_refl)
          as [w' [Hrun [Hp' Ho']]]
    end.
    exists w'. split; [exact Hrun |]. split; [| exact Ho'].
    rewrite Hp'. reflexivity.
Qed.

End Verifies.

End SequenceFacts.

(* ================================================================== *)
(** * Facts: [toFixed(2)] on exact values *)
(* ================================================================== *)

Module CreditFacts.

Import Exact RoundingFacts Binary64Facts ExactFacts Interleaving SequenceFacts.
Local Open Scope Z_scope.

(** [toFixed(2)] rounds the value counted in units of 2^-1074. *)
Lemma hundredths_ulps m e :
  -1074 <= e ->
  hundredths m e = (200 * (Zpos m * 2 ^ (e + 1074)) + 2 ^ 1074) / (2 * 2 ^ 1074).
Proof.
  intros He. unfold hundredths.
  assert (HT : 0 < 2 ^ 1074) by (apply pow2_pos; lia).
  destruct (Z.leb_spec 0 e) as [H | H].
  - rewrite Z.pow_add_r by lia.
    replace (200 * (Zpos m * (2 ^ e * 2 ^ 1074)) + 2 ^ 1074)
      with ((2 * (100 * Zpos m * 2 ^ e) + 1) * 2 ^ 1074) by ring.
    rewrite Z.div_mul_cancel_r by lia.
    apply Z.div_unique with (r := 1); lia.
  - assert (HG : 0 < 2 ^ (e + 1074)) by (apply pow2_pos; lia).
    assert (HN : 0 < 2 ^ (- e)) by (apply pow2_pos; lia).
    assert (E : 2 ^ 1074 = 2 ^ (- e) * 2 ^ (e + 1074)).
    { rewrite <- Z.pow_add_r by lia. f_equal. lia. }
    rewrite E.
    replace (200 * (Zpos m * 2 ^ (e + 1074)) + 2 ^ (- e) * 2 ^ (e + 1074))
      with ((2 * (100 * Zpos m) + 2 ^ (- e)) * 2 ^ (e + 1074)) by ring.
    replace (2 * (2 ^ (- e) * 2 ^ (e + 1074)))
      with ((2 * 2 ^ (- e)) * 2 ^ (e + 1074)) by ring.
    rewrite Z.div_mul_cancel_r by lia. reflexivity.
Qed.

Lemma below_1e21_ulps m e :
  -1074 <= e ->
  Zpos m * 2 ^ (e + 1074) < 10 ^ 21 * 2 ^ 1074 ->
  at_least_1e21 m e = false.
Proof.
  intros He H. unfold at_least_1e21.
  destruct (Z.leb_spec 0 e) as [H0 | H0].
  - apply Z.leb_gt. rewrite Z.pow_add_r in H by lia.
    assert (HT : 0 < 2 ^ 1074) by (apply pow2_pos; lia).
    rewrite Z.mul_assoc in H. apply Z.mul_lt_mono_pos_r in H; assumption.
  - apply Z.leb_gt.
    assert (HG : 0 < 2 ^ (e + 1074)) by (apply pow2_pos; lia).
    assert (E : 2 ^ 1074 = 2 ^ (- e) * 2 ^ (e + 1074)).
    { rewrite <- Z.pow_add_r by lia. f_equal. lia. }
    rewrite E, Z.mul_assoc in H. apply Z.mul_lt_mono_pos_r in H; assumption.
Qed.

End CreditFacts.

(* ================================================================== *)
(** * Facts: any list of credits and debits of 0.2 *)
(* ================================================================== *)

Module TallyFacts.

Import Exact RoundingFacts Binary64Facts ExactFacts Interleaving SequenceFacts CreditFacts Trace.
Local Open Scope Z_scope.

Lemma net_snoc ops v : net (ops ++ [v]) = net ops + (if v then 1 else -1).
Proof.
  unfold net. rewrite !count_occ_app.
  destruct v.
  - rewrite (count_occ_cons_eq Bool.bool_dec [] (eq_refl true)).
    rewrite (@count_occ_cons_neq _ Bool.bool_dec [] true false) by discriminate.
    cbn [count_occ]. lia.
  - rewrite (count_occ_cons_eq Bool.bool_dec [] (eq_refl false)).
    rewrite (@count_occ_cons_neq _ Bool.bool_dec [] false true) by discriminate.
    cbn [count_occ]. lia.
Qed.

Lemma net_bound ops : Z.abs (net ops) <= Z.of_nat (List.length ops).
Proof.
  unfold net. induction ops as [| v ops IH]; [cbn; lia |].
  cbn [List.length]. rewrite Nat2Z.inj_succ.
  destruct v.
  - rewrite (count_occ_cons_eq Bool.bool_dec ops (eq_refl true)).
    rewrite (@count_occ_cons_neq _ Bool.bool_dec ops true false) by discriminate.
    rewrite Nat2Z.inj_succ. lia.
  - rewrite (count_occ_cons_eq Bool.bool_dec ops (eq_refl false)).
    rewrite (@count_occ_cons_neq _ Bool.bool_dec ops false true) by discriminate.
    rewrite Nat2Z.inj_succ. lia.
Qed.

Lemma net_credits k : net (repeat true k) = Z.of_nat k.
Proof.
  unfold net. induction k as [| k IH]; [reflexivity |].
  cbn [repeat].
  rewrite (count_occ_cons_eq Bool.bool_dec (repeat true k) (eq_refl true)).
  rewrite (@count_occ_cons_neq _ Bool.bool_dec (repeat true k) true false) by discriminate.
  rewrite !Nat2Z.inj_succ. lia.
Qed.

Lemma amount_credits k : map amount (repeat true k) = repeat two_tenths k.
Proof. induction k as [| k IH]; cbn; [| rewrite IH]; reflexivity. Qed.

Lemma ulps_amount v : ulps (amount v) = (if v then 1 else -1) * (7205759403792794 * 2 ^ 1019).
Proof. destruct v; reflexivity. Qed.

(** The balance after a list of credits and debits on a new row: nothing
    stored for the empty list; otherwise zero or a finite double, off the
    exact sum of the doubles added by at most 2^-36 for each addition. *)
Lemma tally_sum (ops : list bool) :
  Z.of_nat (List.length ops) <= 1000000 ->
  (ops = [] /\ running_sum None (map amount ops) = None)
  \/ exists x,
       running_sum None (map amount ops) = Some x /\
       in_range x /\
       Z.abs (ulps x - net ops * (7205759403792794 * 2 ^ 1019))
       <= (Z.of_nat (List.length ops) - 1) * 2 ^ 1038.
Proof.
  assert (E38 : 2 ^ 1038 = 524288 * 2 ^ 1019) by reflexivity.
  assert (E39 : 2 ^ 1039 = 1048576 * 2 ^ 1019) by reflexivity.
  assert (E92 : 2 ^ (18 + 1074) = 9444732965739290427392 * 2 ^ 1019) by reflexivity.
  assert (HP : 0 < 2 ^ 1019) by (apply pow2_pos; lia).
  induction ops as [| v ops IH] using rev_ind; intros Hlen; [left; split; reflexivity |].
  right. rewrite length_app in Hlen. cbn [List.length] in Hlen.
  rewrite map_app. cbn [map]. rewrite running_sum_snoc.
  rewrite length_app, net_snoc. cbn [List.length].
  destruct IH as [[-> Hnone] | [x [Hsum [Hr Herr]]]]; [lia | |].
  - rewrite Hnone. exists (amount v). split; [reflexivity |].
    split; [destruct v; cbn; lia |].
    rewrite ulps_amount. cbn. destruct v; lia.
  - rewrite Hsum. exists (add x (amount v)). split; [reflexivity |].
    pose proof (net_bound ops) as Hnet.
    rewrite E38 in *.
    set (n := Z.of_nat (List.length ops)) in *.
    replace (Z.of_nat (List.length ops + 1)) with (n + 1) by (unfold n; lia).
    assert (Hn : 1 <= n <= 999999).
    { split; [| lia]. unfold n. destruct ops; [discriminate Hsum | cbn [List.length]; lia]. }
    set (D := net ops) in *.
    set (P := 2 ^ 1019) in *.
    assert (HnP : P <= n * P <= 999999 * P) by nia.
    assert (HDP : - (n * P) <= D * P <= n * P) by nia.
    assert (HU : Z.abs (ulps x - 7205759403792794 * (D * P)) <= 524288 * (n * P) - 524288 * P).
    { etransitivity; [| etransitivity; [exact Herr |]]; apply Z.eq_le_incl;
        [f_equal |]; ring. }
    clear Herr.
    replace ((D + (if v then 1 else -1)) * (7205759403792794 * P))
      with (7205759403792794 * (D * P) + (if v then 1 else -1) * (7205759403792794 * P))
      by ring.
    replace ((n + 1 - 1) * (524288 * P)) with (524288 * (n * P)) by ring.
    destruct x as [s | | | sx mx ex]; try contradiction.
    + (* a zero balance: the amount is stored as it is *)
      assert (Ea : add (S754_zero s) (amount v) = amount v) by (destruct v; reflexivity).
      rewrite Ea, ulps_amount. fold P.
      split; [destruct v; cbn; lia |].
      cbn [ulps] in HU. destruct v; lia.
    + cbn [in_range] in Hr.
      assert (Eam : amount v = S754_finite (negb v) 7205759403792794 (-55))
        by (destruct v; reflexivity).
      rewrite Eam.
      destruct (@add_near sx mx ex (negb v) 7205759403792794 (-55) 18) as [Hr' [Hnear _]];
        try lia.
      { rewrite <- Eam, ulps_amount, E92. fold P. destruct v; lia. }
      replace (Z.max (Z.min ex (-55)) (18 - 53) + 1074) with 1039 in Hnear by lia.
      rewrite <- Eam in *. rewrite ulps_amount in Hnear. rewrite E39 in Hnear. fold P in Hnear.
      split; [exact Hr' |]. destruct v; lia.
Qed.

(** What [toFixed(2)] prints of that balance: 0.20 times the net count, to
    the cent, with the sign of the stored number. *)
Lemma tally_toFixed (NT : number -> string) (ops : list bool) :
  Z.of_nat (List.length ops) <= 1000000 ->
  exists sign : string,
    toFixed2 NT (match running_sum None (map amount ops) with
                 | Some b => parseFloat b
                 | None => zero
                 end)
    = (sign ++ with_two_decimals (20 * Z.abs (net ops)))%string /\
    (0 < net ops -> sign = ""%string) /\
    (net ops < 0 -> sign = "-"%string) /\
    (sign = ""%string \/ sign = "-"%string).
Proof.
  intros Hlen.
  assert (E38 : 2 ^ 1038 = 524288 * 2 ^ 1019) by reflexivity.
  assert (E74 : 2 ^ 1074 = 36028797018963968 * 2 ^ 1019) by reflexivity.
  assert (HP : 0 < 2 ^ 1019) by (apply pow2_pos; lia).
  destruct (tally_sum ops Hlen) as [[-> Hnone] | [x [Hsum [Hr Herr]]]].
  { exists ""%string. cbn. repeat split; auto; lia. }
  rewrite Hsum. rewrite E38 in Herr.
  set (n := Z.of_nat (List.length ops)) in *.
  set (D := net ops) in *.
  set (P := 2 ^ 1019) in *.
  assert (HnP : 0 <= (n - 1) * P <= 999999 * P) by nia.
  assert (HU : Z.abs (ulps x - 7205759403792794 * (D * P)) <= 524288 * ((n - 1) * P)).
  { etransitivity; [| etransitivity; [exact Herr |]]; apply Z.eq_le_incl;
      [f_equal |]; ring. }
  clear Herr.
  destruct x as [s | | | s m e]; try contradiction.
  - (* a zero: the net count is zero *)
    cbn [ulps] in HU.
    assert (HD : D = 0).
    { destruct (Z.lt_trichotomy D 0) as [H | [H | H]]; [| exact H |].
      - assert (D * P <= - P) by nia. lia.
      - assert (P <= D * P) by nia. lia. }
    rewrite HD. exists ""%string. cbn. repeat split; auto; lia.
  - cbn [in_range] in Hr. cbn [parseFloat toFixed2].
    assert (HG : 0 < 2 ^ (e + 1074)) by (apply pow2_pos; lia).
    cbn [ulps] in HU.
    set (U := Zpos m * 2 ^ (e + 1074)) in *.
    assert (HUpos : 0 < U) by (unfold U; lia).
    assert (Hmag : Z.abs (U - 7205759403792794 * (Z.abs D * P))
                   <= 524288 * ((n - 1) * P)
                   /\ (s = false -> 0 <= D) /\ (s = true -> D <= 0)).
    { destruct s; cbn [cond_Zopp] in HU.
      - assert (HD : D <= 0).
        { destruct (Z.le_gt_cases D 0) as [H | H]; [exact H |].
          assert (P <= D * P) by nia. lia. }
        rewrite (Z.abs_neq D HD). split; [| split; [discriminate | auto]].
        replace (- D * P) with (- (D * P)) by ring. lia.
      - assert (HD : 0 <= D).
        { destruct (Z.le_gt_cases 0 D) as [H | H]; [exact H |].
          assert (D * P <= - P) by nia. lia. }
        rewrite (Z.abs_eq D HD). split; [exact HU | split; [auto | discriminate]]. }
    destruct Hmag as [Hmag [Hpos Hneg]].
    exists (if s then "-" else "")%string.
    split; [| split; [| split]].
    + f_equal.
      rewrite (hundredths_ulps m Hr), E74. fold P U.
      set (A := Z.abs D) in *.
      assert (HAP : 0 <= A * P <= 1000000 * P).
      { pose proof (net_bound ops) as Hb. fold D A n in Hb.
        assert (0 <= A) by (unfold A; lia). nia. }
      rewrite below_1e21_ulps; [| exact Hr |].
      * f_equal. symmetry.
        apply Z.div_unique
          with (r := 200 * U + 36028797018963968 * P
                     - 2 * (36028797018963968 * P) * (20 * A)).
        -- replace (2 * (36028797018963968 * P) * (20 * A))
             with (1441151880758558720 * (A * P)) by ring.
           lia.
        -- ring.
      * fold U. rewrite E74. fold P. lia.
    + intros HD. destruct s; [specialize (Hneg eq_refl); lia | reflexivity].
    + intros HD. destruct s; [reflexivity | specialize (Hpos eq_refl); lia].
    + destruct s; auto.
Qed.

End TallyFacts.


Module LeaderboardFacts.

Import TableFacts.

(** With distinct user ids, a row of the table is the row read for its
    user. *)
Lemma stored_of_row t r :
  NoDup (keys t) -> In r t -> stored t (user_id r) = Some (balance r).
Proof.
  induction t as [| x t IH]; intros Hnd Hin; [contradiction |].
  cbn [keys map] in Hnd. inversion Hnd as [| ? ? Hx Hnd']; subst.
  rewrite stored_cons. destruct Hin as [-> | Hin].
  - rewrite String.eqb_refl. reflexivity.
  - destruct (String.eqb_spec (user_id x) (user_id r)) as [E | E].
    + exfalso. apply Hx. rewrite E. apply in_map, Hin.
    + apply IH; assumption.
Qed.

Lemma NoDup_firstn {A} n (l : list A) : NoDup l -> NoDup (firstn n l).
Proof.
  intros H. rewrite <- (firstn_skipn n l) in H.
  apply NoDup_app_remove_r in H. exact H.
Qed.

(** In a sorted list, whatever is in a prefix is related to whatever comes
    after it. *)
Lemma StronglySorted_app_inv {A} (R : A -> A -> Prop) l1 l2 :
  StronglySorted R (l1 ++ l2) ->
  forall x y, In x l1 -> In y l2 -> R x y.
Proof.
  induction l1 as [| a l1 IH]; intros Hs x y Hx Hy; [contradiction |].
  cbn [app] in Hs. inversion Hs as [| ? ? Hs' Ha]; subst.
  destruct Hx as [-> | Hx].
  - rewrite Forall_forall in Ha. apply Ha, in_or_app. right. exact Hy.
  - apply IH; assumption.
Qed.


(** 0.2 + (-0.2) is 0, exactly. *)
Lemma credit_debit_zero : add two_tenths (neg two_tenths) = zero.
Proof. vm_compute. reflexivity. Qed.

End LeaderboardFacts.

Section Sequences.

Import Router RouterFacts HandlerFacts Trace PgFacts TableFacts EngineFacts.
Import Interleaving InterleavingFacts SequenceFacts TallyFacts LeaderboardFacts.

Variable OWNER_ID : option string.
Variable order : table -> list row.
Variable Number_toString : number -> string.

(** X11.  Many credits are shown exactly.  When the operator verifies [k]
    members for an inviter who had no row (1 <= k <= 1000000, the database
    answering), the [balance] command of the inviter answers with k times 0.20
    to the cent: the roundings of the [k] floating-point additions never reach
    the second decimal. *)
Theorem credits_display_exactly (k : nat) (op member inviter : User)
    (w : world) (t : table) :
  OWNER_ID = Some (id op) ->
  pool w = Some t ->
  online w = true ->
  stored t (id inviter) = None ->
  (1 <= Z.of_nat k <= 1000000)%Z ->
  exists w' earlier,
    (times k (interactionCreate OWNER_ID order Number_toString
                (Schema.invocation "verify" op
                   [("member", member); ("inviter", inviter)])) ;;
     interactionCreate OWNER_ID order Number_toString
       (Schema.invocation "balance" inviter [])) w
    = (Fulfilled tt, w') /\
    events w'
    = earlier ++ [EditReply ("💰 Your current balance is **"
                             ++ with_two_decimals (20 * Z.of_nat k) ++ "**")].
Proof.
  intros Hown Hp Ho Hnone Hk.
  destruct (@times_verify OWNER_ID order Number_toString op member inviter k w t
              Hown Hp Ho) as [w1 [Hrun [Hp1 Ho1]]].
  unfold bind at 1. rewrite Hrun.
  set (ib := Schema.invocation "balance" inviter []).
  rewrite (@dispatch_balance OWNER_ID order Number_toString ib eq_refl eq_refl).
  rewrite (@on_balance_online order Number_toString ib w1 _ Hp1 Ho1).
  change (id (user ib)) with (id inviter).
  rewrite stored_upsert_all, deltas_for_repeat, Hnone, <- amount_credits.
  destruct (@tally_toFixed Number_toString (repeat true k)) as [sign [Hshown [Hsign _]]];
    [rewrite repeat_length; lia |].
  rewrite net_credits in Hshown, Hsign.
  rewrite Hsign in Hshown by lia.
  unfold balance_text, Router.toFixed2. rewrite Hshown.
  rewrite (Z.abs_eq (Z.of_nat k)) by lia.
  eexists.
  exists (events w1 ++ [DeferReply true; PoolQuery (SelectBalance (id inviter))]).
  split; [reflexivity |].
  cbn [events]. rewrite <- app_assoc. reflexivity.
Qed.


(** X14.  The leaderboard shows the right rows.  With distinct user ids and
    a database that answers, no user appears twice in what [getLeaderboard(n)]
    returns, each row returned carries the balance stored for its user, no row
    left out has a balance above that of a row returned, and when the table
    has at most [n] rows all of them are returned. *)
Theorem leaderboard_is_the_top (w : world) (t : table) (n : nat) :
  lawful_order order ->
  NoDup (keys t) ->
  pool w = Some t ->
  online w = true ->
  exists rows,
    fst (Pg.getLeaderboard order (Some n) w) = Fulfilled rows /\
    NoDup (map user_id rows) /\
    (forall r, In r rows -> stored t (user_id r) = Some (balance r)) /\
    (forall r r', In r rows -> In r' t -> ~ In r' rows ->
       geb (balance r) (balance r') = true) /\
    (List.length t <= n -> Permutation rows t).
Proof.
  intros [Hperm Hdesc] Hnd Hp Ho. exists (firstn n (order t)).
  rewrite (getLeaderboard_online order n w Hp Ho).
  split; [reflexivity |].
  split.
  { rewrite <- firstn_map. apply NoDup_firstn.
    eapply Permutation_NoDup; [| exact Hnd].
    symmetry. apply Permutation_map, Hperm. }
  split.
  { intros r Hr. apply stored_of_row; [exact Hnd |].
    eapply Permutation_in; [apply Hperm |].
    rewrite <- (firstn_skipn n (order t)). apply in_or_app. left. exact Hr. }
  split.
  { intros r r' Hr Hr' Hout.
    apply (@StronglySorted_app_inv _ balance_desc (firstn n (order t)) (skipn n (order t)));
      [rewrite firstn_skipn; apply Hdesc | exact Hr |].
    assert (Hin : In r' (order t))
      by (eapply Permutation_in; [symmetry; apply Hperm | exact Hr']).
    rewrite <- (firstn_skipn n (order t)) in Hin.
    apply in_app_or in Hin. destruct Hin; [contradiction | assumption]. }
  intros Hlen. rewrite firstn_all2; [apply Hperm |].
  rewrite (Permutation_length (Hperm t)). exact Hlen.
Qed.

(** X12.  No record is ever deleted.  After the operator's [verify] and
    [unverify] of an inviter who had no row, the inviter has a row whose
    balance is exactly 0; on a store that was empty the leaderboard then lists
    the inviter with 0.00 instead of answering that there is no data. *)
Theorem verify_then_unverify_leaves_a_zero_row (op member inviter anyone : User)
    (w : world) (t : table) :
  OWNER_ID = Some (id op) ->
  lawful_order order ->
  pool w = Some t ->
  online w = true ->
  stored t (id inviter) = None ->
  exists w' t' earlier,
    (interactionCreate OWNER_ID order Number_toString
       (Schema.invocation "verify" op [("member", member); ("inviter", inviter)]) ;;
     interactionCreate OWNER_ID order Number_toString
       (Schema.invocation "unverify" op [("member", member); ("inviter", inviter)]) ;;
     interactionCreate OWNER_ID order Number_toString
       (Schema.invocation "leaderboard" anyone [])) w
    = (Fulfilled tt, w') /\
    pool w' = Some t' /\
    stored t' (id inviter) = Some zero /\
    (t = [] ->
     events w'
     = earlier ++ [EditReply ("🏆 **Top 15 Leaderboard**" ++ newline ++ newline
                              ++ "1. <@" ++ id inviter ++ "> — **0.00**")]).
Proof.
  intros Hown Hlaw Hp Ho Hnone.
  set (iv := Schema.invocation "verify" op [("member", member); ("inviter", inviter)]).
  set (iu := Schema.invocation "unverify" op [("member", member); ("inviter", inviter)]).
  set (il := Schema.invocation "leaderboard" anyone []).
  unfold bind at 1.
  rewrite (@dispatch_verify OWNER_ID order Number_toString iv eq_refl eq_refl).
  rewrite (@on_verify_online OWNER_ID order iv w member inviter t
             (@is_owner OWNER_ID iv Hown) eq_refl eq_refl Hp Ho).
  unfold bind at 1.
  rewrite (@dispatch_unverify OWNER_ID order Number_toString iu eq_refl eq_refl).
  match goal with
  | |- context [on_unverify _ _ _ ?w1] =>
      rewrite (@on_unverify_online OWNER_ID order iu w1 member inviter
                 (upsert t (id inviter) two_tenths)
                 (@is_owner OWNER_ID iu Hown) eq_refl eq_refl eq_refl eq_refl)
  end.
  rewrite (@dispatch_leaderboard OWNER_ID order Number_toString il eq_refl eq_refl).
  set (t' := upsert (upsert t (id inviter) two_tenths) (id inviter) (neg two_tenths)).
  assert (Hzero : stored t' (id inviter) = Some zero).
  { unfold t'. rewrite !stored_upsert_same, Hnone, credit_debit_zero. reflexivity. }
  run_handler. fold t'.
  assert (Hone : t = [] -> order t' = [ {| user_id := id inviter; balance := zero |} ]).
  { intros ->. apply Permutation_length_1_inv. symmetry.
    replace [ {| user_id := id inviter; balance := zero |} ] with t';
      [apply (order_perm Hlaw) |].
    unfold t'. cbn [upsert user_id balance]. rewrite String.eqb_refl, credit_debit_zero.
    reflexivity. }
  set (earlier := events w ++ [DeferReply false;
                               PoolQuery (UpsertBalance (id inviter) two_tenths);
                               EditReply (verified_text member inviter);
                               DeferReply false;
                               PoolQuery (UpsertBalance (id inviter) (neg two_tenths));
                               EditReply (unverified_text member inviter);
                               DeferReply false;
                               PoolQuery (SelectTop 15)]).
  destruct (firstn 15 (order t')) as [| r rows] eqn:Erows;
    (eexists; exists t', earlier; split; [reflexivity |]; split; [reflexivity |];
     split; [exact Hzero |]); intros Ht; rewrite (Hone Ht) in Erows;
    [discriminate |].
  cbn [firstn] in Erows. inversion Erows; subst r rows.
  cbn [events]. unfold earlier. rewrite <- !app_assoc. cbn [app].
  do 9 f_equal.
Qed.

End Sequences.

(* ================================================================== *)
(** * The channel name, further *)
(* ================================================================== *)

Section ChannelNameFacts.

Import Provisioner.
Local Open Scope N_scope.

Variable lower_non_ascii : N -> list N.

Lemma channelName_split (username : jsstring) :
  channelName lower_non_ascii username
  = of_ascii "verify-" ++ strip (toLowerCase lower_non_ascii username).
Proof.
  unfold channelName, toLowerCase, strip. rewrite flat_map_app, filter_app. reflexivity.
Qed.

Lemma normal_app a b :
  strip (toLowerCase lower_non_ascii (a ++ b))
  = strip (toLowerCase lower_non_ascii a) ++ strip (toLowerCase lower_non_ascii b).
Proof. unfold toLowerCase, strip. rewrite flat_map_app, filter_app. reflexivity. Qed.

Lemma normal_cons c b :
  strip (toLowerCase lower_non_ascii (c :: b))
  = filter allowed (lower_unit lower_non_ascii c) ++ strip (toLowerCase lower_non_ascii b).
Proof. unfold toLowerCase, strip. cbn [flat_map]. rewrite filter_app. reflexivity. Qed.

(** A character of the class is its own lower case. *)
Lemma lower_unit_allowed c : allowed c = true -> lower_unit lower_non_ascii c = [c].
Proof.
  unfold allowed, lower_unit, is_upper. intros H.
  destruct (65 <=? c) eqn:E1, (c <=? 90) eqn:E2, (c <? 128) eqn:E3; cbn; try reflexivity;
    exfalso;
    repeat match goal with
           | H : (_ <=? _) = true |- _ => apply N.leb_le in H
           | H : (_ <=? _) = false |- _ => apply N.leb_gt in H
           | H : (_ <? _) = false |- _ => apply N.ltb_ge in H
           | H : (_ <? _) = true |- _ => apply N.ltb_lt in H
           end;
    repeat (apply orb_prop in H; destruct H as [H | H]);
    try (apply andb_prop in H; destruct H as [Ha Hb];
         apply N.leb_le in Ha; apply N.leb_le in Hb; lia);
    try (apply N.eqb_eq in H; lia).
Qed.

Lemma normal_of_allowed s :
  Forall (fun c => allowed c = true) s ->
  strip (toLowerCase lower_non_ascii s) = s.
Proof.
  induction 1 as [| c s Hc _ IH]; [reflexivity |].
  rewrite normal_cons, IH, (@lower_unit_allowed c Hc). cbn [filter]. rewrite Hc. reflexivity.
Qed.

(** X15.  What the channel name forgets.  Turning an ASCII capital of the
    username into its small letter does not change the name; neither does
    removing an ASCII character that is not a letter, a digit or a hyphen
    (a dot, an underscore, a space); and a username made of such characters
    only gives the bare name [verify-]. *)
Theorem channelName_forgets (a b : jsstring) (c : N) :
  (is_upper c = true ->
   channelName lower_non_ascii (a ++ c :: b)
   = channelName lower_non_ascii (a ++ (c + 32) :: b)) /\
  (c < 128 -> is_upper c = false -> allowed c = false ->
   channelName lower_non_ascii (a ++ c :: b) = channelName lower_non_ascii (a ++ b)) /\
  (Forall (fun x => x < 128 /\ is_upper x = false /\ allowed x = false) a ->
   channelName lower_non_ascii a = of_ascii "verify-").
Proof.
  split; [| split].
  - intros Hup. rewrite !channelName_split, !normal_app, !normal_cons. do 3 f_equal.
    unfold lower_unit at 1. rewrite Hup.
    unfold is_upper in Hup. apply andb_prop in Hup. destruct Hup as [H1 H2].
    apply N.leb_le in H1. apply N.leb_le in H2.
    unfold lower_unit, is_upper.
    replace (c + 32 <=? 90) with false by (symmetry; apply N.leb_gt; lia).
    rewrite andb_false_r.
    replace (c + 32 <? 128) with true by (symmetry; apply N.ltb_lt; lia).
    reflexivity.
  - intros Hascii Hup Hout. rewrite !channelName_split, !normal_app, normal_cons.
    unfold lower_unit. rewrite Hup.
    apply N.ltb_lt in Hascii. rewrite Hascii. cbn [filter]. rewrite Hout. reflexivity.
  - intros Hall. rewrite channelName_split.
    replace (strip (toLowerCase lower_non_ascii a)) with (@nil N); [apply app_nil_r |].
    induction Hall as [| x s [Hascii [Hup Hout]] _ IH]; [reflexivity |].
    rewrite normal_cons, <- IH. unfold lower_unit. rewrite Hup.
    apply N.ltb_lt in Hascii. rewrite Hascii. cbn [filter]. rewrite Hout. reflexivity.
Qed.

(** X16.  The channel name is in normal form: lowering and filtering it again
    gives it back, so a second pass (the platform's own, say) finds nothing to
    change.  It is never shorter than the seven characters of [verify-], and
    for an ASCII username never longer than those seven and the username. *)
Theorem channelName_is_normal (username : jsstring) :
  strip (toLowerCase lower_non_ascii (channelName lower_non_ascii username))
  = channelName lower_non_ascii username /\
  (7 <= List.length (channelName lower_non_ascii username))%nat /\
  (Forall (fun c => c < 128) username ->
   (List.length (channelName lower_non_ascii username) <= 7 + List.length username)%nat).
Proof.
  split; [| split].
  - apply normal_of_allowed. unfold channelName, strip.
    rewrite Forall_forall. intros c Hc. apply filter_In in Hc. apply Hc.
  - rewrite channelName_split, length_app. cbn. lia.
  - intros Hascii. rewrite channelName_split, length_app.
    change (List.length (of_ascii "verify-")) with 7%nat.
    apply Nat.add_le_mono_l.
    induction Hascii as [| c s Hc _ IH]; [apply Nat.le_refl |].
    rewrite normal_cons, length_app. cbn [List.length].
    assert (Hone : (List.length (filter allowed (lower_unit lower_non_ascii c)) <= 1)%nat).
    { unfold lower_unit. apply N.ltb_lt in Hc. rewrite Hc.
      destruct (is_upper c); cbn [filter];
        match goal with |- context [allowed ?x] => destruct (allowed x) end; cbn; lia. }
    lia.
Qed.

End ChannelNameFacts.

(* ================================================================== *)
(** * The [guildMemberAdd] handler: every answer of the gateway *)
(* ================================================================== *)

Section Provisioning.

Import Provisioner Onboarding.

Variable OWNER_ID : option string.
Variable lower_non_ascii : N -> list N.
Variable discord : gateway.
Variable welcome_text : string -> string.

(** X17.  Provisioning is best effort.  Whatever the gateway answers, the
    handler settles normally and what it does is one of four runs: the owner
    cannot be fetched (nothing is created); the channel cannot be created
    (nothing is sent); the welcome message cannot be sent (the channel stays:
    nothing removes it); or all three requests succeed.  Each failure is
    logged once and nothing is tried again; the channel is asked for at most
    once, under the derived name, as a text channel hidden from everyone but
    the member and the fetched owner. *)
Theorem provisioning_is_best_effort (member : GuildMember) (log : list action) :
  exists new,
    guildMemberAdd OWNER_ID lower_non_ascii discord welcome_text member log
    = (Fulfilled tt, log ++ new) /\
    let name := channelName lower_non_ascii (username member) in
    let text := welcome_text (mention member) in
    let failed := ConsoleErrorLine "Error creating verify channel:" in
    (members_fetch discord OWNER_ID = None /\
     new = [MembersFetch OWNER_ID; failed])
    \/ (exists owner,
          members_fetch discord OWNER_ID = Some owner /\
          channels_create discord name 0%N (overwrites member owner) = None /\
          new = [MembersFetch OWNER_ID;
                 ChannelsCreate name 0 (overwrites member owner);
                 failed])
    \/ (exists owner channel,
          members_fetch discord OWNER_ID = Some owner /\
          channels_create discord name 0%N (overwrites member owner) = Some channel /\
          channel_send discord channel text = false /\
          new = [MembersFetch OWNER_ID;
                 ChannelsCreate name 0 (overwrites member owner);
                 ChannelSend channel text;
                 failed])
    \/ (exists owner channel,
          members_fetch discord OWNER_ID = Some owner /\
          channels_create discord name 0%N (overwrites member owner) = Some channel /\
          channel_send discord channel text = true /\
          new = [MembersFetch OWNER_ID;
                 ChannelsCreate name 0 (overwrites member owner);
                 ChannelSend channel text;
                 ConsoleLog ("Created channel " ++ channel_name channel ++ " for "
                             ++ tag member)]).
Proof.
  unfold guildMemberAdd, try_catch, bind, request, print, modify.
  destruct (members_fetch discord OWNER_ID) as [owner |] eqn:Ef.
  2: { eexists. split; [rewrite <- app_assoc; reflexivity |]. left. split; reflexivity. }
  destruct (channels_create discord (channelName lower_non_ascii (username member)) 0
              (overwrites member owner)) as [channel |] eqn:Ec.
  2: { eexists. split; [rewrite <- !app_assoc; reflexivity |].
       right. left. exists owner. repeat split; assumption. }
  destruct (channel_send discord channel (welcome_text (mention member))) eqn:Es.
  - eexists. split; [rewrite <- !app_assoc; reflexivity |].
    right. right. right. exists owner, channel. repeat split; assumption.
  - eexists. split; [rewrite <- !app_assoc; reflexivity |].
    right. right. left. exists owner, channel. repeat split; assumption.
Qed.

End Provisioning.

(* ================================================================== *)
(** * The command handlers of the two files, side by side *)
(* ================================================================== *)

Module VariantFacts.

Import Router RouterFacts HandlerFacts Trace.

(** Run a handler of the SQLite variant on a process given by its fields. *)
Ltac run_sqlite :=
  unfold SqliteRouter.on_balance, SqliteRouter.on_verify, SqliteRouter.on_unverify,
    SqliteRouter.on_leaderboard, SqliteRouter.send, SqliteRouter.addBalance,
    SqliteRouter.uncaught, Sqlite.getBalance, Sqlite.getLeaderboard, Sqlite.addBalance,
    Sqlite.db_get, Sqlite.db_all, Sqlite.db_run,
    bind, gets, modify, deref, ret, throw, run;
  cbn [SqliteRouter.db SqliteRouter.replies Sqlite.contents Sqlite.healthy fst snd].

(** [parseFloat] changes nothing of what [toFixed(2)] prints. *)
Lemma toFixed2_parseFloat NT x : Number.toFixed2 NT (parseFloat x) = Number.toFixed2 NT x.
Proof. destruct x; reflexivity. Qed.

End VariantFacts.

Section Variants.

Import Router RouterFacts HandlerFacts Trace VariantFacts.

Variable OWNER_ID : option string.
Variable order : table -> list row.
Variable Number_toString : number -> string.

(** X19.  What the SQLite variant does not guard.  Its [verify] calls
    [addBalance] with no callback and has no [try].  With a database that
    answers the row is credited and the confirmation is sent.  When the
    statement fails nothing is stored, [editReply] is still called with the
    confirmation, and the failure then comes up as an error that nothing
    handles, on which the process exits.  And without an inviter option the
    handler throws after the acknowledgement, with no message text sent,
    where [bot.js] catches the error and reports it. *)
Theorem sqlite_verify_is_unguarded (i : interaction) (p : SqliteRouter.process) :
  OWNER_ID = Some (id (user i)) ->
  isCommand i || isChatInputCommand i = true ->
  commandName i = "verify" ->
  (forall member inviter,
     getUser i "member" = Some member ->
     getUser i "inviter" = Some inviter ->
     (Sqlite.healthy (SqliteRouter.db p) = true ->
      SqliteRouter.interactionCreate OWNER_ID order Number_toString i p
      = (Fulfilled tt,
         {| SqliteRouter.db :=
              {| Sqlite.contents :=
                   upsert (Sqlite.contents (SqliteRouter.db p)) (id inviter) two_tenths;
                 Sqlite.healthy := true |};
            SqliteRouter.replies :=
              SqliteRouter.replies p
              ++ [DeferReply false; EditReply (verified_text member inviter)] |})) /\
     (Sqlite.healthy (SqliteRouter.db p) = false ->
      SqliteRouter.interactionCreate OWNER_ID order Number_toString i p
      = (Rejected,
         {| SqliteRouter.db := SqliteRouter.db p;
            SqliteRouter.replies :=
              SqliteRouter.replies p
              ++ [DeferReply false; EditReply (verified_text member inviter)] |}))) /\
  (getUser i "inviter" = None ->
   SqliteRouter.interactionCreate OWNER_ID order Number_toString i p
   = (Rejected,
      {| SqliteRouter.db := SqliteRouter.db p;
         SqliteRouter.replies := SqliteRouter.replies p ++ [DeferReply false] |}) /\
   forall w,
     fst (interactionCreate OWNER_ID order Number_toString i w) = Fulfilled tt).
Proof.
  intros Hown Hc Hn. apply is_owner in Hown.
  assert (Hd : SqliteRouter.interactionCreate OWNER_ID order Number_toString i
               = SqliteRouter.on_verify OWNER_ID order i).
  { unfold SqliteRouter.interactionCreate. rewrite Hn.
    destruct (isCommand i), (isChatInputCommand i); try discriminate; reflexivity. }
  rewrite Hd. split.
  - intros member inviter Hm Hi. split; intros Hh.
    + unfold SqliteRouter.on_verify. rewrite Hown, Hm, Hi. run_sqlite.
      rewrite Hh. cbn [SqliteRouter.db SqliteRouter.replies run snd].
      rewrite <- app_assoc. reflexivity.
    + unfold SqliteRouter.on_verify. rewrite Hown, Hm, Hi. run_sqlite.
      rewrite Hh. cbn [SqliteRouter.db SqliteRouter.replies].
      rewrite <- app_assoc. reflexivity.
  - intros Hi. split.
    + unfold SqliteRouter.on_verify. rewrite Hown, Hi. run_sqlite. reflexivity.
    + intros w. rewrite (dispatch_verify _ _ _ _ Hc Hn). unfold on_verify.
      rewrite Hown, Hi. destruct w as [[t |] [|] ev]; run_handler; reflexivity.
Qed.

End Variants.

(* ================================================================== *)
(** * Startup *)
(* ================================================================== *)

Section StartingUp.

Import Startup.

(** X20.  Starting up is never fatal, and keeps what is stored.  The
    initialisation settles normally whatever the server does.  Without a
    connection string (unset, or empty) it does nothing at all: the pool is
    [null], and the warning of [ensureDB] is not printed, since its only call
    is under [if (pool)].  With one, a refused connection or a failed
    statement is logged once and the process goes on; otherwise the table
    exists afterwards, with the rows it had if it existed already. *)
Theorem startup_is_never_fatal (DATABASE_URL : option string) (p : process) :
  exists p',
    initialize DATABASE_URL p = (Fulfilled tt, p') /\
    (((DATABASE_URL = None \/ DATABASE_URL = Some "") /\
      Startup.pool DATABASE_URL = None /\
      p' = p)
     \/ (Startup.pool DATABASE_URL <> None /\
         accepts (postgres p) && executes (postgres p) = false /\
         postgres p' = postgres p /\
         console p' = console p ++ [Error "Database connection error:"])
     \/ (Startup.pool DATABASE_URL <> None /\
         accepts (postgres p) && executes (postgres p) = true /\
         console p' = console p ++ [Log "✅ Ensured balances table exists (Postgres).";
                                    Log "✅ Connected to Postgres"] /\
         balances (postgres p')
         = Some (match balances (postgres p) with Some t => t | None => [] end))).
Proof.
  unfold initialize, ensureDB, Startup.pool, connectionOptions.
  destruct DATABASE_URL as [url |].
  2: { exists p. split; [reflexivity |]. left. repeat split. left. reflexivity. }
  destruct (String.eqb_spec url "") as [-> | Hurl].
  { exists p. split; [reflexivity |]. left. repeat split. right. reflexivity. }
  unfold try_catch, bind, connect, create_table_if_not_exists, print, modify.
  destruct p as [[a e b] c]. cbn [postgres console accepts executes balances].
  destruct a, e; cbn [andb]; eexists; (split; [reflexivity |]).
  - right. right. cbn [postgres console balances]. rewrite <- app_assoc.
    repeat split. discriminate.
  - right. left. repeat split. discriminate.
  - right. left. repeat split. discriminate.
  - right. left. repeat split. discriminate.
Qed.

End StartingUp.

Section Visibility.

Import Router RouterFacts HandlerFacts Trace VariantFacts.

Variable OWNER_ID : option string.
Variable order : table -> list row.
Variable Number_toString : number -> string.

(** X21.  Who sees the answer.  In every state of the store the [balance]
    command is acknowledged privately (only the invoker sees the balance or
    the error), [leaderboard] and the operator's [verify] and [unverify] are
    acknowledged publicly, and anyone else's [verify] or [unverify] gets the
    one private rejection. *)
Theorem reply_visibility (i : interaction) (w : world) :
  isCommand i || isChatInputCommand i = true ->
  (commandName i = "balance" ->
   exists rest,
     events (snd (interactionCreate OWNER_ID order Number_toString i w))
     = events w ++ DeferReply true :: rest) /\
  (commandName i = "leaderboard" ->
   exists rest,
     events (snd (interactionCreate OWNER_ID order Number_toString i w))
     = events w ++ DeferReply false :: rest) /\
  (commandName i = "verify" \/ commandName i = "unverify" ->
   (OWNER_ID = Some (id (user i)) ->
    exists rest,
      events (snd (interactionCreate OWNER_ID order Number_toString i w))
      = events w ++ DeferReply false :: rest) /\
   (not_owner OWNER_ID i = true ->
    events (snd (interactionCreate OWNER_ID order Number_toString i w))
    = events w ++ [Reply owner_only true])).
Proof.
  intros Hc. split; [| split].
  - intros Hn. rewrite (@dispatch_balance OWNER_ID order Number_toString i Hc Hn).
    destruct w as [[t |] [|] ev]; run_handler; eexists;
      rewrite <- ?app_assoc; cbn [app]; reflexivity.
  - intros Hn. rewrite (dispatch_leaderboard _ _ _ _ Hc Hn).
    destruct w as [[t |] [|] ev]; run_handler; try destruct (firstn 15 (order t));
      eexists; cbn [snd events]; rewrite <- ?app_assoc; cbn [app]; reflexivity.
  - intros [Hn | Hn]; split.
    + intros Hown. apply is_owner in Hown.
      rewrite (dispatch_verify _ _ _ _ Hc Hn). unfold on_verify. rewrite Hown.
      destruct (getUser i "inviter"), (getUser i "member"), w as [[t |] [|] ev];
        run_handler; eexists; rewrite <- ?app_assoc; cbn [app]; reflexivity.
    + intros Hno. rewrite (dispatch_verify _ _ _ _ Hc Hn). unfold on_verify.
      rewrite Hno. reflexivity.
    + intros Hown. apply is_owner in Hown.
      rewrite (dispatch_unverify _ _ _ _ Hc Hn). unfold on_unverify. rewrite Hown.
      destruct (getUser i "inviter"), (getUser i "member"), w as [[t |] [|] ev];
        run_handler; eexists; rewrite <- ?app_assoc; cbn [app]; reflexivity.
    + intros Hno. rewrite (dispatch_unverify _ _ _ _ Hc Hn). unfold on_unverify.
      rewrite Hno. reflexivity.
Qed.

(** X22.  The SQLite variant reports a failed read: when the database does
    not answer, [balance] and [leaderboard] are answered with the general
    error message after the acknowledgement, nothing is written to the
    console, and the database is left as it was. *)
Theorem sqlite_reads_report_failure (i : interaction) (p : SqliteRouter.process) :
  isCommand i || isChatInputCommand i = true ->
  Sqlite.healthy (SqliteRouter.db p) = false ->
  (commandName i = "balance" ->
   SqliteRouter.interactionCreate OWNER_ID order Number_toString i p
   = (Fulfilled tt,
      {| SqliteRouter.db := SqliteRouter.db p;
         SqliteRouter.replies :=
           SqliteRouter.replies p
           ++ [DeferReply true; EditReply "Error retrieving your balance."] |})) /\
  (commandName i = "leaderboard" ->
   SqliteRouter.interactionCreate OWNER_ID order Number_toString i p
   = (Fulfilled tt,
      {| SqliteRouter.db := SqliteRouter.db p;
         SqliteRouter.replies :=
           SqliteRouter.replies p
           ++ [DeferReply false; EditReply "Error retrieving leaderboard."] |})).
Proof.
  intros Hc Hbad.
  assert (Hflags : negb (isCommand i) && negb (isChatInputCommand i) = false)
    by (destruct (isCommand i), (isChatInputCommand i); try discriminate; reflexivity).
  split; intros Hn; unfold SqliteRouter.interactionCreate; rewrite Hflags, Hn;
    cbn [String.eqb Ascii.eqb Bool.eqb andb]; run_sqlite; rewrite Hbad;
    cbn [SqliteRouter.db SqliteRouter.replies]; rewrite <- app_assoc; reflexivity.
Qed.

End Visibility.

Section Tallies.

Import Router RouterFacts HandlerFacts Trace PgFacts TableFacts.
Import Interleaving InterleavingFacts SequenceFacts TallyFacts.

Variable OWNER_ID : option string.
Variable order : table -> list row.
Variable Number_toString : number -> string.

Lemma string_app_assoc (a b c : string) : ((a ++ b) ++ c = a ++ b ++ c)%string.
Proof. induction a as [| x a IH]; cbn; [| rewrite IH]; reflexivity. Qed.

Lemma deltas_for_amounts u ops :
  deltas_for u (map (fun v => (u, amount v)) ops) = map amount ops.
Proof.
  unfold deltas_for. induction ops as [| v ops IH]; [reflexivity |].
  cbn [map filter fst]. rewrite String.eqb_refl. cbn [map snd]. f_equal. exact IH.
Qed.

(** A list of verifications and unverifications of one inviter by the
    operator, the database answering: one upsert each, in order. *)
Lemma sequence_verifications (op member inviter : User) (ops : list bool) :
  forall (w : world) (t : table),
  OWNER_ID = Some (id op) ->
  pool w = Some t ->
  online w = true ->
  exists w',
    sequence (map (fun v => interactionCreate OWNER_ID order Number_toString
                              (Schema.verification v op member inviter)) ops) w
    = (Fulfilled tt, w') /\
    pool w' = Some (upsert_all (map (fun v => (id inviter, amount v)) ops) t) /\
    online w' = true.
Proof.
  induction ops as [| v ops IH]; intros w t Hown Hp Ho.
  - exists w. repeat split; assumption.
  - cbn [map sequence]. unfold bind at 1.
    set (i := Schema.verification v op member inviter).
    assert (Hstep : interactionCreate OWNER_ID order Number_toString i w
                    = (Fulfilled tt,
                       {| pool := Some (upsert t (id inviter) (amount v)); online := true;
                          events := events w
                                    ++ [DeferReply false;
                                        PoolQuery (UpsertBalance (id inviter) (amount v));
                                        EditReply (if v then verified_text member inviter
                                                   else unverified_text member inviter)] |})).
    { destruct v.
      - rewrite (@dispatch_verify OWNER_ID order Number_toString i eq_refl eq_refl).
        apply (@on_verify_online OWNER_ID order i w member inviter t
                 (@is_owner OWNER_ID i Hown) eq_refl eq_refl Hp Ho).
      - rewrite (@dispatch_unverify OWNER_ID order Number_toString i eq_refl eq_refl).
        apply (@on_unverify_online OWNER_ID order i w member inviter t
                 (@is_owner OWNER_ID i Hown) eq_refl eq_refl Hp Ho). }
    rewrite Hstep.
    match goal with
    | |- context [sequence _ ?w1] =>
        destruct (IH w1 (upsert t (id inviter) (amount v)) Hown eq_refl eq_refl)
          as [w' [Hrun [Hp' Ho']]]
    end.
    exists w'. split; [exact Hrun |]. split; [| exact Ho'].
    rewrite Hp'. reflexivity.
Qed.

(** X23.  Rounding never reaches the cents.  After any list of at most
    1000000 verifications and unverifications of an inviter who had no row,
    in any order, the [balance] command shows 0.20 times the verifications
    less the unverifications, exact to the cent; the sign shown is the sign
    of that count, except that a count of zero may be shown as [0.00] or as
    [-0.00], according to the sign of what the roundings left. *)
Theorem any_sequence_displays_exactly (ops : list bool) (op member inviter : User)
    (w : world) (t : table) :
  OWNER_ID = Some (id op) ->
  pool w = Some t ->
  online w = true ->
  stored t (id inviter) = None ->
  (Z.of_nat (List.length ops) <= 1000000)%Z ->
  exists w' earlier sign,
    (sequence (map (fun v => interactionCreate OWNER_ID order Number_toString
                               (Schema.verification v op member inviter)) ops) ;;
     interactionCreate OWNER_ID order Number_toString
       (Schema.invocation "balance" inviter [])) w
    = (Fulfilled tt, w') /\
    events w'
    = earlier ++ [EditReply ("💰 Your current balance is **" ++ sign
                             ++ with_two_decimals (20 * Z.abs (net ops)) ++ "**")] /\
    ((0 < net ops)%Z -> sign = "") /\
    ((net ops < 0)%Z -> sign = "-") /\
    (sign = "" \/ sign = "-").
Proof.
  intros Hown Hp Ho Hnone Hlen.
  destruct (@sequence_verifications op member inviter ops w t Hown Hp Ho)
    as [w1 [Hrun [Hp1 Ho1]]].
  unfold bind at 1. rewrite Hrun.
  set (ib := Schema.invocation "balance" inviter []).
  rewrite (@dispatch_balance OWNER_ID order Number_toString ib eq_refl eq_refl).
  rewrite (@on_balance_online order Number_toString ib w1 _ Hp1 Ho1).
  change (id (user ib)) with (id inviter).
  rewrite stored_upsert_all, deltas_for_amounts, Hnone.
  destruct (@tally_toFixed Number_toString ops Hlen) as [sign [Hshown Hsign]].
  unfold balance_text, Router.toFixed2. rewrite Hshown.
  eexists.
  exists (events w1 ++ [DeferReply true; PoolQuery (SelectBalance (id inviter))]), sign.
  split; [reflexivity |]. split; [| exact Hsign].
  cbn [events]. rewrite <- !app_assoc. cbn [app].
  rewrite string_app_assoc. reflexivity.
Qed.

End Tallies.

(* ================================================================== *)
(** * Facts: addition and the sign *)
(* ================================================================== *)

Module MirrorFacts.

Import Exact RoundingFacts Binary64Facts ExactFacts.
Local Open Scope Z_scope.

(** Rounding to nearest even does not look at the sign. *)
Lemma binary_round_opp m e :
  binary_round 53 1024 true m e = SFopp (binary_round 53 1024 false m e).
Proof.
  unfold binary_round, binary_round_aux.
  destruct (shl_align m e (fexp 53 1024 (Zpos (digits2_pos m) + e))) as [mz ez].
  destruct (shr_fexp 53 1024 (Zpos mz) ez loc_Exact) as [mrs e'].
  destruct (shr_fexp 53 1024 (round_nearest_even (shr_m mrs) (loc_of_shr_record mrs)) e'
              loc_Exact) as [mrs' e''].
  destruct (shr_m mrs'); [reflexivity | | reflexivity].
  destruct (e'' <=? 1024 - 53); reflexivity.
Qed.

Lemma neg_neg x : neg (neg x) = x.
Proof. destruct x as [s | s | | s m e]; cbn; rewrite ?negb_involutive; reflexivity. Qed.

Lemma in_range_neg x : in_range x -> in_range (neg x).
Proof. destruct x; cbn; trivial. Qed.

(** The sum of two opposites is the opposite of the sum, or both sums are
    the zero that an exact cancellation gives. *)
Lemma add_opp sx mx ex sy my ey :
  add (neg (S754_finite sx mx ex)) (neg (S754_finite sy my ey))
  = neg (add (S754_finite sx mx ex) (S754_finite sy my ey))
  \/ (add (S754_finite sx mx ex) (S754_finite sy my ey) = S754_zero false /\
      add (neg (S754_finite sx mx ex)) (neg (S754_finite sy my ey)) = S754_zero false).
Proof.
  unfold add, neg, SFopp, SFadd, Number.prec, Number.emax. cbv zeta.
  set (ez := Z.min ex ey).
  set (A := Zpos (fst (shl_align mx ex ez))).
  set (B := Zpos (fst (shl_align my ey ez))).
  replace (cond_Zopp (negb sx) A + cond_Zopp (negb sy) B)
    with (- (cond_Zopp sx A + cond_Zopp sy B))
    by (destruct sx, sy; cbn [cond_Zopp negb]; lia).
  destruct (cond_Zopp sx A + cond_Zopp sy B) as [| p | p]; cbn [Z.opp binary_normalize].
  - right. split; reflexivity.
  - left. apply binary_round_opp.
  - left. rewrite binary_round_opp.
    destruct (binary_round 53 1024 false p ez) as [s | s | | s m e]; cbn;
      rewrite ?negb_involutive; reflexivity.
Qed.

(** Taking 0.2 away from the opposite of a sum is adding 0.2 to the sum, up
    to the sign. *)
Lemma add_mirror s1 :
  in_range (add s1 (neg two_tenths)) ->
  in_range (add (neg s1) two_tenths) /\
  ulps (add (neg s1) two_tenths) = - ulps (add s1 (neg two_tenths)).
Proof.
  destruct s1 as [s | s | | s m e].
  - intros _. destruct s; split; vm_compute; trivial; try reflexivity; discriminate.
  - destruct s; intros H; exact (False_ind _ H).
  - intros H; exact (False_ind _ H).
  - intros Hr.
    destruct (@add_opp s m e true 7205759403792794 (-55)) as [E | [E1 E2]].
    + change (neg (S754_finite true 7205759403792794 (-55))) with two_tenths in E.
      change (S754_finite true 7205759403792794 (-55)) with (neg two_tenths) in E.
      rewrite E. split; [apply in_range_neg, Hr | apply ulps_neg].
    + change (neg (S754_finite true 7205759403792794 (-55))) with two_tenths in E2.
      change (S754_finite true 7205759403792794 (-55)) with (neg two_tenths) in E1.
      rewrite E1, E2. split; [exact I | reflexivity].
Qed.

(** Taking 0.2 away and then adding it back: the mirror image of adding it
    and then taking it away. *)
Lemma round_trip_mirror b :
  well_formed b = true ->
  is_finite b = true ->
  Z.abs (ulps b) <= 16777215 * 2 ^ 1074 ->
  in_range (add (add b (neg two_tenths)) two_tenths) /\
  Z.abs (ulps (add (add b (neg two_tenths)) two_tenths) - ulps b) <= 2 ^ 1044.
Proof.
  intros Hwf Hfin Hb.
  destruct b as [s | s | | s m e]; try discriminate.
  - assert (HP : 0 < 2 ^ 1044) by (apply pow2_pos; lia).
    destruct s; (split; [vm_compute; trivial |]);
      match goal with
      | |- Z.abs (ulps ?x - _) <= _ =>
          replace (ulps x) with 0 by (vm_compute; reflexivity)
      end; cbn [ulps]; lia.
  - set (c := S754_finite (negb s) m e).
    assert (Hc : S754_finite s m e = neg c)
      by (unfold c; cbn; rewrite negb_involutive; reflexivity).
    destruct (@round_trip_close c) as [Hr Hclose].
    { exact Hwf. }
    { reflexivity. }
    { change c with (neg (S754_finite s m e)). rewrite ulps_neg, Z.abs_opp. exact Hb. }
    assert (Hcu : ulps c = - ulps (S754_finite s m e)) by (rewrite Hc, ulps_neg; lia).
    rewrite Hc.
    destruct (@add_opp (negb s) m e false 7205759403792794 (-55)) as [E | [E1 E2]];
      fold c in E || fold c in E1, E2.
    + change (S754_finite false 7205759403792794 (-55)) with two_tenths in E.
      rewrite E.
      destruct (add_mirror (add c two_tenths) Hr) as [Hr' Hu].
      split; [exact Hr' |]. rewrite Hu, ulps_neg. lia.
    + change (S754_finite false 7205759403792794 (-55)) with two_tenths in E1, E2.
      rewrite E2. rewrite E1 in Hr, Hclose.
      destruct (add_mirror (S754_zero false) Hr) as [Hr' Hu].
      change (neg (S754_zero false)) with (S754_zero true) in Hr', Hu.
      replace (add (S754_zero false) two_tenths) with (add (S754_zero true) two_tenths)
        by reflexivity.
      split; [exact Hr' |]. rewrite Hu, ulps_neg. lia.
Qed.

End MirrorFacts.

Section RoundTripBack.

Import Exact ExactFacts Binary64Facts MirrorFacts PgFacts TableFacts.

Variable order : table -> list row.

(** X24.  Undoing an unverification.  [addBalance(u, -0.2)] followed by
    [addBalance(u, 0.2)] brings the balance read for [u] back to within 10^-9
    of what it was, for a user with no row and for every stored finite
    balance of magnitude at most 16777215 (2^24 - 1): the two orders of a
    credit and a debit behave alike. *)
Theorem debit_then_credit_restores (w : world) (t : table) (u : string) :
  pool w = Some t ->
  online w = true ->
  (forall b, stored t u = Some b ->
     well_formed b = true /\ is_finite b = true /\ (Qabs (to_Q b) <= 16777215)%Q) ->
  exists r,
    fst ((Pg.addBalance order u (neg two_tenths) ;;
          Pg.addBalance order u two_tenths ;;
          Pg.getBalance order u) w) = Fulfilled r /\
    is_finite r = true /\
    (Qabs (to_Q r - to_Q (match stored t u with Some b => b | None => zero end))
     <= 1 # 1000000000)%Q.
Proof.
  intros Hp Ho Hb.
  unfold bind at 1.
  rewrite (addBalance_online order u (neg two_tenths) w Hp Ho).
  unfold bind at 1.
  erewrite addBalance_online by reflexivity.
  erewrite getBalance_online by reflexivity.
  cbn [fst]. rewrite !stored_upsert_same.
  eexists. split; [reflexivity |].
  destruct (stored t u) as [b |].
  - destruct (Hb b eq_refl) as [Hwf [Hfin Hmag]].
    pose proof (@well_formed_in_range b Hwf Hfin) as Hr.
    destruct (@round_trip_mirror b Hwf Hfin (@magnitude_in_ulps b Hr Hmag)) as [Hr' Hclose].
    split.
    + apply in_range_finite, parseFloat_in_range, Hr'.
    + apply close_in_Q; [apply parseFloat_in_range, Hr' | exact Hr |].
      rewrite parseFloat_ulps. exact Hclose.
  - split; [reflexivity |]. vm_compute. discriminate.
Qed.

End RoundTripBack.

(* ================================================================== *)
(** * Handlers in flight at the same time *)
(* ================================================================== *)

Module EventLoopFacts.

Import Router RouterFacts HandlerFacts Trace EventLoop.

Section Turns.

Variable OWNER_ID : option string.
Variable order : table -> list row.
Variable Number_toString : number -> string.

(** Run alone, the handler is the [async] function of [Router]. *)
Lemma run_interactionCreate (i : interaction) (w : world) :
  run (EventLoop.interactionCreate OWNER_ID order Number_toString i) w
  = Router.interactionCreate OWNER_ID order Number_toString i w.
Proof.
  unfold EventLoop.interactionCreate, Router.interactionCreate.
  destruct (negb (isCommand i) && negb (isChatInputCommand i)); [reflexivity |].
  destruct (String.eqb (commandName i) "balance").
  { unfold EventLoop.on_balance. cbn [run].
    destruct w as [[t |] [|] ev]; run_handler; reflexivity. }
  destruct (String.eqb (commandName i) "verify").
  { unfold EventLoop.on_verify, Router.on_verify.
    destruct (not_owner OWNER_ID i); cbn [run];
      destruct (getUser i "inviter"), (getUser i "member"), w as [[t |] [|] ev];
      run_handler; reflexivity. }
  destruct (String.eqb (commandName i) "unverify").
  { unfold EventLoop.on_unverify, Router.on_unverify.
    destruct (not_owner OWNER_ID i); cbn [run];
      destruct (getUser i "inviter"), (getUser i "member"), w as [[t |] [|] ev];
      run_handler; reflexivity. }
  destruct (String.eqb (commandName i) "leaderboard"); [| reflexivity].
  unfold EventLoop.on_leaderboard. cbn [run].
  destruct w as [[t |] [|] ev]; run_handler;
    try destruct (firstn 15 (order t)); reflexivity.
Qed.

Variable op : User.
Hypothesis Hown : OWNER_ID = Some (id op).

Local Open Scope nat_scope.

(** The turns of the handler of an effective verification, the database
    answering. *)
Lemma stage_start x :
  handler OWNER_ID order Number_toString op x
  = Await (deferReply false) (fun _ => stage OWNER_ID order Number_toString op x 1).
Proof.
  unfold handler, EventLoop.interactionCreate, EventLoop.on_verify, EventLoop.on_unverify.
  destruct x as [[|] m inv]; cbn [is_verify of_member of_inviter].
  - rewrite (@is_owner OWNER_ID (Schema.verification true op m inv) Hown). reflexivity.
  - rewrite (@is_owner OWNER_ID (Schema.verification false op m inv) Hown). reflexivity.
Qed.

Lemma turn_0 x w :
  step (stage OWNER_ID order Number_toString op x 0) w
  = (stage OWNER_ID order Number_toString op x 1, logged (DeferReply false) w).
Proof. cbn [stage]. rewrite stage_start. reflexivity. Qed.

Lemma turn_1 x w t :
  pool w = Some t -> online w = true ->
  step (stage OWNER_ID order Number_toString op x 1) w
  = (stage OWNER_ID order Number_toString op x 2,
     {| pool := Some (upsert t (fst (call_of x)) (snd (call_of x))); online := true;
        events := events w ++ [PoolQuery (UpsertBalance (fst (call_of x)) (snd (call_of x)))] |}).
Proof.
  intros Hp Ho. destruct w as [p o ev]. cbn in Hp, Ho. subst p o.
  destruct x as [[|] m inv]; reflexivity.
Qed.

Lemma turn_2 x w :
  step (stage OWNER_ID order Number_toString op x 2) w
  = (stage OWNER_ID order Number_toString op x 3, logged (EditReply (confirmation x)) w).
Proof. destruct x as [[|] m inv]; reflexivity. Qed.

Lemma stage_settled x n :
  settled (stage OWNER_ID order Number_toString op x n) = false -> n < 3.
Proof.
  destruct n as [| [| [| n]]]; intros H; try lia. discriminate H.
Qed.

Lemma upsert_all_snoc done c t :
  upsert_all (done ++ [c]) t = upsert (upsert_all done t) (fst c) (snd c).
Proof. unfold upsert_all. rewrite fold_left_app. reflexivity. Qed.

(** What holds all along an interleaving: every handler stands at one of its
    stages; the table is the table after the statements sent so far, in the
    order in which they ran; each statement still to be sent belongs to a
    handler that has not reached it; every turn leaves one event. *)
Lemma runs_invariant (t0 : table) ps w ps' w' :
  runs ps w ps' w' ->
  forall sts done,
    ps = map (stage_of OWNER_ID order Number_toString op) sts ->
    pool w = Some (upsert_all done t0) ->
    online w = true ->
    exists sts' done',
      ps' = map (stage_of OWNER_ID order Number_toString op) sts' /\
      map fst sts' = map fst sts /\
      pool w' = Some (upsert_all done' t0) /\
      online w' = true /\
      Permutation (done' ++ pending sts') (done ++ pending sts) /\
      List.length (events w') + turns_left sts' = List.length (events w) + turns_left sts.
Proof.
  induction 1 as [ps w | before p after w p' w1 ps' w2 Hns Hstep _ IH];
    intros sts done Hps Hp Ho.
  - exists sts, done. repeat split; auto.
  - symmetry in Hps. apply map_eq_app in Hps.
    destruct Hps as [l1 [l2' [-> [Hb Hrest]]]].
    apply map_eq_cons in Hrest. destruct Hrest as [[x n] [l2 [-> [Hpx Ha]]]].
    unfold stage_of in Hpx. cbn [fst snd] in Hpx. subst p before after.
    pose proof (stage_settled _ _ Hns) as Hn.
    unfold pending, turns_left in *.
    assert (Hcases : n = 0 \/ n = 1 \/ n = 2) by lia.
    destruct Hcases as [-> | [-> | ->]].
    + rewrite turn_0 in Hstep. pose proof (f_equal fst Hstep) as Ep. pose proof (f_equal snd Hstep) as Ew.
      cbn [fst snd] in Ep, Ew. subst p' w1. clear Hstep.
      destruct (IH (l1 ++ (x, 1) :: l2) done) as [sts' [done' [H1 [H2 [H3 [H4 [H5 H6]]]]]]].
      { rewrite map_app. reflexivity. }
      { exact Hp. }
      { exact Ho. }
      exists sts', done'. split; [exact H1 |]. split.
      { rewrite H2, !map_app. reflexivity. }
      split; [exact H3 |]. split; [exact H4 |]. split.
      { rewrite H5, !filter_app, !map_app. cbn [filter snd Nat.ltb Nat.leb map fst].
        reflexivity. }
      rewrite H6. cbn [logged events]. rewrite length_app, !map_app, !list_sum_app.
      cbn. lia.
    + rewrite (turn_1 x w Hp Ho) in Hstep. pose proof (f_equal fst Hstep) as Ep. pose proof (f_equal snd Hstep) as Ew.
      cbn [fst snd] in Ep, Ew. subst p' w1. clear Hstep.
      destruct (IH (l1 ++ (x, 2) :: l2) (done ++ [call_of x]))
        as [sts' [done' [H1 [H2 [H3 [H4 [H5 H6]]]]]]].
      { rewrite map_app. reflexivity. }
      { cbn [pool]. rewrite upsert_all_snoc. reflexivity. }
      { reflexivity. }
      exists sts', done'. split; [exact H1 |]. split.
      { rewrite H2, !map_app. reflexivity. }
      split; [exact H3 |]. split; [exact H4 |]. split.
      { rewrite H5, !filter_app, !map_app. cbn [filter snd Nat.ltb Nat.leb map fst].
        rewrite <- !app_assoc. apply Permutation_app_head.
        cbn [app]. apply Permutation_middle. }
      rewrite H6. cbn [events]. rewrite length_app, !map_app, !list_sum_app.
      cbn. lia.
    + rewrite turn_2 in Hstep. pose proof (f_equal fst Hstep) as Ep. pose proof (f_equal snd Hstep) as Ew.
      cbn [fst snd] in Ep, Ew. subst p' w1. clear Hstep.
      destruct (IH (l1 ++ (x, 3) :: l2) done) as [sts' [done' [H1 [H2 [H3 [H4 [H5 H6]]]]]]].
      { rewrite map_app. reflexivity. }
      { exact Hp. }
      { exact Ho. }
      exists sts', done'. split; [exact H1 |]. split.
      { rewrite H2, !map_app. reflexivity. }
      split; [exact H3 |]. split; [exact H4 |]. split.
      { rewrite H5, !filter_app, !map_app. cbn [filter snd Nat.ltb Nat.leb map fst].
        reflexivity. }
      rewrite H6. cbn [logged events]. rewrite length_app, !map_app, !list_sum_app.
      cbn. lia.
Qed.

Lemma pending_cons x k sts :
  pending ((x, k) :: sts) = (if Nat.ltb k 2 then [call_of x] else []) ++ pending sts.
Proof. unfold pending. cbn [filter snd]. destruct (Nat.ltb k 2); reflexivity. Qed.

Lemma turns_left_cons (x : request) k sts :
  turns_left ((x, k) :: sts) = 3 - k + turns_left sts.
Proof. reflexivity. Qed.

(** Handlers that have all returned have sent all their statements. *)
Lemma settled_stages (sts : list (request * nat)) :
  forallb settled (map (stage_of OWNER_ID order Number_toString op) sts) = true ->
  pending sts = [] /\ turns_left sts = 0 /\
  map (stage_of OWNER_ID order Number_toString op) sts = map (fun _ => Return tt) sts.
Proof.
  induction sts as [| [x n] sts IH]; intros H; [repeat split |].
  cbn [map forallb] in H. apply andb_prop in H. destruct H as [Hs H].
  destruct (IH H) as [H1 [H2 H3]].
  unfold stage_of in Hs. cbn [fst snd] in Hs.
  destruct n as [| [| [| n]]]; try discriminate Hs.
  - cbn [stage] in Hs. rewrite stage_start in Hs. discriminate Hs.
  - rewrite pending_cons, turns_left_cons, H1, H2. cbn [map]. rewrite H3.
    repeat split.
Qed.

Lemma starting_stages (xs : list request) :
  map (stage_of OWNER_ID order Number_toString op) (map (fun x => (x, 0)) xs)
  = map (handler OWNER_ID order Number_toString op) xs /\
  pending (map (fun x => (x, 0)) xs) = map call_of xs /\
  turns_left (map (fun x => (x, 0)) xs) = 3 * List.length xs /\
  map fst (map (fun x : request => (x, 0)) xs) = xs.
Proof.
  induction xs as [| x xs [H1 [H2 [H3 H4]]]]; [repeat split |].
  cbn [map List.length]. rewrite pending_cons, turns_left_cons, H1, H2, H3.
  cbn [fst]. rewrite H4. repeat split. lia.
Qed.

(** Taking the handlers one after the other is one of the interleavings:
    there is always a way to the end. *)
Lemma some_run_completes (sts : list (request * nat)) :
  forall (before : list (prog unit)) (w : world) (t : table),
  forallb settled before = true ->
  pool w = Some t ->
  online w = true ->
  exists ps' w',
    runs (before ++ map (stage_of OWNER_ID order Number_toString op) sts) w ps' w' /\
    forallb settled ps' = true.
Proof.
  induction sts as [| [x n] sts IH]; intros before w t Hb Hp Ho.
  - exists before, w. rewrite app_nil_r. split; [constructor | exact Hb].
  - cbn [map]. unfold stage_of at 1. cbn [fst snd].
    assert (Hlast : forall w3 t3, pool w3 = Some t3 -> online w3 = true ->
              exists ps' w',
                runs (before ++ stage OWNER_ID order Number_toString op x 3
                             :: map (stage_of OWNER_ID order Number_toString op) sts)
                  w3 ps' w' /\ forallb settled ps' = true).
    { intros w3 t3 Hp3 Ho3.
      destruct (IH (before ++ [stage OWNER_ID order Number_toString op x 3]) w3 t3)
        as [ps' [w' [Hr Hs]]]; [| exact Hp3 | exact Ho3 |].
      - rewrite forallb_app, Hb. reflexivity.
      - rewrite <- app_assoc in Hr. exists ps', w'. split; assumption. }
    assert (H2 : forall w2 t2, pool w2 = Some t2 -> online w2 = true ->
              exists ps' w',
                runs (before ++ stage OWNER_ID order Number_toString op x 2
                             :: map (stage_of OWNER_ID order Number_toString op) sts)
                  w2 ps' w' /\ forallb settled ps' = true).
    { intros w2 t2 Hp2 Ho2.
      destruct (Hlast (logged (EditReply (confirmation x)) w2) t2 Hp2 Ho2)
        as [ps' [w' [Hr Hs]]].
      exists ps', w'. split; [| exact Hs].
      eapply runs_turn; [| apply turn_2 | exact Hr].
      destruct x as [[|] m inv]; reflexivity. }
    assert (H1 : forall w1 t1, pool w1 = Some t1 -> online w1 = true ->
              exists ps' w',
                runs (before ++ stage OWNER_ID order Number_toString op x 1
                             :: map (stage_of OWNER_ID order Number_toString op) sts)
                  w1 ps' w' /\ forallb settled ps' = true).
    { intros w1 t1 Hp1 Ho1.
      destruct (H2 {| pool := Some (upsert t1 (fst (call_of x)) (snd (call_of x)));
                      online := true;
                      events := events w1
                                ++ [PoolQuery (UpsertBalance (fst (call_of x))
                                                 (snd (call_of x)))] |}
                  _ eq_refl eq_refl) as [ps' [w' [Hr Hs]]].
      exists ps', w'. split; [| exact Hs].
      eapply runs_turn; [| apply (turn_1 x w1 Hp1 Ho1) | exact Hr].
      destruct x as [[|] m inv]; reflexivity. }
    destruct n as [| [| [| n]]].
    + destruct (H1 (logged (DeferReply false) w) t Hp Ho) as [ps' [w' [Hr Hs]]].
      exists ps', w'. split; [| exact Hs].
      eapply runs_turn; [| apply turn_0 | exact Hr].
      cbn [stage]. rewrite stage_start. reflexivity.
    + apply (H1 w t Hp Ho).
    + apply (H2 w t Hp Ho).
    + apply (Hlast w t Hp Ho).
Qed.

End Turns.

End EventLoopFacts.

Section InFlight.

Import Router RouterFacts HandlerFacts Trace PgFacts TableFacts.
Import Interleaving InterleavingFacts SequenceFacts TallyFacts EventLoop EventLoopFacts.

Variable OWNER_ID : option string.
Variable order : table -> list row.
Variable Number_toString : number -> string.

(** X25.  No update is lost between handlers.  Let the handlers of any
    number of verifications and unverifications by the operator be in flight
    together, with a database that answers, each suspended at its awaits
    while the others take their turns.  In every interleaving that runs them
    to the end, every handler returns normally, the statements have run once
    each in some order (the table is the table after the upserts of an
    arrangement of the calls), and each handler has left its three events. *)
Theorem concurrent_verifications_lose_nothing (op : User) (xs : list request)
    (w w' : world) (t : table) (ps' : list (prog unit)) :
  OWNER_ID = Some (id op) ->
  pool w = Some t ->
  online w = true ->
  runs (map (handler OWNER_ID order Number_toString op) xs) w ps' w' ->
  forallb settled ps' = true ->
  ps' = map (fun _ => Return tt) xs /\
  exists schedule,
    Permutation schedule (map call_of xs) /\
    pool w' = Some (upsert_all schedule t) /\
    online w' = true /\
    List.length (events w') = List.length (events w) + 3 * List.length xs.
Proof.
  intros Hown Hp Ho Hrun Hend.
  destruct (@starting_stages OWNER_ID order Number_toString op xs) as [S1 [S2 [S3 S4]]].
  destruct (@runs_invariant OWNER_ID order Number_toString op Hown t _ _ _ _ Hrun
              (map (fun x => (x, 0)) xs) [])
    as [sts' [done' [H1 [H2 [H3 [H4 [H5 H6]]]]]]];
    [symmetry; exact S1 | exact Hp | exact Ho |].
  rewrite H1 in Hend.
  destruct (@settled_stages OWNER_ID order Number_toString op Hown sts' Hend) as [E1 [E2 E3]].
  rewrite E1, app_nil_r, S2 in H5. rewrite E2, S3 in H6. rewrite S4 in H2.
  split.
  - rewrite H1, E3, <- H2, map_map. reflexivity.
  - exists done'. split; [exact H5 |]. split; [exact H3 |]. split; [exact H4 |]. lia.
Qed.

(** X26.  And the balance shown after them is exact.  When the handlers in
    flight are at most 1000000 verifications and unverifications of one
    inviter who had no row, then after any interleaving that runs them to the
    end the [balance] command shows 0.20 times the verifications less the
    unverifications, to the cent (a count of zero possibly as [-0.00]). *)
Theorem concurrent_verifications_display_exactly (op inviter : User) (xs : list request)
    (w w' : world) (t : table) (ps' : list (prog unit)) :
  OWNER_ID = Some (id op) ->
  pool w = Some t ->
  online w = true ->
  stored t (id inviter) = None ->
  Forall (fun x => of_inviter x = inviter) xs ->
  (Z.of_nat (List.length xs) <= 1000000)%Z ->
  runs (map (handler OWNER_ID order Number_toString op) xs) w ps' w' ->
  forallb settled ps' = true ->
  exists w'' earlier sign,
    Router.interactionCreate OWNER_ID order Number_toString
      (Schema.invocation "balance" inviter []) w'
    = (Fulfilled tt, w'') /\
    events w''
    = earlier ++ [EditReply ("💰 Your current balance is **" ++ sign
                             ++ with_two_decimals (20 * Z.abs (net (map is_verify xs)))
                             ++ "**")] /\
    ((0 < net (map is_verify xs))%Z -> sign = "") /\
    ((net (map is_verify xs) < 0)%Z -> sign = "-") /\
    (sign = "" \/ sign = "-").
Proof.
  intros Hown Hp Ho Hnone Hsame Hlen Hrun Hend.
  destruct (@starting_stages OWNER_ID order Number_toString op xs) as [S1 [S2 [S3 S4]]].
  destruct (@runs_invariant OWNER_ID order Number_toString op Hown t _ _ _ _ Hrun
              (map (fun x => (x, 0)) xs) [])
    as [sts' [done' [H1 [H2 [H3 [H4 [H5 H6]]]]]]];
    [symmetry; exact S1 | exact Hp | exact Ho |].
  rewrite H1 in Hend.
  destruct (@settled_stages OWNER_ID order Number_toString op Hown sts' Hend) as [E1 [E2 E3]].
  rewrite E1, app_nil_r, S2 in H5. cbn [app] in H5.
  assert (Hcalls : map call_of xs
                   = map (fun v => (id inviter, amount v)) (map is_verify xs)).
  { rewrite map_map. apply map_ext_Forall.
    eapply Forall_impl; [| exact Hsame]. intros x Hx. unfold call_of. rewrite Hx.
    reflexivity. }
  rewrite Hcalls in H5.
  apply Permutation_map_inv in H5. destruct H5 as [ops [-> Hops]].
  set (ib := Schema.invocation "balance" inviter []).
  rewrite (@dispatch_balance OWNER_ID order Number_toString ib eq_refl eq_refl).
  rewrite (@on_balance_online order Number_toString ib w' _ H3 H4).
  change (id (user ib)) with (id inviter).
  rewrite stored_upsert_all, deltas_for_amounts, Hnone.
  destruct (@tally_toFixed Number_toString ops) as [sign [Hshown Hsign]].
  { rewrite <- (Permutation_length Hops), length_map. exact Hlen. }
  assert (Hnet : net ops = net (map is_verify xs)).
  { unfold net.
    rewrite !(proj1 (Permutation_count_occ Bool.bool_dec (map is_verify xs) ops) Hops).
    reflexivity. }
  rewrite Hnet in Hshown, Hsign.
  unfold balance_text, Router.toFixed2. rewrite Hshown.
  eexists.
  exists (events w' ++ [DeferReply true; PoolQuery (SelectBalance (id inviter))]), sign.
  split; [reflexivity |]. split; [| exact Hsign].
  cbn [events]. rewrite <- !app_assoc. cbn [app].
  rewrite string_app_assoc. reflexivity.
Qed.

End InFlight.

Module RaceFacts.

Import Router RouterFacts HandlerFacts Trace PgFacts EventLoop EventLoopFacts.

Section Race.

Variable OWNER_ID : option string.
Variable order : table -> list row.
Variable Number_toString : number -> string.

(** The turns of a [balance] handler, the database answering. *)
Lemma balance_turn_0 i b w :
  step (balance_stage order Number_toString i b 0) w
  = (balance_stage order Number_toString i b 1, logged (DeferReply true) w).
Proof. reflexivity. Qed.

Lemma balance_turn_1 i b w t :
  pool w = Some t -> online w = true ->
  step (balance_stage order Number_toString i b 1) w
  = (balance_stage order Number_toString i (read t (id (user i))) 2,
     logged (PoolQuery (SelectBalance (id (user i)))) w).
Proof.
  intros Hp Ho. cbn [balance_stage step]. unfold Router.getBalance.
  rewrite (getBalance_online order (id (user i)) w Hp Ho). reflexivity.
Qed.

Lemma balance_turn_2 i b w :
  step (balance_stage order Number_toString i b 2) w
  = (balance_stage order Number_toString i b 3,
     logged (EditReply (balance_text Number_toString b)) w).
Proof. reflexivity. Qed.

Lemma balance_stage_settled i b n :
  settled (balance_stage order Number_toString i b n) = false -> n < 3.
Proof. destruct n as [| [| [| n]]]; intros H; try lia. discriminate H. Qed.

Lemma two_in_flight {A} (before after : list A) p a b :
  before ++ p :: after = [a; b] ->
  (before = [] /\ p = a /\ after = [b]) \/ (before = [a] /\ p = b /\ after = []).
Proof.
  destruct before as [| x [| y before]]; cbn; intros H.
  - inversion H. left. repeat split.
  - inversion H. right. repeat split.
  - inversion H. destruct before; discriminate.
Qed.

Variable op : User.
Hypothesis Hown : OWNER_ID = Some (id op).

Variable x : request.
Variable i : interaction.
Variable t : table.

(** What holds all along the race of a verification and a [balance]
    command: the table is the old one until the statement has run and the
    new one from then on; what the SELECT read is what one of the two
    holds; what has been shown is what was read. *)
Lemma race_invariant ps w ps' w' :
  runs ps w ps' w' ->
  forall n1 n2 b,
    ps = [stage OWNER_ID order Number_toString op x n1;
          balance_stage order Number_toString i b n2] ->
    online w = true ->
    pool w = Some (if Nat.ltb n1 2 then t
                   else upsert t (fst (call_of x)) (snd (call_of x))) ->
    (2 <= n2 ->
     b = read t (id (user i))
     \/ b = read (upsert t (fst (call_of x)) (snd (call_of x))) (id (user i))) ->
    (3 <= n2 -> In (EditReply (balance_text Number_toString b)) (events w)) ->
    exists n1' n2' b',
      ps' = [stage OWNER_ID order Number_toString op x n1';
             balance_stage order Number_toString i b' n2'] /\
      online w' = true /\
      pool w' = Some (if Nat.ltb n1' 2 then t
                      else upsert t (fst (call_of x)) (snd (call_of x))) /\
      (2 <= n2' ->
       b' = read t (id (user i))
       \/ b' = read (upsert t (fst (call_of x)) (snd (call_of x))) (id (user i))) /\
      (3 <= n2' -> In (EditReply (balance_text Number_toString b')) (events w')).
Proof.
  induction 1 as [ps w | before p after w p' w1 ps' w2 Hns Hstep _ IH];
    intros n1 n2 b Hps Ho Hp Hread Hshown.
  - exists n1, n2, b. repeat split; assumption.
  - apply two_in_flight in Hps. destruct Hps as [[-> [-> ->]] | [-> [-> ->]]].
    + (* the verification takes its turn *)
      pose proof (@stage_settled OWNER_ID order Number_toString op x n1 Hns) as Hn.
      assert (Hcases : n1 = 0 \/ n1 = 1 \/ n1 = 2) by lia.
      destruct Hcases as [-> | [-> | ->]].
      * rewrite (@turn_0 OWNER_ID order Number_toString op Hown x w) in Hstep.
        pose proof (f_equal fst Hstep) as Ep. pose proof (f_equal snd Hstep) as Ew.
        cbn [fst snd] in Ep, Ew. subst p' w1.
        apply (IH 1 n2 b); [reflexivity | exact Ho | exact Hp | exact Hread |].
        intros H3. cbn [logged events]. apply in_or_app. left. exact (Hshown H3).
      * rewrite (@turn_1 OWNER_ID order Number_toString op x w _ Hp Ho) in Hstep.
        pose proof (f_equal fst Hstep) as Ep. pose proof (f_equal snd Hstep) as Ew.
        cbn [fst snd] in Ep, Ew. subst p' w1.
        apply (IH 2 n2 b); [reflexivity | reflexivity | reflexivity | exact Hread |].
        intros H3. cbn [events]. apply in_or_app. left. exact (Hshown H3).
      * rewrite (@turn_2 OWNER_ID order Number_toString op x w) in Hstep.
        pose proof (f_equal fst Hstep) as Ep. pose proof (f_equal snd Hstep) as Ew.
        cbn [fst snd] in Ep, Ew. subst p' w1.
        apply (IH 3 n2 b); [reflexivity | exact Ho | exact Hp | exact Hread |].
        intros H3. cbn [logged events]. apply in_or_app. left. exact (Hshown H3).
    + (* the balance command takes its turn *)
      pose proof (balance_stage_settled _ _ _ Hns) as Hn.
      assert (Hcases : n2 = 0 \/ n2 = 1 \/ n2 = 2) by lia.
      destruct Hcases as [-> | [-> | ->]].
      * rewrite balance_turn_0 in Hstep.
        pose proof (f_equal fst Hstep) as Ep. pose proof (f_equal snd Hstep) as Ew.
        cbn [fst snd] in Ep, Ew. subst p' w1.
        apply (IH n1 1 b); [reflexivity | exact Ho | exact Hp | lia | lia].
      * rewrite (balance_turn_1 i b w Hp Ho) in Hstep.
        pose proof (f_equal fst Hstep) as Ep. pose proof (f_equal snd Hstep) as Ew.
        cbn [fst snd] in Ep, Ew. subst p' w1.
        apply (IH n1 2 (read (if Nat.ltb n1 2 then t else upsert t (fst (call_of x)) (snd (call_of x))) (id (user i)))); [reflexivity | exact Ho | exact Hp | | lia].
        intros _. destruct (Nat.ltb n1 2); [left | right]; reflexivity.
      * rewrite balance_turn_2 in Hstep.
        pose proof (f_equal fst Hstep) as Ep. pose proof (f_equal snd Hstep) as Ew.
        cbn [fst snd] in Ep, Ew. subst p' w1.
        apply (IH n1 3 b); [reflexivity | exact Ho | exact Hp | intros _; apply Hread; lia |].
        intros _. cbn [logged events]. apply in_or_app. right. left. reflexivity.
Qed.

End Race.

End RaceFacts.

Section Racing.

Import Router RouterFacts HandlerFacts Trace EventLoop EventLoopFacts RaceFacts.

Variable OWNER_ID : option string.
Variable order : table -> list row.
Variable Number_toString : number -> string.

(** X27.  A read is never torn.  Let the operator's verification or
    unverification and somebody's [balance] command be in flight together,
    with a database that answers.  In every interleaving that runs both to
    the end, the statement has run once, and the balance shown is the one
    read from the table before the statement or the one read from the table
    after it. *)
Theorem balance_racing_a_verification (op asker : User) (x : request)
    (w w' : world) (t : table) (ps' : list (prog unit)) :
  OWNER_ID = Some (id op) ->
  pool w = Some t ->
  online w = true ->
  runs [handler OWNER_ID order Number_toString op x;
        EventLoop.interactionCreate OWNER_ID order Number_toString
          (Schema.invocation "balance" asker [])] w ps' w' ->
  forallb settled ps' = true ->
  ps' = [Return tt; Return tt] /\
  pool w' = Some (upsert t (fst (call_of x)) (snd (call_of x))) /\
  exists shown,
    In (EditReply (balance_text Number_toString shown)) (events w') /\
    (shown = read t (id asker)
     \/ shown = read (upsert t (fst (call_of x)) (snd (call_of x))) (id asker)).
Proof.
  intros Hown Hp Ho Hrun Hend.
  destruct (@race_invariant OWNER_ID order Number_toString op Hown x
              (Schema.invocation "balance" asker []) t _ _ _ _ Hrun 0 0 zero)
    as [n1 [n2 [b [H1 [H2 [H3 [H4 H5]]]]]]];
    [reflexivity | exact Ho | exact Hp | lia | lia |].
  subst ps'. cbn [forallb] in Hend.
  apply andb_prop in Hend. destruct Hend as [E1 E2].
  apply andb_prop in E2. destruct E2 as [E2 _].
  assert (Hn1 : 3 <= n1).
  { destruct n1 as [| [| [| n1]]]; try lia; try discriminate E1.
    cbn [stage] in E1. rewrite (@stage_start OWNER_ID order Number_toString op Hown x) in E1.
    discriminate E1. }
  assert (Hn2 : 3 <= n2).
  { destruct n2 as [| [| [| n2]]]; try lia; discriminate E2. }
  split.
  - destruct n1 as [| [| [| n1]]]; try lia. destruct n2 as [| [| [| n2]]]; try lia.
    reflexivity.
  - split.
    + rewrite H3. destruct n1 as [| [| n1]]; try lia. reflexivity.
    + exists b. split; [apply H5, Hn2 | apply H4; lia].
Qed.

End Racing.

(* ================================================================== *)
(** * Instances *)
(* ================================================================== *)

(** X5 for a [leaderboard] command while the database is down. *)
Lemma every_command_is_answered_witness :
  exists w' ack rest,
    Router.interactionCreate (Some "1") stable_order Sample.exponent_notation
      (Schema.invocation "leaderboard" Sample.alice []) Sample.failing
    = (Fulfilled tt, w') /\
    events w' = events Sample.failing ++ ack :: rest /\
    Trace.is_ack ack = true /\
    List.length (filter Trace.is_content (ack :: rest)) = 1 /\
    online w' = online Sample.failing.
Proof.
  exact (@every_command_is_answered (Some "1") stable_order Sample.exponent_notation
           (Schema.invocation "leaderboard" Sample.alice []) Sample.failing
           eq_refl (or_intror (or_intror (or_intror (or_introl eq_refl))))).
Defined.

(** X8 for the operator's [verify] with a member and no inviter. *)
Lemma verify_without_inviter_witness :
  Router.interactionCreate (Some "1") stable_order Sample.exponent_notation
    (Schema.invocation "verify" Sample.operator [("member", Sample.bob)]) Sample.answering
  = (Fulfilled tt,
     {| pool := Some []; online := true;
        events := [DeferReply false;
                   ConsoleError "Verify error:";
                   EditReply "Error updating balance."] |}).
Proof.
  exact (proj1
    (@verify_without_inviter (Some "1") stable_order Sample.exponent_notation
       (Schema.invocation "verify" Sample.operator [("member", Sample.bob)])
       Sample.answering eq_refl eq_refl eq_refl) eq_refl).
Defined.

(** X9 for the operator's [verify] with an inviter and no member. *)
Lemma verify_without_member_witness :
  Router.interactionCreate (Some "1") stable_order Sample.exponent_notation
    (Schema.invocation "verify" Sample.operator [("inviter", Sample.alice)]) Sample.answering
  = (Fulfilled tt,
     {| pool := Some [ {| user_id := "2"; balance := two_tenths |} ]; online := true;
        events := [DeferReply false;
                   PoolQuery (UpsertBalance "2" two_tenths);
                   ConsoleError "Verify error:";
                   EditReply "Error updating balance."] |}).
Proof.
  exact (proj1
    (@verify_without_member (Some "1") stable_order Sample.exponent_notation
       (Schema.invocation "verify" Sample.operator [("inviter", Sample.alice)])
       Sample.answering [] Sample.alice eq_refl eq_refl eq_refl eq_refl eq_refl eq_refl)
    eq_refl).
Defined.

(** X10 for the operator's [verify] with both options. *)
Lemma conforming_invocation_logs_no_error_witness :
  exists w',
    Router.interactionCreate (Some "1") stable_order Sample.exponent_notation
      Sample.verify_bob_by_alice Sample.answering
    = (Fulfilled tt, w') /\
    filter Trace.is_console_error (events w')
    = filter Trace.is_console_error (events Sample.answering).
Proof.
  apply (@conforming_invocation_logs_no_error (Some "1") stable_order
           Sample.exponent_notation Sample.verify_bob_by_alice Sample.answering
           {| Schema.name := "verify";
              Schema.description := "Verify who invited a new member (owner only)";
              Schema.user_options :=
                [ {| Schema.option_name := "member";
                     Schema.option_description := "Member who was invited";
                     Schema.required := true |};
                  {| Schema.option_name := "inviter";
                     Schema.option_description := "User who invited the member";
                     Schema.required := true |} ] |}).
  - reflexivity.
  - right. left. reflexivity.
  - split; [reflexivity |].
    intros o [<- | [<- | []]] _; eexists; reflexivity.
  - right. reflexivity.
Defined.

(** X11 for three verifications: the balance shown is 0.60. *)
Lemma credits_display_exactly_witness :
  exists w' earlier,
    (Trace.times 3
       (Router.interactionCreate (Some "1") stable_order Sample.exponent_notation
          Sample.verify_bob_by_alice) ;;
     Router.interactionCreate (Some "1") stable_order Sample.exponent_notation
       (Schema.invocation "balance" Sample.alice [])) Sample.answering
    = (Fulfilled tt, w') /\
    events w'
    = earlier ++ [EditReply ("💰 Your current balance is **"
                             ++ with_two_decimals (20 * Z.of_nat 3) ++ "**")].
Proof.
  apply (@credits_display_exactly (Some "1") stable_order Sample.exponent_notation 3
           Sample.operator Sample.bob Sample.alice Sample.answering []);
    [reflexivity | reflexivity | reflexivity | reflexivity | cbn; lia].
Defined.

(** X12 on an empty store. *)
Lemma verify_then_unverify_leaves_a_zero_row_witness :
  exists w' t' earlier,
    (Router.interactionCreate (Some "1") stable_order Sample.exponent_notation
       Sample.verify_bob_by_alice ;;
     Router.interactionCreate (Some "1") stable_order Sample.exponent_notation
       (Schema.invocation "unverify" Sample.operator
          [("member", Sample.bob); ("inviter", Sample.alice)]) ;;
     Router.interactionCreate (Some "1") stable_order Sample.exponent_notation
       (Schema.invocation "leaderboard" Sample.bob [])) Sample.answering
    = (Fulfilled tt, w') /\
    pool w' = Some t' /\
    stored t' "2" = Some zero /\
    (@nil row = [] ->
     events w'
     = earlier ++ [EditReply ("🏆 **Top 15 Leaderboard**" ++ Router.newline ++ Router.newline
                              ++ "1. <@" ++ "2" ++ "> — **0.00**")]).
Proof.
  exact (@verify_then_unverify_leaves_a_zero_row (Some "1") stable_order
           Sample.exponent_notation Sample.operator Sample.bob Sample.alice Sample.bob
           Sample.answering [] eq_refl EngineFacts.stable_order_lawful
           eq_refl eq_refl eq_refl).
Defined.


(** X14 at a table of two rows with [LIMIT 1]. *)
Lemma leaderboard_is_the_top_witness :
  exists rows,
    fst (Pg.getLeaderboard stable_order (Some 1)
           {| pool := Some [ {| user_id := "1"; balance := zero |};
                             {| user_id := "2"; balance := two_tenths |} ];
              online := true; events := [] |})
    = Fulfilled rows /\
    NoDup (map user_id rows).
Proof.
  destruct (@leaderboard_is_the_top stable_order
              {| pool := Some [ {| user_id := "1"; balance := zero |};
                                {| user_id := "2"; balance := two_tenths |} ];
                 online := true; events := [] |}
              [ {| user_id := "1"; balance := zero |};
                {| user_id := "2"; balance := two_tenths |} ] 1
              EngineFacts.stable_order_lawful)
    as [rows [H1 [H2 _]]].
  - cbn. constructor; [intros [H | []]; discriminate |].
    constructor; [intros [] | constructor].
  - reflexivity.
  - reflexivity.
  - exists rows. split; assumption.
Defined.

(** X15 for "A_b": the capital is lowered, the underscore is dropped; and for
    "_." the name is the bare prefix. *)
Lemma channelName_forgets_witness :
  Provisioner.channelName (fun c => [c]) (Provisioner.of_ascii "A_b")
  = Provisioner.channelName (fun c => [c]) (Provisioner.of_ascii "a_b") /\
  Provisioner.channelName (fun c => [c]) (Provisioner.of_ascii "A_b")
  = Provisioner.channelName (fun c => [c]) (Provisioner.of_ascii "Ab") /\
  Provisioner.channelName (fun c => [c]) (Provisioner.of_ascii "_.")
  = Provisioner.of_ascii "verify-".
Proof.
  split; [| split].
  - exact (proj1 (@channelName_forgets (fun c => [c]) [] (Provisioner.of_ascii "_b") 65%N)
             eq_refl).
  - exact (proj1 (proj2 (@channelName_forgets (fun c => [c]) (Provisioner.of_ascii "A")
                           (Provisioner.of_ascii "b") 95%N))
             eq_refl eq_refl eq_refl).
  - apply (proj2 (proj2 (@channelName_forgets (fun c => [c]) (Provisioner.of_ascii "_.")
                           [] 0%N))).
    repeat constructor.
Defined.

(** X16 for "Bob". *)
Lemma channelName_is_normal_witness :
  (List.length (Provisioner.channelName (fun c => [c]) (Provisioner.of_ascii "Bob"))
   <= 7 + List.length (Provisioner.of_ascii "Bob"))%nat.
Proof.
  apply (proj2 (proj2 (@channelName_is_normal (fun c => [c]) (Provisioner.of_ascii "Bob")))).
  repeat constructor.
Defined.

(** X21 for a [balance] command while the database is down. *)
Lemma reply_visibility_witness :
  exists rest,
    events (snd (Router.interactionCreate (Some "1") stable_order Sample.exponent_notation
                   (Schema.invocation "balance" Sample.alice []) Sample.failing))
    = events Sample.failing ++ DeferReply true :: rest.
Proof.
  exact (proj1
    (@reply_visibility (Some "1") stable_order Sample.exponent_notation
       (Schema.invocation "balance" Sample.alice []) Sample.failing eq_refl) eq_refl).
Defined.

(** X19 for a verification against a database whose statements fail. *)
Lemma sqlite_verify_is_unguarded_witness :
  SqliteRouter.interactionCreate (Some "1") stable_order Sample.exponent_notation
    Sample.verify_bob_by_alice Sample.sqlite_failing
  = (Rejected,
     {| SqliteRouter.db := {| Sqlite.contents := []; Sqlite.healthy := false |};
        SqliteRouter.replies :=
          [DeferReply false;
           EditReply (Router.verified_text Sample.bob Sample.alice)] |}).
Proof.
  exact (proj2
    (proj1 (@sqlite_verify_is_unguarded (Some "1") stable_order Sample.exponent_notation
              Sample.verify_bob_by_alice Sample.sqlite_failing eq_refl eq_refl eq_refl)
       Sample.bob Sample.alice eq_refl eq_refl) eq_refl).
Defined.

(** X22 for a [balance] command. *)
Lemma sqlite_reads_report_failure_witness :
  SqliteRouter.interactionCreate (Some "1") stable_order Sample.exponent_notation
    (Schema.invocation "balance" Sample.alice []) Sample.sqlite_failing
  = (Fulfilled tt,
     {| SqliteRouter.db := SqliteRouter.db Sample.sqlite_failing;
        SqliteRouter.replies :=
          [DeferReply true; EditReply "Error retrieving your balance."] |}).
Proof.
  exact (proj1
    (@sqlite_reads_report_failure (Some "1") stable_order Sample.exponent_notation
       (Schema.invocation "balance" Sample.alice []) Sample.sqlite_failing
       eq_refl eq_refl) eq_refl).
Defined.

(** X23 for a verification, an unverification and a verification. *)
Lemma any_sequence_displays_exactly_witness :
  exists w' earlier sign,
    (Trace.sequence
       (map (fun v => Router.interactionCreate (Some "1") stable_order Sample.exponent_notation
                        (Schema.verification v Sample.operator Sample.bob Sample.alice))
            [true; false; true]) ;;
     Router.interactionCreate (Some "1") stable_order Sample.exponent_notation
       (Schema.invocation "balance" Sample.alice [])) Sample.answering
    = (Fulfilled tt, w') /\
    events w'
    = earlier ++ [EditReply ("💰 Your current balance is **" ++ sign
                             ++ with_two_decimals (20 * Z.abs (Trace.net [true; false; true]))
                             ++ "**")] /\
    (sign = "" \/ sign = "-").
Proof.
  destruct (@any_sequence_displays_exactly (Some "1") stable_order Sample.exponent_notation
              [true; false; true] Sample.operator Sample.bob Sample.alice
              Sample.answering [] eq_refl eq_refl eq_refl eq_refl)
    as [w' [earlier [sign [H1 [H2 [_ [_ H3]]]]]]].
  - cbn. lia.
  - exists w', earlier, sign. split; [exact H1 |]. split; [exact H2 | exact H3].
Defined.

(** The zero that X23 allows to be shown with a minus sign: three
    unverifications and then three verifications leave -2^-54, shown as
    -0.00. *)
Example a_zero_balance_shown_negative :
  fst (Pg.getBalance stable_order "2"
         {| pool := Some (upsert_all
                            (map (fun v => ("2", Trace.amount v))
                               [false; false; false; true; true; true]) []);
            online := true; events := [] |})
  = Fulfilled (S754_finite true 4503599627370496 (-106)) /\
  Number.toFixed2 Sample.exponent_notation (S754_finite true 4503599627370496 (-106))
  = "-0.00".
Proof. split; vm_compute; reflexivity. Qed.

(** X24 at a stored balance of 0.4. *)
Lemma debit_then_credit_restores_witness :
  exists r,
    fst ((Pg.addBalance stable_order "u" (neg two_tenths) ;;
          Pg.addBalance stable_order "u" two_tenths ;;
          Pg.getBalance stable_order "u")
           {| pool := Some [ {| user_id := "u"; balance := add two_tenths two_tenths |} ];
              online := true; events := [] |}) = Fulfilled r /\
    (Qabs (to_Q r - to_Q (add two_tenths two_tenths)) <= 1 # 1000000000)%Q.
Proof.
  destruct (@debit_then_credit_restores stable_order
              {| pool := Some [ {| user_id := "u"; balance := add two_tenths two_tenths |} ];
                 online := true; events := [] |}
              [ {| user_id := "u"; balance := add two_tenths two_tenths |} ] "u"
              eq_refl eq_refl)
    as [r [H1 [_ H2]]].
  - intros b Hb. vm_compute in Hb. inversion Hb; subst b.
    split; [reflexivity |]. split; [reflexivity |]. vm_compute. discriminate.
  - exists r. split; [exact H1 | exact H2].
Defined.

(** A verification and an unverification of the same inviter in flight
    together: both are acknowledged, the unverification's statement runs
    first, then the verification's, then the verification is confirmed, then
    the unverification. *)
Example an_interleaving :
  exists ps' w',
    EventLoop.runs
      (map (EventLoop.handler (Some "1") stable_order Sample.exponent_notation Sample.operator)
         Sample.in_flight)
      Sample.answering ps' w' /\
    forallb EventLoop.settled ps' = true /\
    pool w' = Some [ {| user_id := "2"; balance := add (neg two_tenths) two_tenths |} ].
Proof.
  do 2 eexists. split.
  - unfold Sample.in_flight. cbn [map].
    eapply (@EventLoop.runs_turn [] _ [_]); [reflexivity | reflexivity |].
    eapply (@EventLoop.runs_turn [_] _ []); [reflexivity | reflexivity |].
    eapply (@EventLoop.runs_turn [_] _ []); [reflexivity | reflexivity |].
    eapply (@EventLoop.runs_turn [] _ [_]); [reflexivity | reflexivity |].
    eapply (@EventLoop.runs_turn [] _ [_]); [reflexivity | reflexivity |].
    eapply (@EventLoop.runs_turn [_] _ []); [reflexivity | reflexivity |].
    apply EventLoop.runs_stop.
  - split; reflexivity.
Qed.

(** X25 at that interleaving. *)
Lemma concurrent_verifications_lose_nothing_witness :
  exists ps' w' schedule,
    EventLoop.runs
      (map (EventLoop.handler (Some "1") stable_order Sample.exponent_notation Sample.operator)
         Sample.in_flight)
      Sample.answering ps' w' /\
    ps' = [EventLoop.Return tt; EventLoop.Return tt] /\
    Permutation schedule [("2", two_tenths); ("2", neg two_tenths)] /\
    pool w' = Some (upsert_all schedule []).
Proof.
  destruct an_interleaving as [ps' [w' [Hrun [Hend _]]]].
  destruct (@concurrent_verifications_lose_nothing (Some "1") stable_order
              Sample.exponent_notation Sample.operator Sample.in_flight Sample.answering
              w' [] ps' eq_refl eq_refl eq_refl Hrun Hend)
    as [H1 [schedule [H2 [H3 _]]]].
  exists ps', w', schedule. split; [exact Hrun |]. split; [exact H1 |].
  split; [exact H2 | exact H3].
Defined.

(** X26 at that interleaving: the balance shown is 0.00 or -0.00. *)
Lemma concurrent_verifications_display_exactly_witness :
  exists w' w'' earlier sign,
    Router.interactionCreate (Some "1") stable_order Sample.exponent_notation
      (Schema.invocation "balance" Sample.alice []) w'
    = (Fulfilled tt, w'') /\
    events w''
    = earlier ++ [EditReply ("💰 Your current balance is **" ++ sign
                             ++ with_two_decimals
                                  (20 * Z.abs (Trace.net
                                                 (map EventLoop.is_verify Sample.in_flight)))
                             ++ "**")].
Proof.
  destruct an_interleaving as [ps' [w' [Hrun [Hend _]]]].
  assert (Hsame : Forall (fun x => EventLoop.of_inviter x = Sample.alice) Sample.in_flight)
    by (repeat constructor).
  assert (Hlen : (Z.of_nat (List.length Sample.in_flight) <= 1000000)%Z) by (cbn; lia).
  destruct (@concurrent_verifications_display_exactly (Some "1") stable_order
              Sample.exponent_notation Sample.operator Sample.alice Sample.in_flight
              Sample.answering w' [] ps' eq_refl eq_refl eq_refl eq_refl Hsame Hlen
              Hrun Hend)
    as [w'' [earlier [sign [H1 [H2 _]]]]].
  exists w', w'', earlier, sign. split; [exact H1 | exact H2].
Defined.

(** An interleaving of a verification credited to alice and alice's own
    [balance] command: both are acknowledged, the SELECT runs, then the
    verification's statement, then the balance is shown, then the
    verification is confirmed. *)
Example a_read_before_the_credit :
  exists ps' w',
    EventLoop.runs
      [EventLoop.handler (Some "1") stable_order Sample.exponent_notation Sample.operator
         {| EventLoop.is_verify := true; EventLoop.of_member := Sample.bob;
            EventLoop.of_inviter := Sample.alice |};
       EventLoop.interactionCreate (Some "1") stable_order Sample.exponent_notation
         (Schema.invocation "balance" Sample.alice [])]
      Sample.answering ps' w' /\
    forallb EventLoop.settled ps' = true /\
    In (EditReply "💰 Your current balance is **0.00**") (events w').
Proof.
  do 2 eexists. split.
  - eapply (@EventLoop.runs_turn [] _ [_]); [reflexivity | reflexivity |].
    eapply (@EventLoop.runs_turn [_] _ []); [reflexivity | reflexivity |].
    eapply (@EventLoop.runs_turn [_] _ []); [reflexivity | reflexivity |].
    eapply (@EventLoop.runs_turn [] _ [_]); [reflexivity | reflexivity |].
    eapply (@EventLoop.runs_turn [_] _ []); [reflexivity | reflexivity |].
    eapply (@EventLoop.runs_turn [] _ [_]); [reflexivity | reflexivity |].
    apply EventLoop.runs_stop.
  - split; [reflexivity |]. vm_compute. tauto.
Qed.

(** X27 at that interleaving. *)
Lemma balance_racing_a_verification_witness :
  exists ps' w' shown,
    EventLoop.runs
      [EventLoop.handler (Some "1") stable_order Sample.exponent_notation Sample.operator
         {| EventLoop.is_verify := true; EventLoop.of_member := Sample.bob;
            EventLoop.of_inviter := Sample.alice |};
       EventLoop.interactionCreate (Some "1") stable_order Sample.exponent_notation
         (Schema.invocation "balance" Sample.alice [])]
      Sample.answering ps' w' /\
    pool w' = Some [ {| user_id := "2"; balance := two_tenths |} ] /\
    In (EditReply (Router.balance_text Sample.exponent_notation shown)) (events w') /\
    (shown = EventLoop.read [] "2"
     \/ shown = EventLoop.read [ {| user_id := "2"; balance := two_tenths |} ] "2").
Proof.
  destruct a_read_before_the_credit as [ps' [w' [Hrun [Hend _]]]].
  destruct (@balance_racing_a_verification (Some "1") stable_order
              Sample.exponent_notation Sample.operator Sample.alice
              {| EventLoop.is_verify := true; EventLoop.of_member := Sample.bob;
                 EventLoop.of_inviter := Sample.alice |}
              Sample.answering w' [] ps' eq_refl eq_refl eq_refl Hrun Hend)
    as [_ [H1 [shown [H2 H3]]]].
  exists ps', w', shown. split; [exact Hrun |]. split; [exact H1 |].
  split; [exact H2 | exact H3].
Defined.

(* ================================================================== *)
(** * Facts: the Postgres engine *)
(* ================================================================== *)

Module PostgresFacts.

Import TableFacts Interleaving.

Lemma where_other_filtered t u v :
  u <> v ->
  where_user_id v (filter (fun r => negb (String.eqb (user_id r) u)) t) = where_user_id v t.
Proof.
  intros Huv. unfold where_user_id. induction t as [| r t IH]; [reflexivity |].
  cbn [filter]. destruct (String.eqb_spec (user_id r) u) as [E | E]; cbn [negb].
  - destruct (String.eqb_spec (user_id r) v) as [F | F]; [congruence | exact IH].
  - cbn [filter]. rewrite IH. reflexivity.
Qed.

Lemma where_same_filtered t u :
  where_user_id u (filter (fun r => negb (String.eqb (user_id r) u)) t) = [].
Proof.
  unfold where_user_id. induction t as [| r t IH]; [reflexivity |].
  cbn [filter]. destruct (String.eqb (user_id r) u) eqn:E; cbn [negb]; [exact IH |].
  cbn [filter]. rewrite E. exact IH.
Qed.

Lemma stored_app t1 t2 u :
  stored (t1 ++ t2) u = match stored t1 u with Some b => Some b | None => stored t2 u end.
Proof.
  induction t1 as [| r t1 IH]; [reflexivity |].
  cbn [app]. rewrite !stored_cons. destruct (String.eqb (user_id r) u); [reflexivity | exact IH].
Qed.

Lemma stored_filtered_same t u :
  stored (filter (fun r => negb (String.eqb (user_id r) u)) t) u = None.
Proof. unfold stored. rewrite where_same_filtered. reflexivity. Qed.

Lemma stored_filtered_other t u v :
  u <> v -> stored (filter (fun r => negb (String.eqb (user_id r) u)) t) v = stored t v.
Proof. intros H. unfold stored. rewrite (where_other_filtered t H). reflexivity. Qed.

(** What the upsert does to the row of its user and to the other rows. *)
Lemma stored_after_same t u d :
  stored (Postgres.after t (u, d)) u
  = Some (match stored t u with
          | Some b =>
              match Postgres.float8pl b (Postgres.float8in d) with
              | Some sum => sum
              | None => b
              end
          | None => Postgres.float8in d
          end).
Proof.
  unfold Postgres.after, Postgres.insert_or_add. cbn [fst snd balance].
  destruct (stored t u) as [b |] eqn:E.
  - destruct (Postgres.float8pl b (Postgres.float8in d)) as [sum |]; [| exact E].
    rewrite stored_app, stored_filtered_same, stored_cons. cbn [user_id balance].
    rewrite String.eqb_refl. reflexivity.
  - rewrite stored_app, E, stored_cons. cbn [user_id balance].
    rewrite String.eqb_refl. reflexivity.
Qed.

Lemma stored_after_other t u v d :
  u <> v -> stored (Postgres.after t (u, d)) v = stored t v.
Proof.
  intros Huv. unfold Postgres.after, Postgres.insert_or_add. cbn [fst snd balance].
  assert (Hnew : forall x, stored [ {| user_id := u; balance := x |} ] v = None).
  { intros x. rewrite stored_cons. cbn [user_id].
    destruct (String.eqb_spec u v); [contradiction | reflexivity]. }
  destruct (stored t u) as [b |] eqn:E.
  - destruct (Postgres.float8pl b (Postgres.float8in d)) as [sum |]; [| reflexivity].
    rewrite stored_app, (stored_filtered_other t Huv), Hnew.
    destruct (stored t v); reflexivity.
  - rewrite stored_app, Hnew. destruct (stored t v); reflexivity.
Qed.

Lemma replay_snoc calls c t :
  Postgres.replay (calls ++ [c]) t = Postgres.after (Postgres.replay calls t) c.
Proof. unfold Postgres.replay. rewrite fold_left_app. reflexivity. Qed.

Lemma accepted_snoc calls c : forall t,
  Postgres.accepted (calls ++ [c]) t
  = Postgres.accepted calls t ++ [Postgres.accepts (Postgres.replay calls t) c].
Proof.
  induction calls as [| c0 calls IH]; intros t; [reflexivity |].
  cbn [app Postgres.accepted]. rewrite IH. reflexivity.
Qed.

Lemma pg_stored_replay calls : forall t u,
  stored (Postgres.replay calls t) u
  = Postgres.running_sum (stored t u) (deltas_for u calls).
Proof.
  induction calls as [| [v d] calls IH]; intros t u; [reflexivity |].
  unfold Postgres.replay. cbn [fold_left]. fold (Postgres.replay calls (Postgres.after t (v, d))).
  rewrite IH. unfold deltas_for. cbn [filter fst].
  destruct (String.eqb_spec v u) as [E | E].
  - subst v. cbn [map snd]. unfold Postgres.running_sum at 2. cbn [fold_left].
    rewrite stored_after_same. reflexivity.
  - rewrite (stored_after_other t d E). reflexivity.
Qed.

(** The upsert keeps one row per user. *)
Lemma keys_filtered t u :
  NoDup (keys t) -> NoDup (keys (filter (fun r => negb (String.eqb (user_id r) u)) t)).
Proof.
  unfold keys. induction t as [| r t IH]; intros H; [constructor |].
  cbn [map] in H. inversion H as [| k l Hk Hl]; subst.
  cbn [filter]. destruct (negb (String.eqb (user_id r) u)); [| apply IH, Hl].
  cbn [map]. constructor; [| apply IH, Hl].
  intros Hin. apply Hk. apply in_map_iff in Hin. destruct Hin as [x [Ex Hx]].
  apply filter_In in Hx. apply in_map_iff. exists x. split; [exact Ex | apply Hx].
Qed.

Lemma not_in_keys_filtered t u :
  ~ In u (keys (filter (fun r => negb (String.eqb (user_id r) u)) t)).
Proof.
  unfold keys. intros Hin. apply in_map_iff in Hin. destruct Hin as [x [Ex Hx]].
  apply filter_In in Hx. destruct Hx as [_ Hx]. rewrite Ex, String.eqb_refl in Hx.
  discriminate Hx.
Qed.

Lemma after_NoDup t c : NoDup (keys t) -> NoDup (keys (Postgres.after t c)).
Proof.
  intros H. destruct c as [u d]. unfold Postgres.after, Postgres.insert_or_add.
  cbn [fst snd balance].
  assert (Hsnoc : forall l x, NoDup (keys l) -> ~ In u (keys l) ->
                    NoDup (keys (l ++ [ {| user_id := u; balance := x |} ]))).
  { intros l x Hl Hu. unfold keys. rewrite map_app. cbn [map user_id].
    apply NoDup_app; [exact Hl | repeat constructor; intros [] |].
    intros k Hk [<- | []]. exact (Hu Hk). }
  destruct (stored t u) as [b |] eqn:E.
  - destruct (Postgres.float8pl b (Postgres.float8in d)); [| exact H].
    apply Hsnoc; [apply keys_filtered, H | apply not_in_keys_filtered].
  - apply Hsnoc; [exact H | apply stored_None_iff, E].
Qed.

(** Where Postgres accepts the sum, its upsert leaves every user the balance
    that the upsert of [Balances] leaves, with the amount as the server reads
    it; the rows may stand in another order. *)
Lemma after_as_upsert t u d v :
  Postgres.accepts t (u, d) = true ->
  stored (Postgres.after t (u, d)) v = stored (upsert t u (Postgres.float8in d)) v.
Proof.
  intros Hacc. destruct (String.eqb_spec u v) as [E | E].
  - subst v. rewrite stored_after_same, stored_upsert_same.
    unfold Postgres.accepts, Postgres.insert_or_add in Hacc. cbn [fst snd balance] in Hacc.
    destruct (stored t u) as [b |]; [| reflexivity].
    unfold Postgres.float8pl in *.
    destruct (Postgres.is_infinite (add b (Postgres.float8in d))
              && negb (Postgres.is_infinite b)
              && negb (Postgres.is_infinite (Postgres.float8in d)));
      [discriminate Hacc | reflexivity].
  - rewrite (stored_after_other t d E), (@stored_upsert_other t u v _ E). reflexivity.
Qed.

Section Run.

Variable order : table -> list row.

(** The two reads are those of [Pg]: the engines part on the upsert only. *)
Lemma getBalance_as_Pg u w : Postgres.getBalance order u w = Pg.getBalance order u w.
Proof. destruct w as [[t |] [|] ev]; reflexivity. Qed.

Lemma getLeaderboard_as_Pg limit w :
  Postgres.getLeaderboard order limit w = Pg.getLeaderboard order limit w.
Proof. destruct w as [[t |] [|] ev]; reflexivity. Qed.

(** With a pool and a database that answers, each helper is one statement. *)
Lemma pg_getBalance_online u w t :
  pool w = Some t -> online w = true ->
  Postgres.getBalance order u w
  = (Fulfilled (match stored t u with Some b => parseFloat b | None => zero end),
     logged (PoolQuery (SelectBalance u)) w).
Proof.
  intros Hp Ho. destruct w as [p o ev]. cbn in Hp, Ho. subst p o.
  unfold Postgres.getBalance, Postgres.pool_query, bind, gets, ret, logged.
  cbn [pool online events Postgres.execute]. rewrite PgFacts.hd_where_stored. reflexivity.
Qed.

Lemma pg_addBalance_online u d w t :
  pool w = Some t -> online w = true ->
  Postgres.addBalance order u d w
  = (if Postgres.accepts t (u, d) then Fulfilled tt else Rejected,
     {| pool := Some (Postgres.after t (u, d)); online := true;
        events := events w ++ [PoolQuery (UpsertBalance u d)] |}).
Proof.
  intros Hp Ho. destruct w as [p o ev]. cbn in Hp, Ho. subst p o.
  unfold Postgres.addBalance, Postgres.pool_query, bind, gets, ret, logged,
    Postgres.accepts, Postgres.after.
  cbn [pool online events Postgres.execute fst snd].
  destruct (Postgres.insert_or_add t u d); reflexivity.
Qed.

Lemma pg_getLeaderboard_online n w t :
  pool w = Some t -> online w = true ->
  Postgres.getLeaderboard order (Some n) w
  = (Fulfilled (firstn n (order t)), logged (PoolQuery (SelectTop n)) w).
Proof.
  intros Hp Ho. destruct w as [p o ev]. cbn in Hp, Ho. subst p o. reflexivity.
Qed.

(** The call in flight, run alone, is the helper. *)
Lemma run_addBalance_call u d w :
  EventLoop.run (Postgres.addBalance_call order w u d) w = Postgres.addBalance order u d w.
Proof.
  unfold Postgres.addBalance_call, Postgres.addBalance, bind, gets.
  destruct (pool w); reflexivity.
Qed.

End Run.

End PostgresFacts.

(* ================================================================== *)
(** * Facts: the SQLite engine *)
(* ================================================================== *)

Module Sqlite3Facts.

Import Interleaving OrderFacts.

Lemma sqlite_stored_cons r t u :
  Sqlite3.stored (r :: t) u
  = if String.eqb (Sqlite3.user_id r) u then Some (Sqlite3.balance r) else Sqlite3.stored t u.
Proof.
  unfold Sqlite3.stored. cbn [find].
  destruct (String.eqb (Sqlite3.user_id r) u); reflexivity.
Qed.

Lemma sqlite_stored_insert_same t u p2 p3 :
  Sqlite3.stored (Sqlite3.insert_or_add t u p2 p3) u
  = Some (match Sqlite3.stored t u with
          | Some b => Sqlite3.plus b p3
          | None => Sqlite3.real p2
          end).
Proof.
  induction t as [| r t IH]; cbn [Sqlite3.insert_or_add].
  - rewrite sqlite_stored_cons. cbn [Sqlite3.user_id Sqlite3.balance].
    rewrite String.eqb_refl. reflexivity.
  - rewrite (sqlite_stored_cons r t). destruct (String.eqb (Sqlite3.user_id r) u) eqn:E.
    + rewrite sqlite_stored_cons. cbn [Sqlite3.user_id Sqlite3.balance].
      rewrite String.eqb_refl. reflexivity.
    + rewrite sqlite_stored_cons, E. exact IH.
Qed.

Lemma sqlite_stored_insert_other t u v p2 p3 :
  u <> v -> Sqlite3.stored (Sqlite3.insert_or_add t u p2 p3) v = Sqlite3.stored t v.
Proof.
  intros Huv. induction t as [| r t IH]; cbn [Sqlite3.insert_or_add].
  - rewrite sqlite_stored_cons. cbn [Sqlite3.user_id].
    destruct (String.eqb_spec u v); [contradiction | reflexivity].
  - destruct (String.eqb_spec (Sqlite3.user_id r) u) as [E | E].
    + rewrite !sqlite_stored_cons. cbn [Sqlite3.user_id]. rewrite E.
      destruct (String.eqb_spec u v); [contradiction | reflexivity].
    + rewrite !sqlite_stored_cons, IH. reflexivity.
Qed.

Lemma sqlite_stored_replay calls : forall t u,
  Sqlite3.stored (Sqlite3.replay calls t) u
  = Sqlite3.running_sum (Sqlite3.stored t u) (deltas_for u calls).
Proof.
  induction calls as [| [v d] calls IH]; intros t u; [reflexivity |].
  unfold Sqlite3.replay. cbn [fold_left fst snd].
  fold (Sqlite3.replay calls (Sqlite3.insert_or_add t v d d)).
  rewrite IH. unfold deltas_for. cbn [filter fst].
  destruct (String.eqb_spec v u) as [E | E].
  - subst v. cbn [map snd]. unfold Sqlite3.running_sum at 2. cbn [fold_left].
    rewrite sqlite_stored_insert_same. reflexivity.
  - rewrite (sqlite_stored_insert_other t d d E). reflexivity.
Qed.

Lemma sqlite_keys_insert t u p2 p3 :
  Sqlite3.keys (Sqlite3.insert_or_add t u p2 p3)
  = if existsb (String.eqb u) (Sqlite3.keys t) then Sqlite3.keys t else Sqlite3.keys t ++ [u].
Proof.
  unfold Sqlite3.keys. induction t as [| r t IH]; [reflexivity |].
  cbn [Sqlite3.insert_or_add map existsb].
  rewrite (String.eqb_sym u). destruct (String.eqb_spec (Sqlite3.user_id r) u) as [E | E].
  - cbn [map Sqlite3.user_id orb]. rewrite E. reflexivity.
  - cbn [map orb]. rewrite IH. destruct (existsb (String.eqb u) (map Sqlite3.user_id t));
      reflexivity.
Qed.

Lemma hd_filter_find {A} (f : A -> bool) l : hd_error (filter f l) = find f l.
Proof.
  induction l as [| a l IH]; [reflexivity |].
  cbn [filter find]. destruct (f a); [reflexivity | exact IH].
Qed.

Section Run.

Variable order : list Sqlite3.row -> list Sqlite3.row.

Lemma getBalance_healthy db u :
  Sqlite3.healthy db = true ->
  Sqlite3.getBalance order db u
  = Sqlite.Ok (match Sqlite3.stored (Sqlite3.contents db) u with
               | Some b => b
               | None => Some zero
               end).
Proof.
  intros Hh. unfold Sqlite3.getBalance, Sqlite3.db_get. rewrite Hh.
  cbn [Sqlite3.execute fst]. rewrite hd_filter_find. unfold Sqlite3.stored.
  destruct (find _ _); reflexivity.
Qed.

Lemma getLeaderboard_healthy db n :
  Sqlite3.healthy db = true ->
  Sqlite3.getLeaderboard order db n = Sqlite.Ok (firstn n (order (Sqlite3.contents db))).
Proof.
  intros Hh. unfold Sqlite3.getLeaderboard, Sqlite3.db_all. rewrite Hh. reflexivity.
Qed.

Lemma addBalance_healthy db u d :
  Sqlite3.healthy db = true ->
  Sqlite3.addBalance order db u d
  = Some {| Sqlite3.contents := Sqlite3.insert_or_add (Sqlite3.contents db) u d d;
            Sqlite3.healthy := true |}.
Proof.
  intros Hh. unfold Sqlite3.addBalance, Sqlite3.db_run. rewrite Hh. reflexivity.
Qed.

End Run.

(** The order of SQLite's REAL values, with NULL below them all. *)
Lemma sqlite_geb_total x y : Sqlite3.geb x y = true \/ Sqlite3.geb y x = true.
Proof.
  destruct x as [a |], y as [b |]; cbn; auto. apply OrderFacts.geb_total.
Qed.

Lemma sqlite_geb_trans x y z :
  Sqlite3.geb x y = true -> Sqlite3.geb y z = true -> Sqlite3.geb x z = true.
Proof.
  destruct x as [a |], y as [b |], z as [c |]; cbn; try discriminate; auto.
  apply OrderFacts.geb_trans.
Qed.

Lemma sqlite_insert_desc_perm r l : Permutation (Sqlite3.insert_desc r l) (r :: l).
Proof.
  induction l as [| x l IH]; cbn [Sqlite3.insert_desc]; [reflexivity |].
  destruct (Sqlite3.geb (Sqlite3.balance r) (Sqlite3.balance x)); [reflexivity |].
  rewrite IH. apply perm_swap.
Qed.

Lemma sqlite_insert_desc_sorted r l :
  StronglySorted Sqlite3.balance_desc l ->
  StronglySorted Sqlite3.balance_desc (Sqlite3.insert_desc r l).
Proof.
  induction 1 as [| x l Hl IH Hx]; cbn [Sqlite3.insert_desc].
  - repeat constructor.
  - destruct (Sqlite3.geb (Sqlite3.balance r) (Sqlite3.balance x)) eqn:E.
    + constructor; [constructor; assumption |].
      constructor; [exact E |].
      eapply Forall_impl; [| exact Hx]. intros y Hy.
      unfold Sqlite3.balance_desc in *. eapply sqlite_geb_trans; eassumption.
    + constructor; [exact IH |].
      assert (Hxr : Sqlite3.balance_desc x r).
      { unfold Sqlite3.balance_desc.
        destruct (sqlite_geb_total (Sqlite3.balance x) (Sqlite3.balance r)) as [H | H];
          [exact H | congruence]. }
      eapply Permutation_Forall; [symmetry; apply sqlite_insert_desc_perm |].
      constructor; assumption.
Qed.

Lemma rowid_order_lawful : Sqlite3.lawful_order Sqlite3.rowid_order.
Proof.
  split; intros t; induction t as [| r t IH]; cbn; try constructor.
  - rewrite sqlite_insert_desc_perm. constructor. exact IH.
  - apply sqlite_insert_desc_sorted, IH.
Qed.

End Sqlite3Facts.

(* ================================================================== *)
(** * Facts: calls to [addBalance] in flight, statement by statement *)
(* ================================================================== *)

Module FlightFacts.

Import TableFacts Interleaving PostgresFacts EventLoop.

Section Postgres.

Variable order : table -> list row.

(** The one turn of a call in flight: its statement runs, accepted or
    refused, and the call settles. *)
Lemma call_turn c w t :
  pool w = Some t -> online w = true ->
  step (Postgres.standing order (c, None)) w
  = (Postgres.standing order (c, Some (Postgres.accepts t c)),
     {| pool := Some (Postgres.after t c); online := true;
        events := events w ++ [Postgres.statement_of c] |}).
Proof.
  intros Hp Ho. destruct w as [p o ev]. cbn in Hp, Ho. subst p o.
  destruct c as [u d].
  unfold Postgres.standing, Postgres.accepts, Postgres.after, Postgres.statement_of.
  cbn [step fst snd Postgres.pool_query pool online events Postgres.execute logged].
  destruct (Postgres.insert_or_add t u d); reflexivity.
Qed.

Lemma standing_unsettled s :
  settled (Postgres.standing order s) = false -> snd s = None.
Proof.
  destruct s as [c [[|] |]]; cbn; intros H; try discriminate H. reflexivity.
Qed.

Lemma settled_calls_app l1 l2 :
  Postgres.settled_calls (l1 ++ l2) = Postgres.settled_calls l1 ++ Postgres.settled_calls l2.
Proof. unfold Postgres.settled_calls. apply flat_map_app. Qed.

(** What holds all along an interleaving: every call is suspended on its
    statement or settled; the statements that have run, in the order in
    which they ran, are those of the settled calls; the table is what they
    leave one after the other, and each was accepted or refused as it is
    when they run in that order. *)
Lemma calls_invariant (t0 : table) (ev0 : list event) ps w ps' w' :
  runs ps w ps' w' ->
  forall sts ran,
    ps = map (Postgres.standing order) sts ->
    pool w = Some (Postgres.replay (map fst ran) t0) ->
    online w = true ->
    events w = ev0 ++ map Postgres.statement_of (map fst ran) ->
    map snd ran = Postgres.accepted (map fst ran) t0 ->
    Permutation ran (Postgres.settled_calls sts) ->
    exists sts' ran',
      ps' = map (Postgres.standing order) sts' /\
      map fst sts' = map fst sts /\
      pool w' = Some (Postgres.replay (map fst ran') t0) /\
      online w' = true /\
      events w' = ev0 ++ map Postgres.statement_of (map fst ran') /\
      map snd ran' = Postgres.accepted (map fst ran') t0 /\
      Permutation ran' (Postgres.settled_calls sts').
Proof.
  induction 1 as [ps w | before p after w p' w1 ps' w2 Hns Hstep _ IH];
    intros sts ran Hps Hp Ho Hev Hacc Hperm.
  - exists sts, ran. repeat split; auto.
  - symmetry in Hps. apply map_eq_app in Hps.
    destruct Hps as [l1 [l2' [-> [Hb Hrest]]]].
    apply map_eq_cons in Hrest. destruct Hrest as [[c s] [l2 [-> [Hpx Ha]]]].
    subst p before after.
    pose proof (standing_unsettled _ Hns) as Hs. cbn [snd] in Hs. subst s.
    rewrite (call_turn c w Hp Ho) in Hstep.
    pose proof (f_equal fst Hstep) as Ep. pose proof (f_equal snd Hstep) as Ew.
    cbn [fst snd] in Ep, Ew. subst p' w1. clear Hstep.
    set (ok := Postgres.accepts (Postgres.replay (map fst ran) t0) c) in *.
    destruct (IH (l1 ++ (c, Some ok) :: l2) (ran ++ [(c, ok)]))
      as [sts' [ran' [H1 [H2 [H3 [H4 [H5 [H6 H7]]]]]]]].
    { rewrite map_app. reflexivity. }
    { cbn [pool]. rewrite map_app. cbn [map fst]. rewrite replay_snoc. reflexivity. }
    { reflexivity. }
    { cbn [events]. rewrite Hev, !map_app, <- app_assoc. reflexivity. }
    { rewrite !map_app. cbn [map fst snd]. rewrite accepted_snoc, Hacc. reflexivity. }
    { rewrite settled_calls_app. unfold Postgres.settled_calls at 2.
      cbn [flat_map snd fst app]. fold (Postgres.settled_calls l2).
      rewrite settled_calls_app in Hperm. unfold Postgres.settled_calls at 2 in Hperm.
      cbn [flat_map snd fst app] in Hperm. fold (Postgres.settled_calls l2) in Hperm.
      rewrite Hperm. rewrite <- app_assoc. apply Permutation_app_head.
      symmetry. apply Permutation_cons_append. }
    exists sts', ran'. split; [exact H1 |]. split.
    { rewrite H2, !map_app. reflexivity. }
    repeat split; assumption.
Qed.

(** Calls that have all settled. *)
Lemma all_settled (sts : list ((string * number) * option bool)) :
  forallb settled (map (Postgres.standing order) sts) = true ->
  exists outcomes,
    List.length outcomes = List.length sts /\
    map (Postgres.standing order) sts = map Postgres.ended outcomes /\
    Postgres.settled_calls sts = combine (map fst sts) outcomes.
Proof.
  induction sts as [| [c s] sts IH]; intros H.
  - exists []. repeat split.
  - cbn [map forallb] in H. apply andb_prop in H. destruct H as [Hs H].
    destruct (IH H) as [outcomes [H1 [H2 H3]]].
    destruct s as [ok |]; [| discriminate Hs].
    exists (ok :: outcomes). cbn [List.length map fst combine]. split; [congruence |].
    split.
    + rewrite H2. reflexivity.
    + unfold Postgres.settled_calls. cbn [flat_map snd fst app].
      fold (Postgres.settled_calls sts). rewrite H3. reflexivity.
Qed.

Lemma calls_starting (w : world) (t : table) (calls : list (string * number)) :
  pool w = Some t ->
  map (fun c => Postgres.addBalance_call order w (fst c) (snd c)) calls
  = map (Postgres.standing order) (map (fun c => (c, None)) calls) /\
  map fst (map (fun c : string * number => (c, @None bool)) calls) = calls /\
  Postgres.settled_calls (map (fun c => (c, None)) calls) = [].
Proof.
  intros Hp. induction calls as [| c calls [H1 [H2 H3]]]; [repeat split |].
  cbn [map fst]. rewrite H1, H2. split; [| split; [reflexivity |]].
  - f_equal. unfold Postgres.addBalance_call, Postgres.standing. rewrite Hp. reflexivity.
  - unfold Postgres.settled_calls. cbn [flat_map snd app]. exact H3.
Qed.

End Postgres.

Section Sqlite.

Variable order : list Sqlite3.row -> list Sqlite3.row.

Lemma sqlite_replay_snoc calls c t :
  Sqlite3.replay (calls ++ [c]) t
  = Sqlite3.insert_or_add (Sqlite3.replay calls t) (fst c) (snd c) (snd c).
Proof. unfold Sqlite3.replay. rewrite fold_left_app. reflexivity. Qed.

(** Statements that drain have run one after the other in some order. *)
Lemma drains_invariant t0 qs db db' :
  Sqlite3.drains order qs db db' ->
  forall left ran,
    qs = map Sqlite3.statement_of left ->
    Sqlite3.contents db = Sqlite3.replay ran t0 ->
    exists ran',
      Permutation ran' (ran ++ left) /\
      Sqlite3.contents db' = Sqlite3.replay ran' t0 /\
      Sqlite3.healthy db' = Sqlite3.healthy db.
Proof.
  induction 1 as [db | before q after db db1 db2 Hrun _ IH]; intros left ran Hqs Hc.
  - symmetry in Hqs. apply map_eq_nil in Hqs. subst left.
    exists ran. rewrite app_nil_r. repeat split; auto.
  - symmetry in Hqs. apply map_eq_app in Hqs.
    destruct Hqs as [l1 [l2' [-> [Hb Hrest]]]].
    apply map_eq_cons in Hrest. destruct Hrest as [c [l2 [-> [Hq Ha]]]].
    subst q before after.
    unfold Sqlite3.db_run in Hrun. destruct (Sqlite3.healthy db) eqn:Hh; [| discriminate].
    injection Hrun as <-.
    destruct (IH (l1 ++ l2) (ran ++ [c])) as [ran' [H1 [H2 H3]]].
    { rewrite map_app. reflexivity. }
    { cbn [Sqlite3.contents Sqlite3.execute Sqlite3.statement_of snd].
      rewrite sqlite_replay_snoc, Hc. reflexivity. }
    exists ran'. split; [| split; [exact H2 | rewrite H3; reflexivity]].
    rewrite H1, <- !app_assoc. apply Permutation_app_head.
    cbn [app]. apply Permutation_middle.
Qed.

End Sqlite.

End FlightFacts.

(* ================================================================== *)
(** * Concurrent calls to [addBalance], on each engine *)
(* ================================================================== *)

Section Concurrency.

Import Interleaving EventLoop PostgresFacts Sqlite3Facts FlightFacts.

Variable order : table -> list row.
Variable sqlite_order : list Sqlite3.row -> list Sqlite3.row.

Lemma map_fst_combine {A B} (l : list A) (l' : list B) :
  List.length l' = List.length l -> map fst (combine l l') = l.
Proof.
  revert l'. induction l as [| a l IH]; intros [| b l'] H; try discriminate H;
    [reflexivity |].
  cbn [combine map fst]. rewrite IH by (cbn in H; congruence). reflexivity.
Qed.

(** C1 (as the code has it).  Calls to [addBalance] in flight together lose
    no update and apply none twice.  In [bot.js] each call is suspended on
    one statement, the upsert, and sends nothing else: however the event
    loop and the database order the calls, the statements that ran are those
    of the calls, each once, in some arrangement; the table is what they
    leave when run one after the other in that arrangement; a call throws
    exactly when Postgres refuses its sum (an overflow), which leaves the row
    as it was; and [getBalance] then reads the running sum taken in that
    arrangement with the additions of DOUBLE PRECISION, from the prior
    balance or, when the user had no row, from the first amount.  In
    [part_000] each call hands one upsert to the driver and the same holds of
    the statements that ran. *)
Theorem addBalance_interleaved (calls : list (string * number)) (u : string) :
  (forall w c,
     run (Postgres.addBalance_call order w (fst c) (snd c)) w
     = Postgres.addBalance order (fst c) (snd c) w) /\
  (forall db c,
     Sqlite3.addBalance sqlite_order db (fst c) (snd c)
     = Sqlite3.db_run sqlite_order db (Sqlite3.statement_of c)) /\
  (forall (w w' : world) (t : table) (ps' : list (prog unit)),
     pool w = Some t ->
     online w = true ->
     runs (map (fun c => Postgres.addBalance_call order w (fst c) (snd c)) calls) w ps' w' ->
     forallb settled ps' = true ->
     exists (ran : list ((string * number) * bool)) (outcomes : list bool),
       ps' = map Postgres.ended outcomes /\
       Permutation ran (combine calls outcomes) /\
       Permutation (map fst ran) calls /\
       events w' = events w ++ map Postgres.statement_of (map fst ran) /\
       map snd ran = Postgres.accepted (map fst ran) t /\
       pool w' = Some (Postgres.replay (map fst ran) t) /\
       fst (Postgres.getBalance order u w')
       = Fulfilled (match Postgres.running_sum (stored t u)
                            (deltas_for u (map fst ran)) with
                    | Some b => parseFloat b
                    | None => zero
                    end)) /\
  (forall (db db' : Sqlite3.database),
     Sqlite3.healthy db = true ->
     Sqlite3.drains sqlite_order (map Sqlite3.statement_of calls) db db' ->
     exists schedule,
       Permutation schedule calls /\
       Sqlite3.contents db' = Sqlite3.replay schedule (Sqlite3.contents db) /\
       Sqlite3.getBalance sqlite_order db' u
       = Sqlite.Ok (match Sqlite3.running_sum (Sqlite3.stored (Sqlite3.contents db) u)
                            (deltas_for u schedule) with
                    | Some b => b
                    | None => Some zero
                    end)).
Proof.
  split; [intros w c; apply run_addBalance_call |].
  split; [reflexivity |].
  split.
  - intros w w' t ps' Hp Ho Hrun Hend.
    destruct (@calls_starting order w t calls Hp) as [S1 [S2 S3]].
    destruct (@calls_invariant order t (events w) _ _ _ _ Hrun
                (map (fun c => (c, None)) calls) [])
      as [sts' [ran [H1 [H2 [H3 [H4 [H5 [H6 H7]]]]]]]].
    { exact S1. }
    { exact Hp. }
    { exact Ho. }
    { cbn [map]. rewrite app_nil_r. reflexivity. }
    { reflexivity. }
    { rewrite S3. reflexivity. }
    rewrite H1 in Hend. destruct (@all_settled order sts' Hend) as [outcomes [E1 [E2 E3]]].
    rewrite S2 in H2. rewrite H2 in E3.
    assert (Hlen : List.length outcomes = List.length calls).
    { rewrite E1, <- (length_map fst sts'), H2. reflexivity. }
    exists ran, outcomes.
    split; [rewrite H1; exact E2 |].
    split; [rewrite <- E3; exact H7 |].
    split.
    { rewrite <- (map_fst_combine calls outcomes Hlen), <- E3.
      apply Permutation_map, H7. }
    split; [exact H5 |]. split; [exact H6 |]. split; [exact H3 |].
    rewrite (@pg_getBalance_online order u w' _ H3 H4). cbn [fst].
    rewrite pg_stored_replay. reflexivity.
  - intros db db' Hh Hrun.
    destruct (@drains_invariant sqlite_order (Sqlite3.contents db) _ _ _ Hrun calls [])
      as [ran [H1 [H2 H3]]]; [reflexivity | reflexivity |].
    exists ran. split; [exact H1 |]. split; [exact H2 |].
    rewrite (@getBalance_healthy sqlite_order db' u) by (rewrite H3; exact Hh).
    rewrite H2, sqlite_stored_replay. reflexivity.
Qed.

End Concurrency.

(** Three credits and three debits of 0.2 for one user, in flight together
    against an empty table: the statements run in the order of the list. *)
Example credits_then_debits :
  exists ps' w',
    EventLoop.runs
      (map (fun c => Postgres.addBalance_call stable_order
                       {| pool := Some []; online := true; events := [] |}
                       (fst c) (snd c))
         [("u", two_tenths); ("u", two_tenths); ("u", two_tenths);
          ("u", neg two_tenths); ("u", neg two_tenths); ("u", neg two_tenths)])
      {| pool := Some []; online := true; events := [] |} ps' w' /\
    forallb EventLoop.settled ps' = true /\
    fst (Postgres.getBalance stable_order "u" w')
    = Fulfilled (S754_finite false 4503599627370496 (-106)).
Proof.
  do 2 eexists. split.
  - cbn [map fst snd Postgres.addBalance_call pool].
    eapply (@EventLoop.runs_turn [] _ [_; _; _; _; _]); [reflexivity | reflexivity |].
    eapply (@EventLoop.runs_turn [_] _ [_; _; _; _]); [reflexivity | reflexivity |].
    eapply (@EventLoop.runs_turn [_; _] _ [_; _; _]); [reflexivity | reflexivity |].
    eapply (@EventLoop.runs_turn [_; _; _] _ [_; _]); [reflexivity | reflexivity |].
    eapply (@EventLoop.runs_turn [_; _; _; _] _ [_]); [reflexivity | reflexivity |].
    eapply (@EventLoop.runs_turn [_; _; _; _; _] _ []); [reflexivity | reflexivity |].
    apply EventLoop.runs_stop.
  - split; reflexivity.
Qed.

(** The same calls, a credit and a debit in turn. *)
Example credits_and_debits_in_turn :
  exists ps' w',
    EventLoop.runs
      (map (fun c => Postgres.addBalance_call stable_order
                       {| pool := Some []; online := true; events := [] |}
                       (fst c) (snd c))
         [("u", two_tenths); ("u", two_tenths); ("u", two_tenths);
          ("u", neg two_tenths); ("u", neg two_tenths); ("u", neg two_tenths)])
      {| pool := Some []; online := true; events := [] |} ps' w' /\
    forallb EventLoop.settled ps' = true /\
    fst (Postgres.getBalance stable_order "u" w') = Fulfilled zero.
Proof.
  do 2 eexists. split.
  - cbn [map fst snd Postgres.addBalance_call pool].
    eapply (@EventLoop.runs_turn [] _ [_; _; _; _; _]); [reflexivity | reflexivity |].
    eapply (@EventLoop.runs_turn [_; _; _] _ [_; _]); [reflexivity | reflexivity |].
    eapply (@EventLoop.runs_turn [_] _ [_; _; _; _]); [reflexivity | reflexivity |].
    eapply (@EventLoop.runs_turn [_; _; _; _] _ [_]); [reflexivity | reflexivity |].
    eapply (@EventLoop.runs_turn [_; _] _ [_; _; _]); [reflexivity | reflexivity |].
    eapply (@EventLoop.runs_turn [_; _; _; _; _] _ []); [reflexivity | reflexivity |].
    apply EventLoop.runs_stop.
  - split; reflexivity.
Qed.

(** C1 at the first of these interleavings. *)
Lemma addBalance_interleaved_witness :
  exists ps' w' ran,
    EventLoop.runs
      (map (fun c => Postgres.addBalance_call stable_order
                       {| pool := Some []; online := true; events := [] |}
                       (fst c) (snd c))
         [("u", two_tenths); ("u", two_tenths); ("u", two_tenths);
          ("u", neg two_tenths); ("u", neg two_tenths); ("u", neg two_tenths)])
      {| pool := Some []; online := true; events := [] |} ps' w' /\
    Permutation ran
      [("u", two_tenths); ("u", two_tenths); ("u", two_tenths);
       ("u", neg two_tenths); ("u", neg two_tenths); ("u", neg two_tenths)] /\
    events w' = map Postgres.statement_of ran /\
    pool w' = Some (Postgres.replay ran []).
Proof.
  destruct credits_then_debits as [ps' [w' [Hrun [Hend _]]]].
  destruct (proj1 (proj2 (proj2 (@addBalance_interleaved stable_order Sqlite3.rowid_order
                     [("u", two_tenths); ("u", two_tenths); ("u", two_tenths);
                      ("u", neg two_tenths); ("u", neg two_tenths); ("u", neg two_tenths)]
                     "u")))
              {| pool := Some []; online := true; events := [] |} w' [] ps'
              eq_refl eq_refl Hrun Hend)
    as [ran [outcomes [_ [_ [H1 [H2 [_ [H3 _]]]]]]]].
  exists ps', w', (map fst ran). split; [exact Hrun |]. split; [exact H1 |].
  split; [exact H2 | exact H3].
Defined.

(** C1, against the sentence as the spec has it: the final balance is not
    "the sum of the deltas plus the prior balance" whatever the order.  Three
    credits and three debits of 0.2 in flight together against an empty
    table, whose exact sum is zero, end at 2^-54 when the statements run in
    the order of the list and at 0 when credits and debits run in turn. *)
Lemma interleavings_round_differently :
  let calls := [("u", two_tenths); ("u", two_tenths); ("u", two_tenths);
                ("u", neg two_tenths); ("u", neg two_tenths); ("u", neg two_tenths)] in
  let w := {| pool := Some []; online := true; events := [] |} in
  let in_flight :=
    map (fun c => Postgres.addBalance_call stable_order w (fst c) (snd c)) calls in
  exists ps1 w1 ps2 w2,
    EventLoop.runs in_flight w ps1 w1 /\
    forallb EventLoop.settled ps1 = true /\
    EventLoop.runs in_flight w ps2 w2 /\
    forallb EventLoop.settled ps2 = true /\
    fst (Postgres.getBalance stable_order "u" w1)
    = Fulfilled (S754_finite false 4503599627370496 (-106)) /\
    fst (Postgres.getBalance stable_order "u" w2) = Fulfilled zero /\
    (fold_right Qplus 0 (map to_Q (Interleaving.deltas_for "u" calls)) == 0)%Q.
Proof.
  intros calls w in_flight.
  destruct credits_then_debits as [ps1 [w1 [R1 [E1 B1]]]].
  destruct credits_and_debits_in_turn as [ps2 [w2 [R2 [E2 B2]]]].
  exists ps1, w1, ps2, w2. repeat split; try assumption. 
Qed.

(* ================================================================== *)
(** * The leaderboard query, on each engine *)
(* ================================================================== *)

Section Ranking.

Import PostgresFacts Sqlite3Facts EngineFacts LeaderboardFacts.

Variable order : table -> list row.
Variable sqlite_order : list Sqlite3.row -> list Sqlite3.row.


End Ranking.



(* ================================================================== *)
(** * Facts: the same records in the two databases *)
(* ================================================================== *)

Module LedgerFacts.

Import TableFacts PostgresFacts Sqlite3Facts Ledgers.

(** What SQLite stores of a number that is not NaN is what [parseFloat]
    returns of it. *)
Lemma real_parseFloat x : is_nan x = false -> Sqlite3.real x = Some (parseFloat x).
Proof. destruct x; try discriminate; reflexivity. Qed.

Lemma real_float8in d : Sqlite3.real (Postgres.float8in d) = Sqlite3.real d.
Proof. destruct d; reflexivity. Qed.

(** The sum that Postgres stores and the sum that SQLite stores are the same
    record. *)
Lemma real_sum b d :
  is_nan b = false ->
  Sqlite3.real (add b (Postgres.float8in d)) = Sqlite3.plus (Sqlite3.real b) d.
Proof.
  destruct b as [sb | sb | | sb mb eb]; try discriminate; intros _;
    destruct d as [sd | sd | | sd md ed]; try reflexivity;
    destruct sb, sd; reflexivity.
Qed.

(** The two orders agree on numbers. *)
Lemma geb_real x y :
  is_nan x = false -> is_nan y = false ->
  Sqlite3.geb (Sqlite3.real x) (Sqlite3.real y) = geb x y.
Proof.
  destruct x as [sx | sx | | sx mx ex]; try discriminate; intros _;
    destruct y as [sy | sy | | sy my ey]; try discriminate; intros _; reflexivity.
Qed.

Lemma find_unique {A} (key : A -> string) (l : list A) (r : A) :
  NoDup (map key l) -> In r l ->
  find (fun x => String.eqb (key x) (key r)) l = Some r.
Proof.
  induction l as [| a l IH]; intros Hn Hin; [contradiction |].
  cbn [map] in Hn. inversion Hn as [| k ks Hk Hl]; subst.
  cbn [find]. destruct Hin as [-> | Hin].
  - rewrite String.eqb_refl. reflexivity.
  - destruct (String.eqb_spec (key a) (key r)) as [E | E].
    + exfalso. apply Hk. rewrite E. apply in_map, Hin.
    + apply IH; assumption.
Qed.

Lemma find_absent {A} (key : A -> string) (l : list A) (u : string) :
  ~ In u (map key l) -> find (fun x => String.eqb (key x) u) l = None.
Proof.
  induction l as [| a l IH]; intros Hn; [reflexivity |].
  cbn [find]. destruct (String.eqb_spec (key a) u) as [E | E].
  - exfalso. apply Hn. left. exact E.
  - apply IH. intros H. apply Hn. right. exact H.
Qed.

Lemma stored_in t u b :
  stored t u = Some b -> exists r, In r t /\ user_id r = u /\ balance r = b.
Proof.
  induction t as [| r t IH]; [discriminate |].
  rewrite stored_cons. destruct (String.eqb_spec (user_id r) u) as [E | E].
  - intros [= <-]. exists r. repeat split; [left; reflexivity | exact E].
  - intros H. destruct (IH H) as [r' [H1 H2]]. exists r'. split; [right; exact H1 | exact H2].
Qed.

Lemma keys_image t : Sqlite3.keys (map image t) = keys t.
Proof. unfold Sqlite3.keys, keys. rewrite map_map. reflexivity. Qed.

Lemma alike_keys t s : alike t s -> Permutation (keys t) (Sqlite3.keys s).
Proof.
  intros [_ _ H]. rewrite <- keys_image. unfold Sqlite3.keys. apply Permutation_map, H.
Qed.

(** A read of the SQLite table finds what the Postgres table holds. *)
Lemma alike_stored t s u :
  alike t s -> Sqlite3.stored s u = option_map Sqlite3.real (stored t u).
Proof.
  intros Ha. pose proof (alike_keys Ha) as Hk. destruct Ha as [Hnd Hnn Hperm].
  unfold Sqlite3.stored.
  destruct (stored t u) as [b |] eqn:E.
  - destruct (stored_in _ _ E) as [r [Hin [Hu Hb]]].
    assert (Hs : In (image r) s) by (eapply Permutation_in; [exact Hperm | apply in_map, Hin]).
    assert (Hnds : NoDup (map Sqlite3.user_id s)).
    { eapply Permutation_NoDup; [exact Hk | exact Hnd]. }
    pose proof (find_unique Sqlite3.user_id s (image r) Hnds Hs) as Hf.
    cbn [image Sqlite3.user_id] in Hf. rewrite Hu in Hf. rewrite Hf.
    cbn [option_map image Sqlite3.balance]. rewrite Hb. reflexivity.
  - rewrite find_absent; [reflexivity |].
    intros Hin. apply stored_None_iff in E. apply E.
    eapply Permutation_in; [symmetry; exact Hk | exact Hin].
Qed.

Lemma Permutation_filter {A} (f : A -> bool) l1 l2 :
  Permutation l1 l2 -> Permutation (filter f l1) (filter f l2).
Proof.
  induction 1 as [| x l l' _ IH | x y l | l l' l'' _ IH1 _ IH2]; cbn [filter].
  - constructor.
  - destruct (f x); [constructor |]; exact IH.
  - destruct (f x), (f y); try reflexivity. apply perm_swap.
  - etransitivity; eassumption.
Qed.

Lemma filter_image t u :
  filter (fun r => negb (String.eqb (Sqlite3.user_id r) u)) (map image t)
  = map image (filter (fun r => negb (String.eqb (user_id r) u)) t).
Proof.
  induction t as [| r t IH]; [reflexivity |].
  cbn [map filter image Sqlite3.user_id].
  destruct (negb (String.eqb (user_id r) u)); cbn [map]; rewrite IH; reflexivity.
Qed.

Lemma filter_absent s u :
  ~ In u (Sqlite3.keys s) ->
  filter (fun r => negb (String.eqb (Sqlite3.user_id r) u)) s = s.
Proof.
  induction s as [| r s IH]; intros Hn; [reflexivity |].
  cbn [filter]. destruct (String.eqb_spec (Sqlite3.user_id r) u) as [E | E].
  - exfalso. apply Hn. left. exact E.
  - cbn [negb]. rewrite IH; [reflexivity |]. intros H. apply Hn. right. exact H.
Qed.

(** SQLite's upsert, up to the order of the rows: the row of the user is
    replaced, or added. *)
Lemma sqlite_insert_perm s u p2 p3 :
  NoDup (Sqlite3.keys s) ->
  Permutation (Sqlite3.insert_or_add s u p2 p3)
    ({| Sqlite3.user_id := u;
        Sqlite3.balance := match Sqlite3.stored s u with
                           | Some b => Sqlite3.plus b p3
                           | None => Sqlite3.real p2
                           end |}
     :: filter (fun r => negb (String.eqb (Sqlite3.user_id r) u)) s).
Proof.
  induction s as [| r s IH]; intros Hn; [reflexivity |].
  cbn [Sqlite3.keys map] in Hn. inversion Hn as [| k ks Hk Hl]; subst.
  cbn [Sqlite3.insert_or_add filter]. rewrite sqlite_stored_cons.
  destruct (String.eqb_spec (Sqlite3.user_id r) u) as [E | E]; cbn [negb].
  - rewrite filter_absent; [reflexivity |]. rewrite <- E. exact Hk.
  - rewrite (IH Hl). apply perm_swap.
Qed.

(** The upserts of the two files keep the tables alike, when the amount is
    a number and the sum is one that Postgres accepts. *)
Lemma alike_after t s u d :
  alike t s ->
  is_nan d = false ->
  (forall b, stored t u = Some b ->
     exists sum, Postgres.float8pl b (Postgres.float8in d) = Some sum /\ is_nan sum = false) ->
  Postgres.accepts t (u, d) = true /\
  alike (Postgres.after t (u, d)) (Sqlite3.insert_or_add s u d d).
Proof.
  intros Ha Hd Hsum.
  pose proof (alike_stored u Ha) as Hst. pose proof (alike_keys Ha) as Hk.
  destruct Ha as [Hnd Hnn Hperm].
  assert (Hnds : NoDup (Sqlite3.keys s)) by (eapply Permutation_NoDup; [exact Hk | exact Hnd]).
  assert (Hfilt : Forall (fun r => is_nan (balance r) = false)
                    (filter (fun r => negb (String.eqb (user_id r) u)) t)).
  { apply Forall_forall. intros r Hr. apply filter_In in Hr.
    rewrite Forall_forall in Hnn. apply Hnn, Hr. }
  assert (Hrest : Permutation
                    (map image (filter (fun r => negb (String.eqb (user_id r) u)) t))
                    (filter (fun r => negb (String.eqb (Sqlite3.user_id r) u)) s)).
  { rewrite <- filter_image. apply Permutation_filter, Hperm. }
  unfold Postgres.accepts, Postgres.after, Postgres.insert_or_add.
  cbn [fst snd balance].
  destruct (stored t u) as [b |] eqn:E.
  - destruct (Hsum b eq_refl) as [sum [Hs Hn]]. rewrite Hs.
    split; [reflexivity |]. split.
    + unfold keys. rewrite map_app. cbn [map user_id].
      apply NoDup_app; [apply keys_filtered, Hnd | repeat constructor; intros [] |].
      intros k Hin [<- | []]. exact (@not_in_keys_filtered t u Hin).
    + apply Forall_app. split; [exact Hfilt | repeat constructor; exact Hn].
    + rewrite (@sqlite_insert_perm s u d d Hnds), Hst. cbn [option_map].
      rewrite map_app. cbn [map image user_id balance].
      rewrite <- Permutation_cons_append. apply Permutation_cons; [| exact Hrest].
      unfold image. cbn [user_id balance]. f_equal.
      assert (Hb : is_nan b = false).
      { destruct (stored_in _ _ E) as [r [Hin [_ <-]]].
        rewrite Forall_forall in Hnn. apply Hnn, Hin. }
      unfold Postgres.float8pl in Hs.
      destruct (Postgres.is_infinite (add b (Postgres.float8in d))
                && negb (Postgres.is_infinite b)
                && negb (Postgres.is_infinite (Postgres.float8in d))); [discriminate |].
      injection Hs as <-. apply real_sum, Hb.
  - split; [reflexivity |]. split.
    + unfold keys. rewrite map_app. cbn [map user_id].
      apply NoDup_app; [exact Hnd | repeat constructor; intros [] |].
      intros k Hin [<- | []]. apply stored_None_iff in E. exact (E Hin).
    + apply Forall_app. split; [exact Hnn | repeat constructor].
      cbn [balance]. destruct d; try discriminate; reflexivity.
    + rewrite (@sqlite_insert_perm s u d d Hnds), Hst. cbn [option_map].
      rewrite map_app. cbn [map image user_id balance].
      rewrite <- Permutation_cons_append. apply Permutation_cons.
      * unfold image. cbn [user_id balance]. rewrite real_float8in. reflexivity.
      * rewrite filter_absent; [exact Hperm |].
        intros Hin. apply stored_None_iff in E. apply E.
        eapply Permutation_in; [symmetry; exact Hk | exact Hin].
Qed.

(** A list in descending order is the only arrangement of its elements in
    descending order, when no two of them are equal in the order. *)
Lemma sorted_perm_unique {A} (R : A -> A -> Prop) (l1 : list A) : forall l2,
  StronglySorted R l1 -> StronglySorted R l2 -> Permutation l1 l2 ->
  (forall x y, In x l1 -> In y l1 -> R x y -> R y x -> x = y) ->
  l1 = l2.
Proof.
  induction l1 as [| a l1 IH]; intros l2 H1 H2 Hp Hanti.
  - apply Permutation_nil in Hp. congruence.
  - destruct l2 as [| b l2].
    { symmetry in Hp. apply Permutation_nil in Hp. discriminate Hp. }
    inversion H1 as [| ? ? Hs1 Ha]; subst. inversion H2 as [| ? ? Hs2 Hb]; subst.
    rewrite Forall_forall in Ha, Hb.
    assert (E : a = b).
    { assert (Ina : In a (b :: l2)) by (eapply Permutation_in; [exact Hp | left; reflexivity]).
      assert (Inb : In b (a :: l1))
        by (eapply Permutation_in; [symmetry; exact Hp | left; reflexivity]).
      destruct Ina as [<- | Ina]; [reflexivity |].
      destruct Inb as [-> | Inb]; [reflexivity |].
      apply Hanti; [left; reflexivity | right; exact Inb | apply Ha, Inb | apply Hb, Ina]. }
    subst b. f_equal. apply IH; try assumption.
    + eapply Permutation_cons_inv. exact Hp.
    + intros x y Hx Hy. apply Hanti; right; assumption.
Qed.

Lemma sorted_images l :
  Forall (fun r => is_nan (balance r) = false) l ->
  StronglySorted balance_desc l ->
  StronglySorted Sqlite3.balance_desc (map image l).
Proof.
  intros Hn. induction 1 as [| r l Hl IH Hr]; cbn [map]; [constructor |].
  inversion Hn as [| ? ? Hr0 Hn']; subst.
  constructor; [apply IH, Hn' |].
  apply Forall_forall. intros x Hx. apply in_map_iff in Hx. destruct Hx as [r' [<- Hr']].
  unfold Sqlite3.balance_desc. cbn [image Sqlite3.balance].
  rewrite Forall_forall in Hr, Hn'. rewrite geb_real; [apply Hr, Hr' | exact Hr0 | apply Hn', Hr'].
Qed.

(** With no two balances equal the two engines rank alike. *)
Lemma alike_ranking order sqlite_order t s :
  lawful_order order -> Sqlite3.lawful_order sqlite_order ->
  alike t s -> no_ties t ->
  sqlite_order s = map image (order t).
Proof.
  intros [Hperm Hdesc] [Sperm Sdesc] [Hnd Hnn Hsame] Hties.
  assert (Hno : Forall (fun r => is_nan (balance r) = false) (order t)).
  { eapply Permutation_Forall; [symmetry; apply Hperm | exact Hnn]. }
  symmetry. apply (@sorted_perm_unique _ Sqlite3.balance_desc).
  - apply sorted_images; [exact Hno | apply Hdesc].
  - apply Sdesc.
  - rewrite (Permutation_map image (Hperm t)), Hsame. symmetry. apply Sperm.
  - intros x y Hx Hy Hxy Hyx.
    apply in_map_iff in Hx. destruct Hx as [r1 [<- H1]].
    apply in_map_iff in Hy. destruct Hy as [r2 [<- H2]].
    rewrite Forall_forall in Hno.
    unfold Sqlite3.balance_desc in Hxy, Hyx. cbn [image Sqlite3.balance] in Hxy, Hyx.
    rewrite geb_real in Hxy, Hyx by (apply Hno; assumption).
    f_equal. apply Hties; try assumption;
      eapply Permutation_in; try apply Hperm; assumption.
Qed.

End LedgerFacts.

(* ================================================================== *)
(** * The two ledgers, side by side *)
(* ================================================================== *)

Section TwoLedgers.

Import TableFacts PostgresFacts Sqlite3Facts Ledgers LedgerFacts.

Variable order : table -> list row.
Variable sqlite_order : list Sqlite3.row -> list Sqlite3.row.

(** C10 (as the code has it).  Take the helpers of [bot.js] with a pool and
    those of [part_000], each on its own engine, both databases answering,
    and tables that hold the same records (one row per user, no NaN).
    [getBalance] returns the same number in both.  [addBalance] of an amount
    that is a number, with a sum that Postgres accepts (no overflow) and
    that is a number, succeeds in both and leaves tables that hold the same
    records again.  [getLeaderboard] returns the same rows in the same order
    when no two balances are equal. *)
Theorem ledgers_agree_when_connected (w : world) (db : Sqlite3.database) (t : table) :
  lawful_order order ->
  Sqlite3.lawful_order sqlite_order ->
  pool w = Some t ->
  online w = true ->
  Sqlite3.healthy db = true ->
  alike t (Sqlite3.contents db) ->
  (forall u, exists v,
      Postgres.getBalance order u w
      = (Fulfilled v, logged (PoolQuery (SelectBalance u)) w) /\
      Sqlite3.getBalance sqlite_order db u = Sqlite.Ok (Some v)) /\
  (forall u d,
      is_nan d = false ->
      (forall b, stored t u = Some b ->
         exists sum,
           Postgres.float8pl b (Postgres.float8in d) = Some sum /\ is_nan sum = false) ->
      exists t' db',
        Postgres.addBalance order u d w
        = (Fulfilled tt,
           {| pool := Some t'; online := true;
              events := events w ++ [PoolQuery (UpsertBalance u d)] |}) /\
        Sqlite3.addBalance sqlite_order db u d = Some db' /\
        Sqlite3.healthy db' = true /\
        alike t' (Sqlite3.contents db')) /\
  (forall n,
      no_ties t ->
      exists rows,
        Postgres.getLeaderboard order (Some n) w
        = (Fulfilled rows, logged (PoolQuery (SelectTop n)) w) /\
        Sqlite3.getLeaderboard sqlite_order db n = Sqlite.Ok (map image rows)).
Proof.
  intros Hl Sl Hp Ho Hh Ha. split; [| split].
  - intros u. rewrite (@pg_getBalance_online order u w t Hp Ho).
    rewrite (@getBalance_healthy sqlite_order db u Hh), (alike_stored u Ha).
    destruct (stored t u) as [b |] eqn:E; cbn [option_map].
    + exists (parseFloat b). split; [reflexivity |]. f_equal. apply real_parseFloat.
      destruct (stored_in _ _ E) as [r [Hin [_ <-]]].
      destruct Ha as [_ Hnn _]. rewrite Forall_forall in Hnn. apply Hnn, Hin.
    + exists zero. split; reflexivity.
  - intros u d Hd Hsum.
    destruct (@alike_after t (Sqlite3.contents db) u d Ha Hd Hsum) as [Hacc Hal].
    exists (Postgres.after t (u, d)),
      {| Sqlite3.contents := Sqlite3.insert_or_add (Sqlite3.contents db) u d d;
         Sqlite3.healthy := true |}.
    rewrite (@pg_addBalance_online order u d w t Hp Ho), Hacc.
    split; [reflexivity |].
    split; [apply addBalance_healthy, Hh |]. split; [reflexivity | exact Hal].
  - intros n Hties. exists (firstn n (order t)).
    split; [apply pg_getLeaderboard_online; assumption |].
    rewrite (@getLeaderboard_healthy sqlite_order db n Hh).
    rewrite (@alike_ranking order sqlite_order t _ Hl Sl Ha Hties), firstn_map.
    reflexivity.
Qed.

End TwoLedgers.

(** C10 for a credit of 0.2 to a user who holds 0.2, from tables that hold
    the same two records in different orders. *)
Lemma ledgers_agree_when_connected_witness :
  exists t' db',
    Postgres.addBalance stable_order "1" two_tenths
      {| pool := Some [ {| user_id := "1"; balance := two_tenths |};
                        {| user_id := "2"; balance := zero |} ];
         online := true; events := [] |}
    = (Fulfilled tt,
       {| pool := Some t'; online := true;
          events := [PoolQuery (UpsertBalance "1" two_tenths)] |}) /\
    Sqlite3.addBalance Sqlite3.rowid_order
      {| Sqlite3.contents :=
           [ {| Sqlite3.user_id := "2"; Sqlite3.balance := Some zero |};
             {| Sqlite3.user_id := "1"; Sqlite3.balance := Some two_tenths |} ];
         Sqlite3.healthy := true |} "1" two_tenths = Some db' /\
    Ledgers.alike t' (Sqlite3.contents db').
Proof.
  assert (Ha : Ledgers.alike
                 [ {| user_id := "1"; balance := two_tenths |};
                   {| user_id := "2"; balance := zero |} ]
                 [ {| Sqlite3.user_id := "2"; Sqlite3.balance := Some zero |};
                   {| Sqlite3.user_id := "1"; Sqlite3.balance := Some two_tenths |} ]).
  { split.
    - repeat constructor; cbn; intuition discriminate.
    - repeat constructor.
    - apply perm_swap. }
  destruct (@ledgers_agree_when_connected stable_order Sqlite3.rowid_order
              {| pool := Some [ {| user_id := "1"; balance := two_tenths |};
                                {| user_id := "2"; balance := zero |} ];
                 online := true; events := [] |}
              {| Sqlite3.contents :=
                   [ {| Sqlite3.user_id := "2"; Sqlite3.balance := Some zero |};
                     {| Sqlite3.user_id := "1"; Sqlite3.balance := Some two_tenths |} ];
                 Sqlite3.healthy := true |}
              _ EngineFacts.stable_order_lawful Sqlite3Facts.rowid_order_lawful
              eq_refl eq_refl eq_refl Ha) as [_ [H _]].
  destruct (H "1" two_tenths eq_refl) as [t' [db' [H1 [H2 [_ H3]]]]].
  { intros b [= <-]. eexists. split; reflexivity. }
  exists t', db'. split; [exact H1 |]. split; [exact H2 | exact H3].
Defined.

(** C10, against the sentence as stated: the two ledgers are not
    equivalent.  (1) Without [DATABASE_URL] [bot.js] has no pool: its
    [addBalance] does nothing and the balance stays 0, where [part_000]
    reads 0.2.  (2) A sum that overflows is refused by Postgres, which keeps
    the row, and stored as Infinity by SQLite.  (3) A NaN is stored by
    Postgres and read back, and stored as NULL by SQLite and read back as
    [null].  (4) After the credits a, b, b, a Postgres ranks "b" first and
    SQLite "a". *)
Lemma ledgers_differ :
  let big := S754_finite false 9007199254740991 971 in
  let none := {| pool := None; online := true; events := [] |} in
  let start := {| pool := Some []; online := true; events := [] |} in
  let file := {| Sqlite3.contents := []; Sqlite3.healthy := true |} in
  let pg := Postgres.addBalance stable_order in
  let sqlite := fun u d db =>
    match db with
    | Some db => Sqlite3.addBalance Sqlite3.rowid_order db u d
    | None => None
    end in
  let read := fun u db =>
    match db with
    | Some db => Sqlite3.getBalance Sqlite3.rowid_order db u
    | None => Sqlite.Err
    end in
  let top := fun db =>
    match db with
    | Some db => Sqlite3.getLeaderboard Sqlite3.rowid_order db 1
    | None => Sqlite.Err
    end in
  (* 1 *)
  fst ((pg "u" two_tenths ;; Postgres.getBalance stable_order "u") none) = Fulfilled zero /\
  read "u" (sqlite "u" two_tenths (Some file)) = Sqlite.Ok (Some two_tenths) /\
  (* 2 *)
  (pg "u" big ;; pg "u" big) start
  = (Rejected,
     {| pool := Some [ {| user_id := "u"; balance := big |} ]; online := true;
        events := [PoolQuery (UpsertBalance "u" big); PoolQuery (UpsertBalance "u" big)] |}) /\
  read "u" (sqlite "u" big (sqlite "u" big (Some file)))
  = Sqlite.Ok (Some (S754_infinity false)) /\
  (* 3 *)
  fst ((pg "u" S754_nan ;; Postgres.getBalance stable_order "u") start) = Fulfilled S754_nan /\
  read "u" (sqlite "u" S754_nan (Some file)) = Sqlite.Ok None /\
  (* 4 *)
  fst ((pg "a" two_tenths ;; pg "b" two_tenths ;; pg "b" two_tenths ;; pg "a" two_tenths ;;
        Postgres.getLeaderboard stable_order (Some 1)) start)
  = Fulfilled [ {| user_id := "b"; balance := S754_finite false 7205759403792794 (-54) |} ] /\
  top (sqlite "a" two_tenths (sqlite "b" two_tenths (sqlite "b" two_tenths
         (sqlite "a" two_tenths (Some file)))))
  = Sqlite.Ok [ {| Sqlite3.user_id := "a";
                   Sqlite3.balance := Some (S754_finite false 7205759403792794 (-54)) |} ].
Proof. repeat split. Qed.

(* ================================================================== *)
(** * What [verify] and [unverify] do to a balance *)
(* ================================================================== *)

Module VerifyFacts.

Import Exact RoundingFacts Binary64Facts ExactFacts.
Local Open Scope Z_scope.

(** One addition of 0.2 or of -0.2 to a finite double of magnitude at most
    2^24 - 1 is off the exact sum by at most 2^-30. *)
Lemma one_step_near b (s : bool) :
  in_range b ->
  Z.abs (ulps b) <= 16777215 * 2 ^ 1074 ->
  in_range (add b (S754_finite s 7205759403792794 (-55))) /\
  Z.abs (ulps (add b (S754_finite s 7205759403792794 (-55)))
         - (ulps b + ulps (S754_finite s 7205759403792794 (-55))))
  <= 2 ^ 1044.
Proof.
  intros Hr Hb.
  assert (E74 : 2 ^ 1074 = 36028797018963968 * 2 ^ 1019) by reflexivity.
  assert (E44 : 2 ^ 1044 = 33554432 * 2 ^ 1019) by reflexivity.
  assert (E45 : 2 ^ 1045 = 67108864 * 2 ^ 1019) by reflexivity.
  assert (E98 : 2 ^ (24 + 1074) = 604462909807314587353088 * 2 ^ 1019) by reflexivity.
  assert (ET : ulps (S754_finite s 7205759403792794 (-55))
               = (if s then -1 else 1) * (7205759403792794 * 2 ^ 1019))
    by (destruct s; reflexivity).
  assert (HP : 0 < 2 ^ 1019) by (apply pow2_pos; lia).
  destruct b as [s0 | | | sb mb eb]; try contradiction.
  - change (add (S754_zero s0) (S754_finite s 7205759403792794 (-55)))
      with (S754_finite s 7205759403792794 (-55)).
    split; [cbn; lia |].
    change (ulps (S754_zero s0)) with 0. rewrite E44. lia.
  - cbn [in_range] in Hr.
    destruct (@add_near sb mb eb s 7205759403792794 (-55) 24) as [Hs [Herr _]]; try lia.
    { rewrite ET, E98. rewrite E74 in Hb. destruct s; lia. }
    replace (Z.max (Z.min eb (-55)) (24 - 53) + 1074) with 1045 in Herr by lia.
    split; [exact Hs |]. rewrite E45 in Herr. rewrite E44. lia.
Qed.

(** The same in rational numbers, against the exact fifth. *)
Lemma fifth_close_in_Q x b (s : bool) :
  in_range x -> in_range b ->
  Z.abs (ulps x - (ulps b + ulps (S754_finite s 7205759403792794 (-55)))) <= 2 ^ 1044 ->
  (Qabs (to_Q x - (to_Q b + (if s then - (1 # 5) else 1 # 5))) <= 1 # 1000000000)%Q.
Proof.
  intros Hx Hb H.
  rewrite (@to_Q_ulps x Hx), (@to_Q_ulps b Hb).
  set (P := Z.to_pos (2 ^ 1074)).
  assert (ET : ulps (S754_finite s 7205759403792794 (-55))
               = (if s then -1 else 1) * (7205759403792794 * 2 ^ 1019))
    by (destruct s; reflexivity).
  rewrite ET in H.
  assert (HP : Zpos P = 36028797018963968 * 2 ^ 1019) by reflexivity.
  assert (E44 : 2 ^ 1044 = 33554432 * 2 ^ 1019) by reflexivity.
  assert (H0 : 0 < 2 ^ 1019) by (apply pow2_pos; lia).
  assert (E : (Qmake (ulps x) P - (Qmake (ulps b) P + (if s then - (1 # 5) else 1 # 5))
               == Qmake (5 * ulps x - 5 * ulps b - (if s then -1 else 1) * Zpos P)
                        (5 * P))%Q).
  { destruct s; unfold Qminus, Qplus, Qopp, Qeq; cbn [Qnum Qden];
      rewrite ?Pos2Z.inj_mul; ring. }
  rewrite E. unfold Qabs, Qle. cbn [Qnum Qden].
  rewrite Pos2Z.inj_mul, HP. rewrite E44 in H. destruct s; lia.
Qed.

End VerifyFacts.

Section Verification.

Import Router RouterFacts PgFacts TableFacts.
Import Exact ExactFacts Binary64Facts VerifyFacts.

Variable OWNER_ID : option string.
Variable order : table -> list row.
Variable Number_toString : number -> string.

(** C3.  The operator's [verify(member, inviter)] sends the upsert of 0.2 for
    the inviter and then confirms, naming member and inviter; [unverify]
    sends the upsert of -0.2 and confirms likewise.  The amounts are the
    double nearest to a fifth and its negative.  An inviter with no row is
    left at 0.2, respectively at -0.2; a stored balance of magnitude at most
    2^24 - 1 goes up, respectively down, by a fifth to within 10^-9.  Nothing
    is checked before the -0.2 is applied: a balance of at most 0.19 ends
    below zero. *)
Theorem operator_verify_unverify (i : interaction) (w : world) (member inviter : User) :
  OWNER_ID = Some (id (user i)) ->
  isCommand i || isChatInputCommand i = true ->
  getUser i "member" = Some member ->
  getUser i "inviter" = Some inviter ->
  (forall t, pool w = Some t -> online w = true ->
     (commandName i = "verify" ->
        interactionCreate OWNER_ID order Number_toString i w
        = (Fulfilled tt,
           {| pool := Some (upsert t (id inviter) two_tenths); online := true;
              events := events w ++ [DeferReply false;
                                     PoolQuery (UpsertBalance (id inviter) two_tenths);
                                     EditReply (verified_text member inviter)] |})) /\
     (commandName i = "unverify" ->
        interactionCreate OWNER_ID order Number_toString i w
        = (Fulfilled tt,
           {| pool := Some (upsert t (id inviter) (neg two_tenths)); online := true;
              events := events w ++ [DeferReply false;
                                     PoolQuery (UpsertBalance (id inviter) (neg two_tenths));
                                     EditReply (unverified_text member inviter)] |}))) /\
  (pool w = None ->
     (commandName i = "verify" ->
        interactionCreate OWNER_ID order Number_toString i w
        = (Fulfilled tt,
           {| pool := None; online := online w;
              events := events w ++ [DeferReply false;
                                     EditReply (verified_text member inviter)] |})) /\
     (commandName i = "unverify" ->
        interactionCreate OWNER_ID order Number_toString i w
        = (Fulfilled tt,
           {| pool := None; online := online w;
              events := events w ++ [DeferReply false;
                                     EditReply (unverified_text member inviter)] |}))) /\
  two_tenths = S754_finite false 7205759403792794 (-55) /\
  neg two_tenths = S754_finite true 7205759403792794 (-55) /\
  (to_Q two_tenths == 3602879701896397 # 18014398509481984)%Q /\
  (to_Q (neg two_tenths) == - (3602879701896397 # 18014398509481984))%Q /\
  (Qabs (to_Q two_tenths - (1 # 5)) <= 1 # 10000000000000000)%Q /\
  (forall t, stored t (id inviter) = None ->
     stored (upsert t (id inviter) two_tenths) (id inviter)
     = Some (S754_finite false 7205759403792794 (-55)) /\
     stored (upsert t (id inviter) (neg two_tenths)) (id inviter)
     = Some (S754_finite true 7205759403792794 (-55))) /\
  (forall t b,
     stored t (id inviter) = Some b ->
     well_formed b = true -> is_finite b = true -> (Qabs (to_Q b) <= 16777215)%Q ->
     exists up down,
       stored (upsert t (id inviter) two_tenths) (id inviter) = Some up /\
       stored (upsert t (id inviter) (neg two_tenths)) (id inviter) = Some down /\
       is_finite up = true /\
       is_finite down = true /\
       (Qabs (to_Q up - (to_Q b + (1 # 5))) <= 1 # 1000000000)%Q /\
       (Qabs (to_Q down - (to_Q b - (1 # 5))) <= 1 # 1000000000)%Q /\
       ((to_Q b <= 19 # 100)%Q -> (to_Q down < 0)%Q)) /\
  verified_text member inviter
  = ("✅ Verified **" ++ username member ++ "** was invited by **" ++ username inviter
     ++ "**." ++ newline ++ "Added **0.2** to " ++ username inviter ++ "'s balance.")%string /\
  unverified_text member inviter
  = ("↩️ Unverified **" ++ username member ++ "** who was invited by **"
     ++ username inviter ++ "**." ++ newline ++ "Removed **0.2** from "
     ++ username inviter ++ "'s balance.")%string.
Proof.
  intros Hown Hc Hm Hi.
  assert (Hno : not_owner OWNER_ID i = false).
  { destruct (not_owner OWNER_ID i) eqn:E; [| reflexivity].
    apply not_owner_iff in E. contradiction. }
  split.
  { intros t Hp Ho. split; intros Hn.
    - rewrite (dispatch_verify _ _ _ _ Hc Hn). apply on_verify_online; assumption.
    - rewrite (dispatch_unverify _ _ _ _ Hc Hn). apply on_unverify_online; assumption. }
  split.
  { intros Hp. split; intros Hn.
    - rewrite (dispatch_verify _ _ _ _ Hc Hn). apply on_verify_no_pool; assumption.
    - rewrite (dispatch_unverify _ _ _ _ Hc Hn). apply on_unverify_no_pool; assumption. }
  split; [reflexivity |]. split; [reflexivity |].
  split; [reflexivity |]. split; [reflexivity |].
  split; [vm_compute; discriminate |].
  split.
  { intros t Hnone. rewrite !stored_upsert_same, Hnone. split; reflexivity. }
  split; [| split; reflexivity].
  intros t b Hb Hwf Hfin Hmag.
  pose proof (@well_formed_in_range b Hwf Hfin) as Hr.
  pose proof (@magnitude_in_ulps b Hr Hmag) as Hu.
  destruct (@one_step_near b false Hr Hu) as [Hr1 He1].
  destruct (@one_step_near b true Hr Hu) as [Hr2 He2].
  exists (add b two_tenths), (add b (neg two_tenths)).
  rewrite !stored_upsert_same, Hb.
  split; [reflexivity |]. split; [reflexivity |].
  split; [apply in_range_finite, Hr1 |]. split; [apply in_range_finite, Hr2 |].
  pose proof (@fifth_close_in_Q _ b false Hr1 Hr He1) as Q1.
  pose proof (@fifth_close_in_Q _ b true Hr2 Hr He2) as Q2.
  cbv iota in Q1, Q2.
  split; [exact Q1 |].
  assert (Q2' : (Qabs (to_Q (add b (neg two_tenths)) - (to_Q b - (1 # 5)))
                 <= 1 # 1000000000)%Q).
  { assert (E : (to_Q (add b (neg two_tenths)) - (to_Q b - (1 # 5))
                 == to_Q (add b (S754_finite true 7205759403792794 (-55)))
                    - (to_Q b + - (1 # 5)))%Q) by (change (neg two_tenths) with (S754_finite true 7205759403792794 (-55)); ring).
    rewrite E. exact Q2. }
  split; [exact Q2' |].
  intros Hlow. apply Qabs_Qle_condition in Q2'. destruct Q2' as [_ Hup]. lra.
Qed.

End Verification.

(** C3 for the operator's [unverify] of an inviter who has no row, which
    opens the row at -0.2, and of an inviter who holds 0.1, who ends below
    zero. *)
Lemma operator_verify_unverify_witness :
  Router.interactionCreate (Some "1") stable_order (fun _ => EmptyString)
    (Schema.invocation "unverify" Sample.operator
       [("member", Sample.bob); ("inviter", Sample.alice)])
    {| pool := Some []; online := true; events := [] |}
  = (Fulfilled tt,
     {| pool := Some [ {| user_id := "2";
                          balance := S754_finite true 7205759403792794 (-55) |} ];
        online := true;
        events := [DeferReply false;
                   PoolQuery (UpsertBalance "2" (S754_finite true 7205759403792794 (-55)));
                   EditReply ("↩️ Unverified **bob** who was invited by **alice**."
                              ++ Router.newline
                              ++ "Removed **0.2** from alice's balance.")%string] |}) /\
  stored (upsert [ {| user_id := "2";
                      balance := S754_finite false 7205759403792794 (-56) |} ]
            "2" (S754_finite true 7205759403792794 (-55))) "2"
  = Some (S754_finite true 7205759403792794 (-56)) /\
  (to_Q (S754_finite true 7205759403792794 (-56)) < 0)%Q.
Proof.
  destruct (@operator_verify_unverify (Some "1") stable_order (fun _ => EmptyString)
              (Schema.invocation "unverify" Sample.operator
                 [("member", Sample.bob); ("inviter", Sample.alice)])
              {| pool := Some []; online := true; events := [] |}
              Sample.bob Sample.alice eq_refl eq_refl eq_refl eq_refl)
    as [H [_ [_ [_ [_ [_ [_ [_ [Hrow _]]]]]]]]].
  split.
  - exact (proj2 (H [] eq_refl eq_refl) eq_refl).
  - destruct (Hrow [ {| user_id := "2";
                        balance := S754_finite false 7205759403792794 (-56) |} ]
                (S754_finite false 7205759403792794 (-56)) eq_refl eq_refl eq_refl
                ltac:(vm_compute; discriminate))
      as [up [down [_ [Hdown [_ [_ [_ [_ Hneg]]]]]]]].
    assert (E : S754_finite true 7205759403792794 (-56) = down).
    { change (neg two_tenths) with (S754_finite true 7205759403792794 (-55)) in Hdown.
      vm_compute in Hdown. injection Hdown as Hdown. exact Hdown. }
    subst down. split; [reflexivity |]. apply Hneg. vm_compute. discriminate.
Defined.

(* ================================================================== *)
(** * The [leaderboard] command *)
(* ================================================================== *)

Section Leaderboard.

Import Router RouterFacts PgFacts TableFacts.

Variable OWNER_ID : option string.
Variable order : table -> list row.
Variable Number_toString : number -> string.

(** C8 (as the code has it).  The [leaderboard] command asks for the top 15.
    With no pool, or when no row comes back, it answers "No data yet!";
    otherwise it answers with one line per row, in the order of the rows,
    each made of the rank counted from 1, the mention of the user and the
    balance printed by [toFixed(2)].  That text ends in a point and two
    digits for a finite balance below 10^21; for the other values a row can
    hold it is "NaN", "Infinity", "-Infinity", or the exponent notation of
    ToString. *)
Theorem leaderboard_reply (i : interaction) (w : world) :
  isCommand i || isChatInputCommand i = true ->
  commandName i = "leaderboard" ->
  (pool w = None ->
   interactionCreate OWNER_ID order Number_toString i w
   = (Fulfilled tt,
      {| pool := None; online := online w;
         events := events w ++ [DeferReply false; EditReply "🏆 No data yet!"] |})) /\
  (forall t, pool w = Some t -> online w = true ->
   let rows := firstn 15 (order t) in
   let lines := map_indexed (leaderboard_line Number_toString) 0 rows in
   fst (Pg.getLeaderboard order (Some 15) (logged (DeferReply false) w)) = Fulfilled rows /\
   interactionCreate OWNER_ID order Number_toString i w
   = (Fulfilled tt,
      {| pool := Some t; online := true;
         events := events w ++ [DeferReply false; PoolQuery (SelectTop 15);
                                EditReply (match rows with
                                           | [] => "🏆 No data yet!"
                                           | _ => ("🏆 **Top 15 Leaderboard**" ++ newline
                                                   ++ newline
                                                   ++ String.concat newline lines)%string
                                           end)] |}) /\
   List.length lines = List.length rows /\
   List.length rows <= 15 /\
   (forall k r, nth_error rows k = Some r ->
      nth_error lines k
      = Some (decimal (Z.of_nat (k + 1)) ++ ". <@" ++ user_id r ++ "> — **"
              ++ Number.toFixed2 Number_toString (parseFloat (balance r)) ++ "**")%string /\
      (below_1e21 (balance r) = true ->
       exists (sign : string) (whole : Z) (frac : string),
         Number.toFixed2 Number_toString (parseFloat (balance r))
         = (sign ++ decimal whole ++ "." ++ frac)%string /\
         String.length frac = 2) /\
      (below_1e21 (balance r) = false ->
       Number.toFixed2 Number_toString (parseFloat (balance r))
       = match balance r with
         | S754_nan => "NaN"
         | S754_infinity false => "Infinity"
         | S754_infinity true => "-Infinity"
         | S754_finite s m e =>
             ((if s then "-" else "") ++ Number_toString (S754_finite false m e))%string
         | S754_zero _ => "0.00"
         end)) /\
   (lawful_order order -> t = [] -> rows = [])).
Proof.
  intros Hc Hn. split.
  { intros Hp. rewrite (dispatch_leaderboard _ _ _ _ Hc Hn).
    destruct w as [p o ev]. cbn in Hp. subst p.
    unfold on_leaderboard, bind, try_catch, deferReply, editReply, emit, modify, logged,
      Router.getLeaderboard, Pg.getLeaderboard, gets, ret, no_data.
    cbn. rewrite <- ?app_assoc. reflexivity. }
  intros t Hp Ho rows lines.
  assert (Hq : Pg.getLeaderboard order (Some 15) (logged (DeferReply false) w)
               = (Fulfilled rows, logged (PoolQuery (SelectTop 15)) (logged (DeferReply false) w))).
  { apply getLeaderboard_online; assumption. }
  split; [rewrite Hq; reflexivity |].
  split.
  { rewrite (dispatch_leaderboard _ _ _ _ Hc Hn). unfold on_leaderboard.
    unfold bind, try_catch, deferReply, editReply, emit, modify, Router.getLeaderboard.
    rewrite Hq. fold lines.
    unfold leaderboard_text, no_data. fold lines.
    destruct rows; unfold logged; simpl; rewrite Hp, Ho, <- !app_assoc; reflexivity. }
  split; [apply map_indexed_length |].
  split; [apply firstn_le_length |].
  split.
  - intros k r Hk. split; [| split].
    + unfold lines. rewrite map_indexed_nth, Hk. reflexivity.
    + intros Hb.
      destruct (toFixed2_two_decimals Number_toString (parseFloat (balance r)))
        as [sign [whole [frac [H1 [_ [_ H2]]]]]].
      { destruct (balance r); simpl in *; congruence. }
      exists sign, whole, frac. split; assumption.
    + intros Hb. destruct (balance r) as [s | [|] | | s m e]; try discriminate;
        try reflexivity.
      cbn [below_1e21] in Hb. apply negb_false_iff in Hb.
      cbn [parseFloat Number.toFixed2]. rewrite Hb. reflexivity.
  - intros Hl ->. unfold rows. rewrite (EngineFacts.lawful_order_nil Hl). reflexivity.
Qed.

End Leaderboard.

(** C8 at a table of two rows: the reply, in full. *)
Lemma leaderboard_reply_witness :
  Router.interactionCreate None stable_order (fun _ => EmptyString)
    (Schema.invocation "leaderboard" Sample.bob [])
    {| pool := Some [ {| user_id := "1"; balance := two_tenths |};
                      {| user_id := "2"; balance := add two_tenths two_tenths |} ];
       online := true; events := [] |}
  = (Fulfilled tt,
     {| pool := Some [ {| user_id := "1"; balance := two_tenths |};
                       {| user_id := "2"; balance := add two_tenths two_tenths |} ];
        online := true;
        events := [DeferReply false; PoolQuery (SelectTop 15);
                   EditReply ("🏆 **Top 15 Leaderboard**" ++ Router.newline ++ Router.newline
                              ++ "1. <@2> — **0.40**" ++ Router.newline
                              ++ "2. <@1> — **0.20**")] |}).
Proof.
  exact (proj1 (proj2
    (proj2 (@leaderboard_reply None stable_order (fun _ => EmptyString)
              (Schema.invocation "leaderboard" Sample.bob [])
              {| pool := Some [ {| user_id := "1"; balance := two_tenths |};
                                {| user_id := "2"; balance := add two_tenths two_tenths |} ];
                 online := true; events := [] |}
              eq_refl eq_refl) _ eq_refl eq_refl))).
Defined.

(** C8, against the sentence as the spec has it: a balance is not always
    shown with two decimals.  A row that holds NaN or an infinity, which a
    DOUBLE PRECISION column can, is listed as [toFixed(2)] prints it, with no
    decimal point at all. *)
Lemma leaderboard_not_two_decimals :
  Router.interactionCreate None stable_order (fun _ => EmptyString)
    (Schema.invocation "leaderboard" Sample.bob [])
    {| pool := Some [ {| user_id := "1"; balance := two_tenths |};
                      {| user_id := "2"; balance := S754_nan |};
                      {| user_id := "3"; balance := S754_infinity true |} ];
       online := true; events := [] |}
  = (Fulfilled tt,
     {| pool := Some [ {| user_id := "1"; balance := two_tenths |};
                       {| user_id := "2"; balance := S754_nan |};
                       {| user_id := "3"; balance := S754_infinity true |} ];
        online := true;
        events := [DeferReply false; PoolQuery (SelectTop 15);
                   EditReply ("🏆 **Top 15 Leaderboard**" ++ Router.newline ++ Router.newline
                              ++ "1. <@2> — **NaN**" ++ Router.newline
                              ++ "2. <@1> — **0.20**" ++ Router.newline
                              ++ "3. <@3> — **-Infinity**")] |}) /\
  String.index 0 "." "NaN" = None /\
  String.index 0 "." "-Infinity" = None /\
  String.index 0 "." "0.20" = Some 1.
Proof. repeat split. Qed.
